(** * BirthData: the schema-matching loader of [dashboard_app.py]

    A shallow embedding of the column-name normaliser, the alias resolver
    and the loader of [src/dashboard_app.py], with the properties the
    specification states about them.

    Strings.  A Python [str] is modelled as a [string] whose characters are
    the code points U+0000..U+00FF: an [ascii] value [c] stands for the code
    point [N_of_ascii c].  The character classes used by [str.strip],
    [str.lower] and [str.isalnum] are those of the Unicode database on that
    range, where [str.lower] maps every character to one character of the
    range.  Names with characters above U+00FF are outside the model: there
    [str.lower] is no longer character by character (a capital sigma is
    lowered according to its position in the word, and U+0130 becomes two
    characters), and no statement below speaks about such names.
    [str.upper] leaves the range already on it (sharp s becomes SS); where
    it is needed its result is given as a list of code points,
    [upper_codes].

    Sets.  The order in which Python visits the elements of a [set] is left
    open: the resolver takes it as an argument, and the properties are
    stated for every order that lists each set without repetition.

    Tables.  [load_data] is a function of what [pd.read_csv] did.  A table
    is a list of column labels, which may repeat, and a list of rows;
    [df[label]] is a column when the label occurs once and a table when it
    occurs several times, [pd.to_numeric] raises [TypeError] on a table, a
    table has no [.str] accessor.  The source does not fix the version of
    pandas, and [astype(str)] depends on it: before pandas 3.0 a missing
    value becomes the text [nan], from 3.0 on it stays missing.
    [load_data] has the behaviour before 3.0; [load_data_with] takes the
    version as an argument, and the properties of the text columns are
    stated for it.

    Page.  Of the page, the three sidebar filters, the exit on an empty
    filtered table and the choice of the display columns are modelled
    ([page_after_filters]); the option lists, the chart and the final sort
    are not. *)

From Stdlib Require Import Ascii String NArith List Lia.
From stdpp Require Import base decidable list gmap strings pretty.

Open Scope string_scope.
Open Scope list_scope.

(** ** Characters *)

Module Char.

Definition code (c : ascii) : N := N_of_ascii c.

Definition between (lo hi : N) (c : ascii) : bool :=
  ((lo <=? code c) && (code c <=? hi))%N.

(** [ch.isspace()], which is also the set [str.strip()] removes. *)
Definition isspace (c : ascii) : bool :=
  between 9 13 c || between 28 32 c || between 133 133 c
  || between 160 160 c.

(** ASCII digits, upper-case and lower-case letters. *)
Definition is_ascii_digit (c : ascii) : bool := between 48 57 c.
Definition is_ascii_upper (c : ascii) : bool := between 65 90 c.
Definition is_ascii_lower (c : ascii) : bool := between 97 122 c.
Definition is_ascii_alnum (c : ascii) : bool :=
  is_ascii_digit c || is_ascii_upper c || is_ascii_lower c.
Definition is_ascii (c : ascii) : bool := (code c <? 128)%N.

(** [ch.isalnum()]: letters, decimal digits and the other numeric
    characters (superscripts, vulgar fractions) of the range. *)
Definition isalnum (c : ascii) : bool :=
  is_ascii_alnum c
  || between 170 170 c || between 178 179 c || between 181 181 c
  || between 185 186 c || between 188 190 c
  || between 192 214 c || between 216 246 c || between 248 255 c.

(** The characters [str.lower()] changes: A-Z and the accented capitals. *)
Definition is_upper (c : ascii) : bool :=
  is_ascii_upper c || between 192 214 c || between 216 222 c.

Definition lower (c : ascii) : ascii :=
  if is_upper c then ascii_of_N (code c + 32) else c.

Definition space : ascii := " "%char.
Definition underscore : ascii := "_"%char.

Definition is_space (c : ascii) : bool := bool_decide (c = space).
Definition is_underscore (c : ascii) : bool := bool_decide (c = underscore).

End Char.

(** ** Python string methods *)

Module Str.

Fixpoint map (f : ascii -> ascii) (s : string) : string :=
  match s with
  | EmptyString => EmptyString
  | String c s' => String (f c) (map f s')
  end.

Fixpoint filter (p : ascii -> bool) (s : string) : string :=
  match s with
  | EmptyString => EmptyString
  | String c s' => if p c then String c (filter p s') else filter p s'
  end.

Fixpoint all (p : ascii -> bool) (s : string) : bool :=
  match s with
  | EmptyString => true
  | String c s' => p c && all p s'
  end.

(** [s.lstrip()], [s.rstrip()], [s.strip()] *)
Fixpoint lstrip (s : string) : string :=
  match s with
  | EmptyString => EmptyString
  | String c s' => if Char.isspace c then lstrip s' else s
  end.

Fixpoint rstrip (s : string) : string :=
  match s with
  | EmptyString => EmptyString
  | String c s' =>
      match rstrip s' with
      | EmptyString => if Char.isspace c then EmptyString else String c EmptyString
      | r => String c r
      end
  end.

Definition strip (s : string) : string := rstrip (lstrip s).

(** [s.lower()] *)
Definition lower (s : string) : string := map Char.lower s.

(** [s.replace(" ", "_")] *)
Definition replace_space (s : string) : string :=
  map (fun c => if Char.is_space c then Char.underscore else c) s.

(** ["__" in s] *)
Fixpoint contains_dunder (s : string) : bool :=
  match s with
  | EmptyString => false
  | String c s' =>
      match s' with
      | EmptyString => false
      | String d _ =>
          (Char.is_underscore c && Char.is_underscore d) || contains_dunder s'
      end
  end.

(** [s.replace("__", "_")]: one left-to-right pass over non-overlapping
    occurrences. *)
Fixpoint replace_dunder (s : string) : string :=
  match s with
  | EmptyString => EmptyString
  | String c s' =>
      match s' with
      | EmptyString => s
      | String d s'' =>
          if Char.is_underscore c && Char.is_underscore d
          then String Char.underscore (replace_dunder s'')
          else String c (replace_dunder s')
      end
  end.

End Str.

(** ** Name normaliser (lines 10-19) *)

(** The [while "__" in name] loop, run for at most [fuel] iterations. *)
Fixpoint collapse_loop (fuel : nat) (name : string) : string :=
  match fuel with
  | O => name
  | S k =>
      if Str.contains_dunder name
      then collapse_loop k (Str.replace_dunder name)
      else name
  end.

(** [_normalize_col_name].  Every iteration of the loop shortens the name,
    so its length bounds the number of iterations
    (see [normalize_loop_exits]). *)
Definition _normalize_col_name (name : string) : string :=
  let name := Str.replace_space (Str.lower (Str.strip name)) in
  collapse_loop (String.length name) name.

(** [_canonical_key] *)
Definition _canonical_key (name : string) : string :=
  let normalized := _normalize_col_name name in
  Str.filter Char.isalnum normalized.

(** ** Dictionaries that keep insertion order

    [matched] is a Python [dict]: its [items()] come in insertion order, and
    assigning to a key that is present replaces the value in place. *)

Module Dict.

Definition t : Type := list (string * string).

Definition empty : t := [].

Fixpoint get (d : t) (k : string) : option string :=
  match d with
  | [] => None
  | (k', v) :: d' => if decide (k' = k) then Some v else get d' k
  end.

(** [k in d] *)
Definition mem (d : t) (k : string) : bool :=
  match get d k with Some _ => true | None => false end.

(** [d[k] = v] *)
Fixpoint set (k v : string) (d : t) : t :=
  match d with
  | [] => [(k, v)]
  | (k', v') :: d' =>
      if decide (k' = k) then (k, v) :: d' else (k', v') :: set k v d'
  end.

Definition items (d : t) : list (string * string) := d.
Definition keys (d : t) : list string := d.*1.

End Dict.

(** ** Alias resolver (lines 22-91) *)

Definition logical_fields : list string :=
  [ "state_of_residence"; "month"; "month_code"; "year_code";
    "sex_of_infant"; "births" ].

Definition alias_map : gmap string (gset string) :=
  list_to_map
    [ ("state_of_residence",
        {[ "stateofresidence"; "stateresidence"; "residencestate"; "state" ]});
      ("month", {[ "month" ]});
      ("month_code", {[ "monthcode" ]});
      ("year_code", {[ "yearcode" ]});
      ("sex_of_infant",
        {[ "sexofinfant"; "infantsex"; "sex"; "gender"; "infantgender" ]});
      ("births",
        {[ "births"; "birthcount"; "birthcounts"; "numberofbirths";
           "livebirths"; "totalbirths" ]}) ].

(** The order in which a [for] loop visits a Python [set] is not fixed by
    the language.  The resolver takes it as an argument [iter]; an
    admissible [iter] lists every set without repetition. *)
Definition iteration_order (iter : gset string -> list string) : Prop :=
  forall S : gset string, iter S ≡ₚ elements S.

(** Lines 59-62: [canonical_to_cols.setdefault(ck, []).append(col)] *)
Definition index_col (m : gmap string (list string)) (col : string)
  : gmap string (list string) :=
  let ck := _canonical_key col in
  <[ ck := default [] (m !! ck) ++ [col] ]> m.

Definition canonical_index (columns : list string) : gmap string (list string) :=
  fold_left index_col columns ∅.

(** Lines 70-78: the candidate list of a field. *)
Definition collect_candidates (iter : gset string -> list string)
    (canonical_to_cols : gmap string (list string)) (field : string)
  : list string :=
  let target_ck := _canonical_key field in
  let candidates := default [] (canonical_to_cols !! target_ck) in
  fold_left
    (fun candidates alias_ck =>
       candidates ++ default [] (canonical_to_cols !! alias_ck))
    (iter (default ∅ (alias_map !! field)))
    candidates.

(** Lines 80-85: order-preserving removal of repeated names. *)
Definition dedupe_step (acc : list string * gset string) (c : string)
  : list string * gset string :=
  let '(deduped, seen) := acc in
  if decide (c ∈ seen) then (deduped, seen)
  else (deduped ++ [c], seen ∪ {[ c ]}).

Definition dedupe (candidates : list string) : list string :=
  fst (fold_left dedupe_step candidates ([], ∅)).

(** One iteration of the loop over [logical_fields] (lines 65-88);
    [len(deduped) == 1] followed by [deduped[0]] is the one-element
    pattern. *)
Definition match_field (iter : gset string -> list string)
    (columns : list string) (canonical_to_cols : gmap string (list string))
    (matched : Dict.t) (field : string) : Dict.t :=
  if bool_decide (field ∈ columns) then Dict.set field field matched
  else
    match dedupe (collect_candidates iter canonical_to_cols field) with
    | [c] => Dict.set field c matched
    | _ => matched
    end.

Definition _match_required_fields (iter : gset string -> list string)
    (columns : list string) : Dict.t * list string :=
  let canonical_to_cols := canonical_index columns in
  let matched :=
    fold_left (match_field iter columns canonical_to_cols) logical_fields
      Dict.empty in
  let missing :=
    List.filter (fun f => negb (Dict.mem matched f)) logical_fields in
  (matched, missing).

(** ** Tables (the part of pandas that [load_data] uses)

    A [DataFrame] is a list of column labels, which may repeat, and a list of
    rows.  Numbers stay abstract: [number] is the type of the values a
    numeric column holds, [parse_number] is the parser [pd.to_numeric]
    applies to text, and [number_repr] is the text [astype(str)] gives a
    number. *)

Inductive cell (number : Type) : Type :=
  | NaN
  | Txt (s : string)
  | Num (n : number).

Arguments NaN {number}.
Arguments Txt {number} s.
Arguments Num {number} n.

#[export] Instance cell_inhabited number : Inhabited (cell number) :=
  populate NaN.

Record DataFrame (number : Type) : Type := mkDataFrame {
  columns : list string;
  rows : list (list (cell number))
}.

Arguments mkDataFrame {number} columns rows.
Arguments columns {number} d.
Arguments rows {number} d.

(** Every row has one cell per column. *)
Definition rectangular {number} (df : DataFrame number) : Prop :=
  Forall (fun r => length r = length (columns df)) (rows df).

Inductive exn : Type := TypeError | AttributeError | KeyError.

Inductive outcome (A : Type) : Type :=
  | Return (a : A)
  | Raise (e : exn).

Arguments Return {A} a.
Arguments Raise {A} e.

#[export] Instance outcome_bind : MBind outcome := fun A B k m =>
  match m with
  | Return a => k a
  | Raise e => Raise e
  end.

(** The positions at which [label] occurs among the column labels. *)
Fixpoint positions_from (i : nat) (label : string) (cols : list string)
  : list nat :=
  match cols with
  | [] => []
  | c :: cols' =>
      if decide (c = label) then i :: positions_from (S i) label cols'
      else positions_from (S i) label cols'
  end.

Definition positions (label : string) (cols : list string) : list nat :=
  positions_from 0 label cols.

(** What [df[label]] evaluates to: a column when the label occurs once, a
    sub-table when it is repeated. *)
Inductive selection (number : Type) : Type :=
  | SelSeries (values : list (cell number))
  | SelFrame (at_positions : list nat).

Arguments SelSeries {number} values.
Arguments SelFrame {number} at_positions.

Section Pandas.

Context {number : Type}.
Variable parse_number : string -> option number.
Variable number_repr : number -> string.

Definition notna (c : cell number) : bool :=
  match c with NaN => false | _ => true end.

(** [df[label]] *)
Definition getitem (df : DataFrame number) (label : string)
  : outcome (selection number) :=
  match positions label (columns df) with
  | [] => Raise KeyError
  | [i] => Return (SelSeries (List.map (fun r => r !!! i) (rows df)))
  | ps => Return (SelFrame ps)
  end.

(** [df[label] = values] for a column of values that shares the table's
    index: the column is replaced where the label occurs, and appended
    when it does not occur. *)
Definition set_at (ps : list nat) (v : cell number) (r : list (cell number))
  : list (cell number) :=
  fold_right (fun i r => <[ i := v ]> r) r ps.

Definition setitem (df : DataFrame number) (label : string)
    (values : list (cell number)) : DataFrame number :=
  match positions label (columns df) with
  | [] =>
      mkDataFrame (columns df ++ [label])
        (zip_with (fun r v => r ++ [v]) (rows df) values)
  | ps =>
      mkDataFrame (columns df)
        (zip_with (fun r v => set_at ps v r) (rows df) values)
  end.

(** One value under [pd.to_numeric(..., errors="coerce")] *)
Definition to_numeric_cell (c : cell number) : cell number :=
  match c with
  | NaN => NaN
  | Num n => Num n
  | Txt s =>
      match parse_number s with
      | Some n => Num n
      | None => NaN
      end
  end.

(** [pd.to_numeric(sel, errors="coerce")]: only one-dimensional
    arguments are accepted. *)
Definition to_numeric (sel : selection number) : outcome (list (cell number)) :=
  match sel with
  | SelSeries values => Return (List.map to_numeric_cell values)
  | SelFrame _ => Raise TypeError
  end.

(** One value under [astype(str)]: a missing value becomes the text
    [nan]. *)
Definition str_of_cell (c : cell number) : string :=
  match c with
  | NaN => "nan"
  | Txt s => s
  | Num n => number_repr n
  end.

Definition astype_str (sel : selection number) : selection number :=
  match sel with
  | SelSeries values => SelSeries (List.map (fun c => Txt (str_of_cell c)) values)
  | SelFrame ps => SelFrame ps
  end.

(** One value under [.str.strip()]: anything that is not text gives a
    missing value. *)
Definition strip_cell (c : cell number) : cell number :=
  match c with
  | Txt s => Txt (Str.strip s)
  | _ => NaN
  end.

(** [sel.str.strip()]: a table has no [.str] accessor. *)
Definition str_strip (sel : selection number) : outcome (list (cell number)) :=
  match sel with
  | SelSeries values => Return (List.map strip_cell values)
  | SelFrame _ => Raise AttributeError
  end.

(** [df.dropna(subset=[label])]: a row goes when a cell under the label is
    missing. *)
Definition dropna (df : DataFrame number) (label : string)
  : outcome (DataFrame number) :=
  match positions label (columns df) with
  | [] => Raise KeyError
  | ps =>
      Return
        (mkDataFrame (columns df)
           (List.filter (fun r => forallb (fun i => notna (r !!! i)) ps)
              (rows df)))
  end.

(** [df.rename(columns=mapping)] *)
Definition rename (df : DataFrame number) (mapping : gmap string string)
  : DataFrame number :=
  mkDataFrame (List.map (fun c => default c (mapping !! c)) (columns df))
    (rows df).

End Pandas.

(** ** Loader (lines 94-121) *)

Inductive status : Type := ok | file_not_found | read_error | missing_columns.

Inductive detail : Type :=
  | NoDetail
  | Message (msg : string)
  | Missing (fields : list string).

(** What [pd.read_csv] did: it returned a table, raised
    [FileNotFoundError], or raised another exception [e] whose [str(e)] is
    [msg]. *)
Inductive read_csv_result (number : Type) : Type :=
  | ReadTable (df : DataFrame number)
  | ReadFileNotFound
  | ReadException (msg : string).

Arguments ReadTable {number} df.
Arguments ReadFileNotFound {number}.
Arguments ReadException {number} msg.

(** The tuple [load_data] returns. *)
Definition loaded (number : Type) : Type :=
  (option (DataFrame number) * status * detail * option Dict.t)%type.

(** Line 109: [{actual: logical for logical, actual in matched.items()}];
    a later item replaces an earlier one with the same key. *)
Definition rename_to_logical (matched : Dict.t) : gmap string string :=
  fold_left (fun m '(logical, actual) => <[ actual := logical ]> m)
    (Dict.items matched) ∅.

Section Loader.

Context {number : Type}.
Variable parse_number : string -> option number.
Variable number_repr : number -> string.
Variable iter : gset string -> list string.

(** [df[col] = pd.to_numeric(df[col], errors="coerce")] *)
Definition coerce_numeric (col : string) (df : DataFrame number)
  : outcome (DataFrame number) :=
  sel ← getitem df col;
  values ← to_numeric parse_number sel;
  Return (setitem df col values).

(** [df[col] = df[col].astype(str).str.strip()] *)
Definition coerce_text (df : DataFrame number) (col : string)
  : outcome (DataFrame number) :=
  sel ← getitem df col;
  values ← str_strip (astype_str number_repr sel);
  Return (setitem df col values).

(** The [for col in [...]] loop of lines 115-116. *)
Fixpoint coerce_texts (cols : list string) (df : DataFrame number)
  : outcome (DataFrame number) :=
  match cols with
  | [] => Return df
  | col :: cols' =>
      df' ← coerce_text df col;
      coerce_texts cols' df'
  end.

(** Lines 103-121, after a successful read. *)
Definition bind_table (df : DataFrame number) : outcome (loaded number) :=
  let df := mkDataFrame (List.map _normalize_col_name (columns df)) (rows df) in
  let '(matched, missing) := _match_required_fields iter (columns df) in
  match missing with
  | _ :: _ => Return (Some df, missing_columns, Missing missing, Some matched)
  | [] =>
      let df := rename df (rename_to_logical matched) in
      df ← coerce_numeric "births" df;
      df ← dropna df "births";
      df ← coerce_texts ["state_of_residence"; "month"; "sex_of_infant"] df;
      df ← coerce_numeric "month_code" df;
      df ← coerce_numeric "year_code" df;
      Return (Some df, ok, NoDetail, Some matched)
  end.

(** [load_data], as a function of what [pd.read_csv] did. *)
Definition load_data (read : read_csv_result number) : outcome (loaded number) :=
  match read with
  | ReadFileNotFound => Return (None, file_not_found, NoDetail, None)
  | ReadException msg => Return (None, read_error, Message msg, None)
  | ReadTable df => bind_table df
  end.

End Loader.

(** ** Names that differ only in style (section 8 of the specification)

    [same_letter c d]: the two characters are the same letter, possibly in
    different case.  [style_variant a b]: [a] and [b] differ only in case, in
    the width of runs of spaces, or in which of space, hyphen and underscore
    stands at a position. *)





(** ** Vocabulary of the properties *)

(** The characters a canonical key keeps, before lower-casing. *)
Definition alnum_when_lowered (c : ascii) : bool := Char.isalnum (Char.lower c).

(** What the loop body decides for one field. *)
Definition resolve (iter : gset string -> list string) (columns : list string)
    (field : string) : option string :=
  if bool_decide (field ∈ columns) then Some field
  else
    match dedupe (collect_candidates iter (canonical_index columns) field) with
    | [c] => Some c
    | _ => None
    end.

(** [candidate columns field c]: the column [c] matches [field] by its
    canonical key, either against the field's own name or against one of
    its aliases. *)
Definition candidate (columns : list string) (field c : string) : Prop :=
  c ∈ columns
  /\ (_canonical_key c = _canonical_key field
      \/ _canonical_key c ∈ default ∅ (alias_map !! field)).

(** The canonical keys under which a column is a candidate for a field. *)
Definition match_keys (field : string) : gset string :=
  {[ _canonical_key field ]} ∪ default ∅ (alias_map !! field).

(** The number of columns that carry [label]. *)
Definition occurrences (label : string) (cols : list string) : nat :=
  length (List.filter (fun c => bool_decide (c = label)) cols).

Section Coerced.

Context {number : Type}.
Variable parse_number : string -> option number.
Variable number_repr : number -> string.
Variable iter : gset string -> list string.

(** A row after [df[col] = pd.to_numeric(df[col], errors="coerce")], for
    the column at position [i]. *)
Definition numeric_at (i : nat) (r : list (cell number)) : list (cell number) :=
  <[ i := to_numeric_cell parse_number (r !!! i) ]> r.

(** A row after [df[col] = df[col].astype(str).str.strip()]. *)
Definition text_at (i : nat) (r : list (cell number)) : list (cell number) :=
  <[ i := Txt (Str.strip (str_of_cell number_repr (r !!! i))) ]> r.

(** [births] fails numeric coercion: nothing, or text that is not a
    number. *)
Definition fails_coercion (c : cell number) : bool :=
  negb (notna (to_numeric_cell parse_number c)).

(** A row that is kept, after all of lines 112-119. *)
Definition coerced_row (ib ist imo ise imc iyc : nat) (r : list (cell number))
  : list (cell number) :=
  numeric_at iyc
    (numeric_at imc
       (text_at ise
          (text_at imo
             (text_at ist (numeric_at ib r))))).

(** The header of the table after lines 103 and 110. *)
Definition normalized_header (df : DataFrame number) : list string :=
  List.map _normalize_col_name (columns df).

Definition renamed_header (df : DataFrame number) : list string :=
  List.map
    (fun c =>
       default c
         (rename_to_logical (_match_required_fields iter (normalized_header df)).1
            !! c))
    (normalized_header df).

(** The rows of the table after lines 112-119, given the positions of the
    six bound columns. *)
Definition coerced_rows (ib ist imo ise imc iyc : nat)
    (rs : list (list (cell number))) : list (list (cell number)) :=
  List.map
    (fun r =>
       numeric_at iyc
         (numeric_at imc
            (text_at ise
               (text_at imo (text_at ist r)))))
    (List.filter (fun r => notna (r !!! ib))
       (List.map (numeric_at ib) rs)).

(** The column at position [i] of the file is the one bound to [field]. *)
Definition bound_at (df : DataFrame number) (field : string) (i : nat) : Prop :=
  exists h,
    columns df !! i = Some h
    /\ Dict.get (_match_required_fields iter (normalized_header df)).1 field
       = Some (_normalize_col_name h).

End Coerced.

(** The six positions carry six different labels. *)
Definition distinct_positions (ib ist imo ise imc iyc : nat) : Prop :=
  NoDup [ib; ist; imo; ise; imc; iyc].

(** ** Example data *)

(** The letter e with an acute accent, U+00E9. *)
Definition e_acute : ascii := ascii_of_N 233.


(** Numbers are natural numbers written in decimal. *)

Fixpoint digits_value (acc : N) (s : string) : option N :=
  match s with
  | EmptyString => Some acc
  | String c s' =>
      if Char.is_ascii_digit c
      then digits_value (acc * 10 + (Char.code c - 48)) s'
      else None
  end.

Definition parse_decimal (s : string) : option N :=
  match s with
  | EmptyString => None
  | _ => digits_value 0 s
  end.

Definition decimal_repr (n : N) : string := pretty n.

(** Scenario 3 of the specification. *)
Definition two_state_columns : DataFrame N :=
  mkDataFrame
    ["State"; "Residence State"; "Month"; "Month Code"; "Year Code";
     "Sex"; "Births"]
    [[Txt "Ohio"; Txt "Ohio"; Txt "January"; Num 1%N; Num 2025%N;
      Txt "Female"; Num 5000%N]].

(** A header in which two columns normalise to [births]. *)
Definition repeated_births_header {number} (rs : list (list (cell number)))
  : DataFrame number :=
  mkDataFrame
    ["State of Residence"; "Month"; "Month Code"; "Year Code";
     "Sex of Infant"; "Births"; "births"]
    rs.

(** A table that lacks a births column and has two candidates for the
    state. *)
Definition no_births_column : DataFrame N :=
  mkDataFrame
    ["State"; "Residence State"; "Month"; "Month Code"; "Year Code"; "Sex"]
    [[Txt "Ohio"; Txt "Ohio"; Txt "January"; Num 1%N; Num 2025%N; Txt "Female"]].

(** Scenario 2 of the specification, with one row per kind of value. *)
Definition aliased_table : DataFrame N :=
  mkDataFrame
    ["State"; "Month"; "Month Code"; "Year Code"; "Gender"; "Birth Count"]
    [ [Txt " Ohio "; Txt "January"; Num 1%N; Num 2025%N; Txt "Female"; Txt "5000"];
      [Txt "Ohio"; Txt "January"; Num 1%N; Num 2025%N; Txt "Male"; Txt "unknown"];
      [Txt "Utah"; NaN; Txt "N/A"; Num 2025%N; NaN; Num 42%N];
      [Txt "Utah"; Txt "March"; Num 3%N; Num 2025%N; Txt "Male"; NaN] ].

Definition aliased_table_loaded : DataFrame N :=
  mkDataFrame
    ["state_of_residence"; "month"; "month_code"; "year_code";
     "sex_of_infant"; "births"]
    [ [Txt "Ohio"; Txt "January"; Num 1%N; Num 2025%N; Txt "Female"; Num 5000%N];
      [Txt "Utah"; Txt "nan"; NaN; Num 2025%N; Txt "nan"; Num 42%N] ].

Definition aliased_table_matched : Dict.t :=
  [ ("state_of_residence", "state"); ("month", "month");
    ("month_code", "month_code"); ("year_code", "year_code");
    ("sex_of_infant", "gender"); ("births", "birth_count") ].

(** ** Filters of the page (lines 163-172 and 208-219)

    The page filters the table [load_data] returned with [ok] by the three
    selections of the sidebar.  [filter_isin] is
    [df[df[label].isin(selected)]] for a label that names one column; it is
    [None] otherwise, which the model does not follow further (it does not
    happen for a table returned with [ok]). *)

Section Page.

Context {number : Type}.

(** One value under [.isin(selected)], for a list of strings: a missing
    value or a number is never among them. *)
Definition isin_cell (selected : list string) (c : cell number) : bool :=
  match c with
  | Txt s => bool_decide (s ∈ selected)
  | _ => false
  end.

Definition filter_isin (df : DataFrame number) (label : string)
    (selected : list string) : option (DataFrame number) :=
  match positions label (columns df) with
  | [i] =>
      Some (mkDataFrame (columns df)
              (List.filter (fun r => isin_cell selected (r !!! i)) (rows df)))
  | _ => None
  end.

(** [if "All" not in selected: filtered_df = filtered_df[...]] *)
Definition filter_unless_all (label : string) (selected : list string)
    (df : DataFrame number) : option (DataFrame number) :=
  if bool_decide ("All" ∈ selected) then Some df
  else filter_isin df label selected.

(** Lines 163-172. *)
Definition apply_filters (df : DataFrame number)
    (selected_months selected_genders selected_states : list string)
  : option (DataFrame number) :=
  filtered_df ← filter_unless_all "month" selected_months df;
  filtered_df ← filter_unless_all "sex_of_infant" selected_genders filtered_df;
  filtered_df ← filter_unless_all "state_of_residence" selected_states filtered_df;
  Some filtered_df.

(** Lines 208-219: the logical fields that are columns of the table. *)
Definition display_cols (filtered_df : DataFrame number) : list string :=
  List.filter (fun c => bool_decide (c ∈ columns filtered_df))
    [ "state_of_residence"; "month"; "month_code"; "year_code";
      "sex_of_infant"; "births" ].

(** A row passes the filter of one selection. *)
Definition selected_by (selected : list string) (c : cell number) : bool :=
  bool_decide ("All" ∈ selected) || isin_cell selected c.

End Page.

(** ** Vocabulary of the further properties *)

(** The last character of the string [String c s]. *)
Fixpoint last_char (c : ascii) (s : string) : ascii :=
  match s with
  | EmptyString => c
  | String d s' => last_char d s'
  end.

(** The string neither starts nor ends with a character [str.strip]
    removes. *)
Definition edge_free (s : string) : bool :=
  match s with
  | EmptyString => true
  | String c s' => negb (Char.isspace c) && negb (Char.isspace (last_char c s'))
  end.

(** The character is not changed by [str.lower]. *)
Definition lower_fixed (c : ascii) : bool := bool_decide (Char.lower c = c).

(** The loop body binds the field. *)
Definition is_bound (iter : gset string -> list string)
    (columns : list string) (f : string) : bool :=
  match resolve iter columns f with Some _ => true | None => false end.

(** What an exception of the coercions tells about the renamed header. *)
Definition raised_by {number} (iter : gset string -> list string)
    (df : DataFrame number) (f : string) (e : exn) : Prop :=
  (positions f (renamed_header iter df) = [] /\ e = KeyError)
  \/ (2 <= length (positions f (renamed_header iter df))
      /\ (e = TypeError \/ e = AttributeError)).

(** Every run of underscores reduced to one underscore, in one pass. *)
Fixpoint squeeze_underscores (s : string) : string :=
  match s with
  | EmptyString => EmptyString
  | String c s' =>
      match s' with
      | EmptyString => s
      | String d _ =>
          if Char.is_underscore c && Char.is_underscore d
          then squeeze_underscores s'
          else String c (squeeze_underscores s')
      end
  end.



(** ** Case beyond single characters

    [upper_codes s] is [s.upper()] as a list of code points: on the range of
    the model, the upper-case form of U+00B5 and of U+00FF lies outside the
    range, and that of U+00DF (sharp s) has two characters. *)





(** ** The loader under either behaviour of [astype(str)]

    The source does not fix the version of pandas.  Before pandas 3.0,
    [astype(str)] turns a missing value into the text [nan]; from 3.0 on it
    leaves the value missing.  [load_data_with legacy] is [load_data] with
    this choice made explicit: [legacy = true] is the behaviour before 3.0,
    which is the one [load_data] has. *)

Section Versions.

Context {number : Type}.
Variable legacy : bool.
Variable parse_number : string -> option number.
Variable number_repr : number -> string.
Variable iter : gset string -> list string.

(** One value under [astype(str)]. *)
Definition astype_str_cell (c : cell number) : cell number :=
  match c with
  | NaN => if legacy then Txt "nan" else NaN
  | Txt s => Txt s
  | Num n => Txt (number_repr n)
  end.

Definition astype_str_with (sel : selection number) : selection number :=
  match sel with
  | SelSeries values => SelSeries (List.map astype_str_cell values)
  | SelFrame ps => SelFrame ps
  end.

(** [df[col] = df[col].astype(str).str.strip()] *)
Definition coerce_text_with (df : DataFrame number) (col : string)
  : outcome (DataFrame number) :=
  sel ← getitem df col;
  values ← str_strip (astype_str_with sel);
  Return (setitem df col values).

Fixpoint coerce_texts_with (cols : list string) (df : DataFrame number)
  : outcome (DataFrame number) :=
  match cols with
  | [] => Return df
  | col :: cols' =>
      df' ← coerce_text_with df col;
      coerce_texts_with cols' df'
  end.

(** Lines 103-121, after a successful read. *)
Definition bind_table_with (df : DataFrame number) : outcome (loaded number) :=
  let df := mkDataFrame (List.map _normalize_col_name (columns df)) (rows df) in
  let '(matched, missing) := _match_required_fields iter (columns df) in
  match missing with
  | _ :: _ => Return (Some df, missing_columns, Missing missing, Some matched)
  | [] =>
      let df := rename df (rename_to_logical matched) in
      df ← coerce_numeric parse_number "births" df;
      df ← dropna df "births";
      df ← coerce_texts_with ["state_of_residence"; "month"; "sex_of_infant"] df;
      df ← coerce_numeric parse_number "month_code" df;
      df ← coerce_numeric parse_number "year_code" df;
      Return (Some df, ok, NoDetail, Some matched)
  end.

Definition load_data_with (read : read_csv_result number)
  : outcome (loaded number) :=
  match read with
  | ReadFileNotFound => Return (None, file_not_found, NoDetail, None)
  | ReadException msg => Return (None, read_error, Message msg, None)
  | ReadTable df => bind_table_with df
  end.

(** What lines 115-116 leave in a cell of a text column. *)
Definition text_cell (c : cell number) : cell number :=
  match c with
  | NaN => if legacy then Txt "nan" else NaN
  | Txt s => Txt (Str.strip s)
  | Num n => Txt (Str.strip (number_repr n))
  end.

Definition text_at_with (i : nat) (r : list (cell number))
  : list (cell number) :=
  <[ i := text_cell (r !!! i) ]> r.

(** A row that is kept, after all of lines 112-119. *)
Definition coerced_row_with (ib ist imo ise imc iyc : nat)
    (r : list (cell number)) : list (cell number) :=
  numeric_at parse_number iyc
    (numeric_at parse_number imc
       (text_at_with ise
          (text_at_with imo (text_at_with ist (numeric_at parse_number ib r))))).

End Versions.

(** The table of scenario 2 as pandas 3 returns it. *)
Definition aliased_table_loaded_pandas3 : DataFrame N :=
  mkDataFrame
    ["state_of_residence"; "month"; "month_code"; "year_code";
     "sex_of_infant"; "births"]
    [ [Txt "Ohio"; Txt "January"; Num 1%N; Num 2025%N; Txt "Female"; Num 5000%N];
      [Txt "Utah"; NaN; NaN; Num 2025%N; NaN; Num 42%N] ].

(** ** The page after the filters (lines 174-181 and 208-219)

    [filtered_df.empty] holds when the table has no row or no column; the
    page then shows a warning and stops.  Otherwise it goes on to the chart
    (lines 183-206, which leave [filtered_df] as it is and are not
    modelled) and to the display columns. *)

Section PageEnd.

Context {number : Type}.

Definition is_empty (df : DataFrame number) : bool :=
  match rows df, columns df with
  | [], _ => true
  | _, [] => true
  | _, _ => false
  end.

Inductive page : Type :=
  | NoDataPage (filtered_df : DataFrame number)
  | TablePage (filtered_df : DataFrame number) (columns_shown : list string).

Definition page_after_filters (df : DataFrame number)
    (selected_months selected_genders selected_states : list string)
  : option page :=
  filtered_df ←
    apply_filters df selected_months selected_genders selected_states;
  Some (if is_empty filtered_df then NoDataPage filtered_df
        else TablePage filtered_df (display_cols filtered_df)).

End PageEnd.

(** * Properties *)

Ltac by_compute := apply (bool_decide_unpack _); vm_compute; exact I.

(** ** Characters: facts checked on all 256 code points *)

Ltac all_chars c :=
  destruct c as [[] [] [] [] [] [] [] []]; vm_compute; try reflexivity;
  try discriminate; auto.

Lemma isspace_not_alnum_lower c :
  Char.isspace c = true -> Char.isalnum (Char.lower c) = false.
Proof. all_chars c. Qed.


Lemma lower_ascii_alnum c :
  Char.is_ascii c = true -> Char.isalnum (Char.lower c) = true ->
  (Char.is_ascii_digit (Char.lower c) || Char.is_ascii_lower (Char.lower c)) = true.
Proof. all_chars c. Qed.



(** ** Strings *)

Lemma filter_map_fixed (p : ascii -> bool) (f : ascii -> ascii) s :
  (forall c, p (f c) = p c /\ (p c = true -> f c = c)) ->
  Str.filter p (Str.map f s) = Str.filter p s.
Proof.
  intros H. induction s as [| c s IH]; simpl; [reflexivity |].
  destruct (H c) as [-> Hfix]. destruct (p c) eqn:Hp; [| exact IH].
  rewrite (Hfix eq_refl), IH. reflexivity.
Qed.

Lemma filter_replace_space s :
  Str.filter Char.isalnum (Str.replace_space s) = Str.filter Char.isalnum s.
Proof.
  apply filter_map_fixed. intros c. unfold Char.is_space.
  case_bool_decide as Hc; [subst c; split; [reflexivity | discriminate] | auto].
Qed.

Lemma underscore_pair c d :
  Char.is_underscore c && Char.is_underscore d = true ->
  c = Char.underscore /\ d = Char.underscore.
Proof.
  unfold Char.is_underscore. intros H. apply andb_prop in H as [Hc Hd].
  apply bool_decide_eq_true in Hc, Hd. auto.
Qed.

(** A pass of [replace("__", "_")] only deletes underscores. *)
Lemma filter_replace_dunder_upto n : forall s,
  String.length s <= n ->
  Str.filter Char.isalnum (Str.replace_dunder s) = Str.filter Char.isalnum s.
Proof.
  induction n as [| n IH]; intros s Hn.
  - destruct s; [reflexivity | simpl in Hn; lia].
  - destruct s as [| c [| d s]]; try reflexivity.
    change (Str.replace_dunder (String c (String d s))) with
      (if Char.is_underscore c && Char.is_underscore d
       then String Char.underscore (Str.replace_dunder s)
       else String c (Str.replace_dunder (String d s))).
    simpl in Hn.
    destruct (Char.is_underscore c && Char.is_underscore d) eqn:Hu.
    + apply underscore_pair in Hu as [-> ->].
      change (Str.filter Char.isalnum (Str.replace_dunder s) =
              Str.filter Char.isalnum s).
      apply IH. lia.
    + change (Str.filter Char.isalnum (String c (Str.replace_dunder (String d s))))
        with (if Char.isalnum c
              then String c (Str.filter Char.isalnum (Str.replace_dunder (String d s)))
              else Str.filter Char.isalnum (Str.replace_dunder (String d s))).
      change (Str.filter Char.isalnum (String c (String d s)))
        with (if Char.isalnum c
              then String c (Str.filter Char.isalnum (String d s))
              else Str.filter Char.isalnum (String d s)).
      rewrite (IH (String d s)) by (simpl; lia). reflexivity.
Qed.

Lemma filter_replace_dunder s :
  Str.filter Char.isalnum (Str.replace_dunder s) = Str.filter Char.isalnum s.
Proof. apply (filter_replace_dunder_upto (String.length s)). lia. Qed.

Lemma filter_collapse_loop fuel : forall s,
  Str.filter Char.isalnum (collapse_loop fuel s) = Str.filter Char.isalnum s.
Proof.
  induction fuel as [| k IH]; intros s; simpl; [reflexivity |].
  destruct (Str.contains_dunder s); [| reflexivity].
  rewrite IH. apply filter_replace_dunder.
Qed.

Lemma filter_lower s :
  Str.filter Char.isalnum (Str.lower s)
  = Str.lower (Str.filter alnum_when_lowered s).
Proof.
  unfold Str.lower. induction s as [| c s IH]; simpl; [reflexivity |].
  unfold alnum_when_lowered at 1.
  destruct (Char.isalnum (Char.lower c)); simpl; rewrite IH; reflexivity.
Qed.

Lemma filter_lstrip s :
  Str.filter alnum_when_lowered (Str.lstrip s) = Str.filter alnum_when_lowered s.
Proof.
  induction s as [| c s IH]; simpl; [reflexivity |].
  destruct (Char.isspace c) eqn:Hc; [| reflexivity].
  unfold alnum_when_lowered at 2.
  rewrite (isspace_not_alnum_lower _ Hc). exact IH.
Qed.

Lemma filter_rstrip s :
  Str.filter alnum_when_lowered (Str.rstrip s) = Str.filter alnum_when_lowered s.
Proof.
  induction s as [| c s IH]; simpl; [reflexivity |].
  destruct (Str.rstrip s) as [| d r] eqn:Hr.
  - simpl in IH. rewrite <- IH.
    destruct (Char.isspace c) eqn:Hc; [| reflexivity].
    unfold alnum_when_lowered. rewrite (isspace_not_alnum_lower _ Hc).
    reflexivity.
  - change (Str.filter alnum_when_lowered (String c (String d r)))
      with (if alnum_when_lowered c
            then String c (Str.filter alnum_when_lowered (String d r))
            else Str.filter alnum_when_lowered (String d r)).
    rewrite IH. reflexivity.
Qed.

(** The canonical key keeps, in order and lower-cased, exactly the
    characters of the raw name that are alphanumeric. *)
Lemma canonical_key_filter raw :
  _canonical_key raw = Str.filter Char.isalnum (Str.lower raw).
Proof.
  unfold _canonical_key, _normalize_col_name.
  rewrite filter_collapse_loop, filter_replace_space, !filter_lower.
  unfold Str.strip. rewrite filter_rstrip, filter_lstrip. reflexivity.
Qed.

Lemma all_filter p s : Str.all p (Str.filter p s) = true.
Proof.
  induction s as [| c s IH]; simpl; [reflexivity |].
  destruct (p c) eqn:Hp; simpl; [rewrite Hp |]; exact IH.
Qed.

(** *** The [while] loop of the normaliser exits by its condition *)

Lemma replace_dunder_shorter_upto n : forall s,
  String.length s <= n ->
  String.length (Str.replace_dunder s) <= String.length s
  /\ (Str.contains_dunder s = true ->
      String.length (Str.replace_dunder s) < String.length s).
Proof.
  induction n as [| n IH]; intros s Hn.
  - destruct s; simpl in *; [split; [lia | discriminate] | lia].
  - destruct s as [| c [| d s]]; try (simpl; split; [lia | discriminate]).
    change (Str.replace_dunder (String c (String d s))) with
      (if Char.is_underscore c && Char.is_underscore d
       then String Char.underscore (Str.replace_dunder s)
       else String c (Str.replace_dunder (String d s))).
    change (Str.contains_dunder (String c (String d s))) with
      ((Char.is_underscore c && Char.is_underscore d)
       || Str.contains_dunder (String d s)).
    simpl in Hn.
    destruct (Char.is_underscore c && Char.is_underscore d).
    + destruct (IH s) as [Hle _]; [lia |].
      cbn [String.length]. split; [lia | intros _; lia].
    + destruct (IH (String d s)) as [Hle Hlt]; [simpl; lia |].
      cbn [String.length orb] in *. split; [lia |].
      intros Hc. specialize (Hlt Hc). lia.
Qed.

Lemma collapse_loop_exits fuel : forall s,
  String.length s <= fuel ->
  Str.contains_dunder (collapse_loop fuel s) = false.
Proof.
  induction fuel as [| k IH]; intros s Hs.
  - destruct s; [reflexivity | simpl in Hs; lia].
  - simpl. destruct (Str.contains_dunder s) eqn:Hc; [| exact Hc].
    apply IH.
    destruct (replace_dunder_shorter_upto (String.length s) s) as [_ Hlt];
      [lia |].
    specialize (Hlt Hc). lia.
Qed.

(** The fuel given to the loop is enough: the normalised name has no run of
    two underscores left. *)
Lemma normalize_loop_exits name :
  Str.contains_dunder (_normalize_col_name name) = false.
Proof. unfold _normalize_col_name. apply collapse_loop_exits. lia. Qed.

(** ** Name normaliser: claims C8 and C9 *)




(** C9, as stated, fails: the accented letter is not an ASCII letter or
    digit, and the canonical key keeps it. *)
Lemma canonical_key_keeps_non_ascii :
  _canonical_key (String e_acute "") = String e_acute ""
  /\ Str.all Char.is_ascii_alnum (_canonical_key (String e_acute "")) = false.
Proof. split; vm_compute; reflexivity. Qed.

(** C9, amended.  The canonical key is the normalised name without the
    characters [str.isalnum] rejects (the underscores that normalisation
    introduces among them), so it consists of alphanumeric characters only;
    when the raw name is ASCII, these are ASCII lower-case letters and
    digits. *)
Theorem canonical_key_alnum (raw : string) :
  _canonical_key raw = Str.filter Char.isalnum (_normalize_col_name raw)
  /\ Str.all Char.isalnum (_canonical_key raw) = true
  /\ Str.all (fun c => negb (Char.is_underscore c)) (_canonical_key raw) = true
  /\ (Str.all Char.is_ascii raw = true ->
      Str.all (fun c => Char.is_ascii_digit c || Char.is_ascii_lower c)
        (_canonical_key raw) = true).
Proof.
  split; [reflexivity |]. split; [apply all_filter |]. split.
  - unfold _canonical_key. cbv zeta.
    induction (_normalize_col_name raw) as [| c s IH]; [reflexivity |].
    simpl. destruct (Char.isalnum c) eqn:Hc; [| exact IH].
    simpl. rewrite IH, andb_true_r. unfold Char.is_underscore.
    case_bool_decide as Hu; [subst c; discriminate | reflexivity].
  - rewrite canonical_key_filter. unfold Str.lower.
    induction raw as [| c s IH]; [reflexivity |].
    cbn [Str.all Str.map Str.filter]. intros Hall.
    apply andb_prop in Hall as [Hc Hs]. specialize (IH Hs).
    destruct (Char.isalnum (Char.lower c)) eqn:Hal; [| exact IH].
    cbn [Str.all]. rewrite (lower_ascii_alnum c Hc Hal). exact IH.
Qed.

Lemma canonical_key_alnum_witness :
  Str.all Char.is_ascii "Birth-Count (2025)" = true
  /\ Str.all (fun c => Char.is_ascii_digit c || Char.is_ascii_lower c)
       (_canonical_key "Birth-Count (2025)") = true.
Proof.
  split; [reflexivity |].
  apply (canonical_key_alnum "Birth-Count (2025)"). reflexivity.
Defined.

(** ** Dictionaries *)

Lemma dict_get_set k v d k' :
  Dict.get (Dict.set k v d) k' = if decide (k = k') then Some v else Dict.get d k'.
Proof.
  induction d as [| [k0 v0] d IH]; simpl.
  - reflexivity.
  - destruct (decide (k0 = k)) as [-> | Hne]; simpl.
    + destruct (decide (k = k')); reflexivity.
    + rewrite IH. destruct (decide (k0 = k')) as [<- | ?]; [| reflexivity].
      destruct (decide (k = k0)); [congruence | reflexivity].
Qed.

Lemma dict_keys_set k v d :
  NoDup (Dict.keys d) -> NoDup (Dict.keys (Dict.set k v d))
  /\ (forall k', k' ∈ Dict.keys (Dict.set k v d) <-> k' = k \/ k' ∈ Dict.keys d).
Proof.
  unfold Dict.keys. induction d as [| [k0 v0] d IH]; simpl; intros Hnd.
  - split; [apply NoDup_singleton |].
    intros k'. rewrite list_elem_of_singleton, elem_of_nil. tauto.
  - apply NoDup_cons in Hnd as [Hk0 Hnd]. destruct (IH Hnd) as [IH1 IH2].
    destruct (decide (k0 = k)) as [-> | Hne]; simpl.
    + split; [apply NoDup_cons; auto |].
      intros k'. rewrite !elem_of_cons. tauto.
    + split.
      * apply NoDup_cons. split; [| exact IH1].
        rewrite IH2. intros [? | ?]; [congruence | auto].
      * intros k'. rewrite !elem_of_cons, IH2. tauto.
Qed.

Lemma dict_get_item d k v :
  NoDup (Dict.keys d) -> (k, v) ∈ Dict.items d -> Dict.get d k = Some v.
Proof.
  unfold Dict.keys, Dict.items. induction d as [| [k0 v0] d IH]; simpl.
  - intros _ H. inversion H.
  - intros Hnd Hin. apply NoDup_cons in Hnd as [Hk0 Hnd].
    apply elem_of_cons in Hin as [Heq | Hin].
    + inversion Heq; subst. destruct (decide (k0 = k0)); congruence.
    + destruct (decide (k0 = k)) as [-> | _]; [| auto].
      exfalso. apply Hk0. apply list_elem_of_fmap. exists (k, v). auto.
Qed.

Lemma dict_item_get d k v : Dict.get d k = Some v -> (k, v) ∈ Dict.items d.
Proof.
  unfold Dict.items. induction d as [| [k0 v0] d IH]; simpl; [discriminate |].
  destruct (decide (k0 = k)) as [-> | _].
  - intros [= ->]. apply elem_of_cons. auto.
  - intros H. apply elem_of_cons. auto.
Qed.

(** ** Alias resolver *)

Lemma match_field_get iter columns matched f g :
  Dict.get (match_field iter columns (canonical_index columns) matched f) g
  = if decide (f = g)
    then match resolve iter columns f with
         | Some c => Some c
         | None => Dict.get matched g
         end
    else Dict.get matched g.
Proof.
  unfold match_field, resolve.
  destruct (bool_decide (f ∈ columns)).
  - apply dict_get_set.
  - destruct (dedupe _) as [| c [| c' l]];
      rewrite ?dict_get_set; destruct (decide (f = g)); reflexivity.
Qed.

Lemma match_fields_get iter columns : forall fields matched g,
  NoDup fields ->
  Dict.get
    (fold_left (match_field iter columns (canonical_index columns)) fields matched) g
  = if decide (g ∈ fields)
    then match resolve iter columns g with
         | Some c => Some c
         | None => Dict.get matched g
         end
    else Dict.get matched g.
Proof.
  induction fields as [| f fields IH]; intros matched g Hnd; simpl.
  - destruct (decide (g ∈ [])) as [H | _]; [inversion H | reflexivity].
  - apply NoDup_cons in Hnd as [Hf Hnd]. rewrite (IH _ _ Hnd).
    rewrite match_field_get.
    destruct (decide (f = g)) as [-> | Hne].
    + destruct (decide (g ∈ fields)) as [? | _]; [contradiction |].
      destruct (decide (g ∈ g :: fields)) as [_ | H]; [reflexivity |].
      exfalso. apply H. apply elem_of_cons. auto.
    + destruct (decide (g ∈ fields)) as [Hin | Hnin];
        destruct (decide (g ∈ f :: fields)) as [Hin' | Hnin']; try reflexivity.
      * exfalso. apply Hnin'. apply elem_of_cons. auto.
      * exfalso. apply elem_of_cons in Hin' as [-> | ?]; auto.
Qed.

Lemma logical_fields_NoDup : NoDup logical_fields.
Proof. apply (bool_decide_unpack _). vm_compute. exact I. Qed.

(** The binding of a field is what [resolve] says, and nothing else is
    bound. *)
Lemma matched_get iter columns g :
  Dict.get (_match_required_fields iter columns).1 g
  = if decide (g ∈ logical_fields) then resolve iter columns g else None.
Proof.
  unfold _match_required_fields. cbn [fst].
  rewrite (match_fields_get _ _ _ _ _ logical_fields_NoDup).
  destruct (decide (g ∈ logical_fields)); [| reflexivity].
  destruct (resolve iter columns g); reflexivity.
Qed.

Lemma missing_spec iter columns f :
  f ∈ (_match_required_fields iter columns).2
  <-> f ∈ logical_fields
      /\ Dict.get (_match_required_fields iter columns).1 f = None.
Proof.
  unfold _match_required_fields at 1. cbn [snd].
  rewrite list_elem_of_In, filter_In, <- list_elem_of_In.
  unfold Dict.mem, _match_required_fields. cbn [fst].
  destruct (Dict.get _ f); simpl; intuition congruence.
Qed.

(** *** The index of canonical keys *)

Lemma canonical_index_fold c k : forall cols m,
  c ∈ default [] (fold_left index_col cols m !! k)
  <-> c ∈ default [] (m !! k) \/ (c ∈ cols /\ _canonical_key c = k).
Proof.
  induction cols as [| col cols IH]; intros m; simpl.
  - rewrite elem_of_nil. tauto.
  - rewrite IH. unfold index_col at 1. rewrite lookup_insert.
    rewrite elem_of_cons.
    destruct (decide (_canonical_key col = k)) as [Heq | Hne]; simpl.
    + rewrite Heq, elem_of_app, list_elem_of_singleton.
      intuition (subst; auto).
    + intuition (subst; auto). contradiction.
Qed.

Lemma canonical_index_lookup c k columns :
  c ∈ default [] (canonical_index columns !! k)
  <-> c ∈ columns /\ _canonical_key c = k.
Proof.
  unfold canonical_index. rewrite canonical_index_fold, lookup_empty. simpl.
  rewrite elem_of_nil. tauto.
Qed.

Lemma extend_fold {A} (g : A -> list string) c : forall l init,
  c ∈ fold_left (fun candidates a => candidates ++ g a) l init
  <-> c ∈ init \/ exists a, a ∈ l /\ c ∈ g a.
Proof.
  induction l as [| a l IH]; intros init; simpl.
  - split; [auto | intros [? | (a & Ha & _)]; [auto | inversion Ha]].
  - rewrite IH, elem_of_app. split.
    + intros [[? | ?] | (a' & Ha' & Hc)]; [auto | right; exists a | right; exists a'];
        rewrite elem_of_cons; auto.
    + intros [? | (a' & Ha' & Hc)]; [auto |].
      apply elem_of_cons in Ha' as [-> | Ha']; [auto | right; exists a'; auto].
Qed.

(** A column is collected for a field exactly when its canonical key is the
    field's own or one the iteration over the field's aliases yields. *)
Lemma collect_candidates_spec iter columns f c :
  c ∈ collect_candidates iter (canonical_index columns) f
  <-> c ∈ columns
      /\ (_canonical_key c = _canonical_key f
          \/ _canonical_key c ∈ iter (default ∅ (alias_map !! f))).
Proof.
  unfold collect_candidates. cbv zeta. rewrite extend_fold.
  rewrite canonical_index_lookup. split.
  - intros [[? ?] | (a & Ha & Hc)]; [auto |].
    apply canonical_index_lookup in Hc as [? <-]. auto.
  - intros [Hc [? | Ha]]; [auto |]. right. eexists. split; [exact Ha |].
    apply canonical_index_lookup. auto.
Qed.

(** *** Removal of repeated candidates *)

Lemma dedupe_fold : forall l deduped (seen : gset string),
  NoDup deduped -> (forall x, x ∈ seen <-> x ∈ deduped) ->
  NoDup (fold_left dedupe_step l (deduped, seen)).1
  /\ forall x, x ∈ (fold_left dedupe_step l (deduped, seen)).1
               <-> x ∈ deduped \/ x ∈ l.
Proof.
  induction l as [| c l IH]; intros deduped seen Hnd Hseen; simpl.
  - split; [exact Hnd | intros x; rewrite elem_of_nil; tauto].
  - destruct (decide (c ∈ seen)) as [Hc | Hc].
    + destruct (IH deduped seen Hnd Hseen) as [H1 H2]. split; [exact H1 |].
      intros x. rewrite H2, elem_of_cons. apply Hseen in Hc.
      split; [tauto | intros [? | [-> | ?]]; auto].
    + destruct (IH (deduped ++ [c]) (seen ∪ {[ c ]})) as [H1 H2].
      * apply NoDup_app. split; [exact Hnd |]. split; [| apply NoDup_singleton].
        intros x Hx ->%list_elem_of_singleton. apply Hc, Hseen, Hx.
      * intros x. rewrite elem_of_union, elem_of_singleton, elem_of_app,
          list_elem_of_singleton, Hseen. tauto.
      * split; [exact H1 |]. intros x.
        rewrite H2, elem_of_app, list_elem_of_singleton, elem_of_cons. tauto.
Qed.

Lemma dedupe_NoDup l : NoDup (dedupe l).
Proof.
  apply (dedupe_fold l [] ∅); [apply NoDup_nil_2 | intros x; set_solver].
Qed.

Lemma dedupe_elem l x : x ∈ dedupe l <-> x ∈ l.
Proof.
  unfold dedupe.
  destruct (dedupe_fold l [] ∅) as [_ H];
    [apply NoDup_nil_2 | intros y; set_solver |].
  rewrite H, elem_of_nil. tauto.
Qed.

(** *** Iteration orders *)

Lemma iteration_order_elem iter (S : gset string) a :
  iteration_order iter -> a ∈ iter S <-> a ∈ S.
Proof. intros H. rewrite (H S). apply elem_of_elements. Qed.

Lemma iteration_order_elements : iteration_order elements.
Proof. intros S. reflexivity. Qed.

Lemma iteration_order_reverse :
  iteration_order (fun S => reverse (elements S)).
Proof. intros S. apply reverse_Permutation. Qed.

Lemma one_candidate_perm (l1 l2 : list string) :
  l1 ≡ₚ l2 ->
  match l1 with [c] => Some c | _ => None end
  = match l2 with [c] => Some c | _ => None end.
Proof.
  intros Hp. pose proof (Permutation_length Hp) as Hlen.
  destruct l1 as [| c1 [| c1' l1]], l2 as [| c2 [| c2' l2]];
    simpl in Hlen; try discriminate; try reflexivity.
  apply Permutation_singleton_inj in Hp. congruence.
Qed.

Lemma resolve_order_independent iter1 iter2 columns f :
  iteration_order iter1 -> iteration_order iter2 ->
  resolve iter1 columns f = resolve iter2 columns f.
Proof.
  intros H1 H2. unfold resolve.
  destruct (bool_decide (f ∈ columns)); [reflexivity |].
  set (l1 := dedupe _). set (l2 := dedupe _).
  assert (Hp : l1 ≡ₚ l2).
  { apply NoDup_Permutation; [apply dedupe_NoDup | apply dedupe_NoDup |].
    intros c. unfold l1, l2.
    rewrite !dedupe_elem, !collect_candidates_spec,
      !iteration_order_elem by assumption.
    reflexivity. }
  pose proof (one_candidate_perm _ _ Hp) as Hone.
  destruct l1 as [| ? [| ? ?]], l2 as [| ? [| ? ?]]; congruence.
Qed.

Lemma match_field_resolve iter columns matched f :
  match_field iter columns (canonical_index columns) matched f
  = match resolve iter columns f with
    | Some c => Dict.set f c matched
    | None => matched
    end.
Proof.
  unfold match_field, resolve.
  destruct (bool_decide (f ∈ columns)); [reflexivity |].
  destruct (dedupe _) as [| ? [| ? ?]]; reflexivity.
Qed.

(** ** Alias resolver: claims C1, C3 and C7 *)

Lemma exact_name_get iter (columns : list string) (field : string) :
  field ∈ logical_fields -> field ∈ columns ->
  Dict.get (_match_required_fields iter columns).1 field = Some field.
Proof.
  intros Hf Hc. rewrite matched_get.
  destruct (decide (field ∈ logical_fields)); [| done].
  unfold resolve. rewrite bool_decide_eq_true_2; done.
Qed.

(** C3.  A field whose own name is among the (normalised) column names is
    bound to that column, whatever else the columns contain: canonical-key
    and alias matches are not looked at, and the field is not missing. *)
Theorem exact_name_bound iter (columns : list string) (field : string) :
  field ∈ logical_fields -> field ∈ columns ->
  Dict.get (_match_required_fields iter columns).1 field = Some field
  /\ field ∉ (_match_required_fields iter columns).2.
Proof.
  intros Hf Hc. pose proof (exact_name_get iter columns field Hf Hc) as Hget.
  split; [exact Hget |].
  rewrite missing_spec. intros [_ Hnone]. congruence.
Qed.

Lemma exact_name_bound_witness :
  "births" ∈ logical_fields
  /\ "births" ∈ ["births"; "birth_count"; "live_births"]
  /\ Dict.get
       (_match_required_fields elements ["births"; "birth_count"; "live_births"]).1
       "births" = Some "births"
  /\ "births" ∉
       (_match_required_fields elements ["births"; "birth_count"; "live_births"]).2.
Proof.
  assert (H1 : "births" ∈ logical_fields)
    by (apply (bool_decide_unpack _); vm_compute; exact I).
  assert (H2 : "births" ∈ ["births"; "birth_count"; "live_births"])
    by (apply (bool_decide_unpack _); vm_compute; exact I).
  split; [exact H1 |]. split; [exact H2 |].
  apply (exact_name_bound elements ["births"; "birth_count"; "live_births"]
           "births" H1 H2).
Defined.

(** C7.  The resolver's result does not depend on the order in which the
    alias sets are visited: any two admissible iteration orders give the
    same [(matched, missing)] for the same column list. *)
Theorem resolver_order_independent iter1 iter2 (columns : list string) :
  iteration_order iter1 -> iteration_order iter2 ->
  _match_required_fields iter1 columns = _match_required_fields iter2 columns.
Proof.
  intros H1 H2. unfold _match_required_fields.
  assert (Hfold : forall fields matched,
    fold_left (match_field iter1 columns (canonical_index columns)) fields matched
    = fold_left (match_field iter2 columns (canonical_index columns)) fields matched).
  { induction fields as [| f fields IH]; intros matched; simpl; [reflexivity |].
    rewrite !match_field_resolve,
      (resolve_order_independent iter1 iter2 columns f H1 H2).
    apply IH. }
  rewrite Hfold. reflexivity.
Qed.

Lemma resolver_order_independent_witness :
  iteration_order elements
  /\ iteration_order (fun S => reverse (elements S))
  /\ _match_required_fields elements ["state"; "gender"; "residence_state"]
     = _match_required_fields (fun S => reverse (elements S))
         ["state"; "gender"; "residence_state"].
Proof.
  split; [exact iteration_order_elements |].
  split; [exact iteration_order_reverse |].
  apply (resolver_order_independent elements (fun S => reverse (elements S))
           ["state"; "gender"; "residence_state"]
           iteration_order_elements iteration_order_reverse).
Defined.

(** ** Tables *)

Lemma positions_from_spec label : forall cols i j,
  j ∈ positions_from i label cols
  <-> exists k, j = i + k /\ cols !! k = Some label.
Proof.
  induction cols as [| c cols IH]; intros i j; simpl.
  - rewrite elem_of_nil. split; [tauto | intros (k & _ & Hk); discriminate].
  - assert (Hrest : j ∈ positions_from (S i) label cols
                    <-> exists k, j = i + S k /\ cols !! k = Some label).
    { rewrite IH. split; intros (k & -> & Hk); exists k; split; auto; lia. }
    destruct (decide (c = label)) as [-> | Hne].
    + rewrite elem_of_cons, Hrest. split.
      * intros [-> | (k & -> & Hk)]; [exists 0 | exists (S k)]; split; auto; lia.
      * intros ([| k] & -> & Hk); [left; lia | right; exists k; auto].
    + rewrite Hrest. split.
      * intros (k & -> & Hk). exists (S k). auto.
      * intros ([| k] & -> & Hk); [simpl in Hk; congruence | exists k; auto].
Qed.

Lemma positions_spec label cols j :
  j ∈ positions label cols <-> cols !! j = Some label.
Proof.
  unfold positions. rewrite positions_from_spec. split.
  - intros (k & -> & Hk). exact Hk.
  - intros Hk. exists j. auto.
Qed.

Lemma positions_from_length label : forall cols i,
  length (positions_from i label cols) = occurrences label cols.
Proof.
  unfold occurrences.
  induction cols as [| c cols IH]; intros i; simpl; [reflexivity |].
  destruct (decide (c = label)) as [Heq | Hne].
  - rewrite bool_decide_eq_true_2 by exact Heq. simpl. rewrite IH. reflexivity.
  - rewrite bool_decide_eq_false_2 by exact Hne. apply IH.
Qed.

Lemma positions_length label cols :
  length (positions label cols) = occurrences label cols.
Proof. apply positions_from_length. Qed.

Lemma occurrences_le_1 label (cols : list string) :
  NoDup cols -> occurrences label cols <= 1.
Proof.
  unfold occurrences. induction 1 as [| c cols Hc _ IH]; simpl; [lia |].
  case_bool_decide as Heq; simpl; [| exact IH]. subst c.
  assert (Hnone : List.filter (fun c => bool_decide (c = label)) cols = []).
  { clear IH. induction cols as [| c cols IH]; simpl; [reflexivity |].
    apply not_elem_of_cons in Hc as [Hne Hc].
    rewrite bool_decide_eq_false_2 by congruence. apply IH, Hc. }
  rewrite Hnone. simpl. lia.
Qed.

Lemma occurrences_pos label (cols : list string) :
  label ∈ cols -> 1 <= occurrences label cols.
Proof.
  unfold occurrences. induction 1 as [c cols | c c' cols _ IH]; simpl.
  - rewrite bool_decide_eq_true_2 by reflexivity. simpl. lia.
  - destruct (bool_decide (c' = c)); simpl; lia.
Qed.

Lemma occurrences_map_le (g : string -> string) c f (cols : list string) :
  g c = f -> occurrences c cols <= occurrences f (List.map g cols).
Proof.
  intros Hg. unfold occurrences.
  induction cols as [| x cols IH]; simpl; [lia |].
  case_bool_decide as Hx; simpl.
  - subst x. rewrite bool_decide_eq_true_2 by exact Hg. simpl. lia.
  - destruct (bool_decide (g x = f)); simpl; lia.
Qed.

Lemma positions_one label (cols : list string) :
  occurrences label cols = 1 -> exists i, positions label cols = [i].
Proof.
  rewrite <- positions_length.
  destruct (positions label cols) as [| i [| j ps]]; simpl;
    [discriminate | eauto | discriminate].
Qed.

Lemma zip_with_map_self {A B C} (f : A -> B -> C) (g : A -> B) (l : list A) :
  zip_with f l (List.map g l) = List.map (fun x => f x (g x)) l.
Proof. induction l as [| x l IH]; simpl; [reflexivity | rewrite IH; reflexivity]. Qed.

Section Cells.

Context {number : Type}.
Variable parse_number : string -> option number.
Variable number_repr : number -> string.

Lemma coerce_numeric_Return col (df df' : DataFrame number) :
  coerce_numeric parse_number col df = Return df' ->
  exists i, positions col (columns df) = [i]
    /\ df' = mkDataFrame (columns df) (List.map (numeric_at parse_number i) (rows df)).
Proof.
  unfold coerce_numeric, getitem, setitem.
  destruct (positions col (columns df)) as [| i [| j ps]];
    cbn; try discriminate.
  intros [= <-]. exists i. split; [reflexivity |].
  f_equal. rewrite map_map, zip_with_map_self. reflexivity.
Qed.

Lemma coerce_text_Return col (df df' : DataFrame number) :
  coerce_text number_repr df col = Return df' ->
  exists i, positions col (columns df) = [i]
    /\ df' = mkDataFrame (columns df) (List.map (text_at number_repr i) (rows df)).
Proof.
  unfold coerce_text, getitem, setitem.
  destruct (positions col (columns df)) as [| i [| j ps]];
    cbn; try discriminate.
  intros [= <-]. exists i. split; [reflexivity |].
  f_equal. rewrite !map_map, zip_with_map_self. reflexivity.
Qed.

Lemma dropna_Return col (df df' : DataFrame number) i :
  positions col (columns df) = [i] ->
  dropna df col = Return df' ->
  df' = mkDataFrame (columns df)
          (List.filter (fun r => notna (r !!! i)) (rows df)).
Proof.
  unfold dropna. intros ->. intros [= <-]. f_equal.
  apply filter_ext. intros r. simpl. apply andb_true_r.
Qed.

(** Coercion to a number cannot revive a missing value, so whether the
    coerced cell is present can be read off the original row. *)
Lemma notna_numeric_at i (r : list (cell number)) :
  notna (numeric_at parse_number i r !!! i) = notna (to_numeric_cell parse_number (r !!! i)).
Proof.
  unfold numeric_at. destruct (decide (i < length r)) as [Hlt | Hge].
  - rewrite list_lookup_total_insert_eq by exact Hlt. reflexivity.
  - rewrite list_insert_ge by lia.
    rewrite list_lookup_total_alt, lookup_ge_None_2 by lia. reflexivity.
Qed.

End Cells.

(** ** Loader *)

Section LoaderFacts.

Context {number : Type}.
Variable parse_number : string -> option number.
Variable number_repr : number -> string.
Variable iter : gset string -> list string.

Lemma bind_table_missing (df : DataFrame number) :
  (_match_required_fields iter (normalized_header df)).2 <> [] ->
  bind_table parse_number number_repr iter df
  = Return (Some (mkDataFrame (normalized_header df) (rows df)),
            missing_columns,
            Missing (_match_required_fields iter (normalized_header df)).2,
            Some (_match_required_fields iter (normalized_header df)).1).
Proof.
  unfold bind_table, normalized_header. cbn [columns rows].
  destruct (_match_required_fields iter _) as [matched missing]. cbn [fst snd].
  destruct missing; [congruence | reflexivity].
Qed.

Lemma bind_table_bound (df : DataFrame number) res :
  (_match_required_fields iter (normalized_header df)).2 = [] ->
  bind_table parse_number number_repr iter df = Return res ->
  exists ib ist imo ise imc iyc,
    positions "births" (renamed_header iter df) = [ib]
    /\ positions "state_of_residence" (renamed_header iter df) = [ist]
    /\ positions "month" (renamed_header iter df) = [imo]
    /\ positions "sex_of_infant" (renamed_header iter df) = [ise]
    /\ positions "month_code" (renamed_header iter df) = [imc]
    /\ positions "year_code" (renamed_header iter df) = [iyc]
    /\ res = (Some (mkDataFrame (renamed_header iter df)
                      (coerced_rows parse_number number_repr ib ist imo ise imc iyc
                         (rows df))),
              ok, NoDetail,
              Some (_match_required_fields iter (normalized_header df)).1).
Proof.
  unfold bind_table, renamed_header, normalized_header. cbn [columns rows].
  destruct (_match_required_fields iter _) as [matched missing]. cbn [fst snd].
  intros ->. unfold rename. cbn [columns rows].
  set (header := List.map _ (List.map _ _)).
  destruct (coerce_numeric parse_number "births" _) as [df1 |] eqn:E1;
    cbn; [| discriminate].
  apply coerce_numeric_Return in E1 as (ib & Hib & ->). cbn [columns rows] in *.
  destruct (dropna _ "births") as [df2 |] eqn:E2; cbn; [| discriminate].
  eapply dropna_Return in E2; [| exact Hib]. subst df2. cbn [columns rows] in *.
  destruct (coerce_text number_repr _ "state_of_residence") as [df3 |] eqn:E3;
    cbn; [| discriminate].
  apply coerce_text_Return in E3 as (ist & Hist & ->). cbn [columns rows] in *.
  destruct (coerce_text number_repr _ "month") as [df4 |] eqn:E4;
    cbn; [| discriminate].
  apply coerce_text_Return in E4 as (imo & Himo & ->). cbn [columns rows] in *.
  destruct (coerce_text number_repr _ "sex_of_infant") as [df5 |] eqn:E5;
    cbn; [| discriminate].
  apply coerce_text_Return in E5 as (ise & Hise & ->). cbn [columns rows] in *.
  destruct (coerce_numeric parse_number "month_code" _) as [df6 |] eqn:E6;
    cbn; [| discriminate].
  apply coerce_numeric_Return in E6 as (imc & Himc & ->). cbn [columns rows] in *.
  destruct (coerce_numeric parse_number "year_code" _) as [df7 |] eqn:E7;
    cbn; [| discriminate].
  apply coerce_numeric_Return in E7 as (iyc & Hiyc & ->). cbn [columns rows] in *.
  intros [= <-]. exists ib, ist, imo, ise, imc, iyc.
  repeat (split; [assumption |]).
  unfold coerced_rows. rewrite !map_map. reflexivity.
Qed.

End LoaderFacts.

(** ** Ambiguity: claim C1 *)

Lemma two_candidates_unbound iter (columns : list string) field c1 c2 :
  iteration_order iter ->
  field ∈ logical_fields -> field ∉ columns ->
  candidate columns field c1 -> candidate columns field c2 -> c1 <> c2 ->
  Dict.get (_match_required_fields iter columns).1 field = None.
Proof.
  intros Hiter Hf Hex [Hc1 Hk1] [Hc2 Hk2] Hne.
  rewrite matched_get. destruct (decide (field ∈ logical_fields)); [| done].
  unfold resolve. rewrite bool_decide_eq_false_2 by exact Hex.
  assert (Hin : forall c, candidate columns field c ->
            c ∈ dedupe (collect_candidates iter (canonical_index columns) field)).
  { intros c [Hc Hk]. rewrite dedupe_elem, collect_candidates_spec.
    rewrite iteration_order_elem by exact Hiter. auto. }
  pose proof (Hin c1 (conj Hc1 Hk1)) as H1.
  pose proof (Hin c2 (conj Hc2 Hk2)) as H2.
  destruct (dedupe _) as [| c [| c' l]]; [reflexivity | | reflexivity].
  apply list_elem_of_singleton in H1, H2. congruence.
Qed.

Section Ambiguity.

Context {number : Type}.
Variable parse_number : string -> option number.
Variable number_repr : number -> string.
Variable iter : gset string -> list string.
Hypothesis iter_ok : iteration_order iter.

(** C1.  When the field's own name is not a column and two different
    columns are candidates for it, the field stays unbound and is reported
    missing.  In particular a table whose header has both "State" and
    "Residence State", and no column that normalises to
    [state_of_residence], is returned with status [missing_columns] and
    with [state_of_residence] among the missing fields. *)
Theorem ambiguous_field_missing :
  (forall (columns : list string) field c1 c2,
      field ∈ logical_fields -> field ∉ columns ->
      candidate columns field c1 -> candidate columns field c2 -> c1 <> c2 ->
      Dict.get (_match_required_fields iter columns).1 field = None
      /\ field ∈ (_match_required_fields iter columns).2)
  /\ (forall df : DataFrame number,
        "State" ∈ columns df -> "Residence State" ∈ columns df ->
        "state_of_residence" ∉ normalized_header df ->
        exists missing matched,
          load_data parse_number number_repr iter (ReadTable df)
          = Return (Some (mkDataFrame (normalized_header df) (rows df)),
                    missing_columns, Missing missing, Some matched)
          /\ "state_of_residence" ∈ missing
          /\ Dict.get matched "state_of_residence" = None).
Proof.
  assert (Hgen : forall (columns : list string) field c1 c2,
      field ∈ logical_fields -> field ∉ columns ->
      candidate columns field c1 -> candidate columns field c2 -> c1 <> c2 ->
      Dict.get (_match_required_fields iter columns).1 field = None
      /\ field ∈ (_match_required_fields iter columns).2).
  { intros columns field c1 c2 Hf Hex H1 H2 Hne.
    assert (Hget := two_candidates_unbound iter columns field c1 c2
                      iter_ok Hf Hex H1 H2 Hne).
    split; [exact Hget |]. apply missing_spec. auto. }
  split; [exact Hgen |].
  intros df Hs Hr Hex.
  assert (Hf : "state_of_residence" ∈ logical_fields)
    by (apply (bool_decide_unpack _); vm_compute; exact I).
  assert (H1 : candidate (normalized_header df) "state_of_residence" "state").
  { split.
    - apply list_elem_of_fmap. exists "State". split; [reflexivity | exact Hs].
    - right. apply (bool_decide_unpack _). vm_compute. exact I. }
  assert (H2 : candidate (normalized_header df) "state_of_residence"
                 "residence_state").
  { split.
    - apply list_elem_of_fmap. exists "Residence State".
      split; [reflexivity | exact Hr].
    - right. apply (bool_decide_unpack _). vm_compute. exact I. }
  destruct (Hgen _ _ _ _ Hf Hex H1 H2) as [Hnone Hmiss]; [discriminate |].
  eexists _, _. split; [| split; [exact Hmiss | exact Hnone]].
  cbn [load_data]. apply bind_table_missing.
  intros Hnil. rewrite Hnil in Hmiss. inversion Hmiss.
Qed.

End Ambiguity.

Lemma ambiguous_field_missing_witness :
  iteration_order elements
  /\ ("state_of_residence" ∈ logical_fields
      /\ ("state_of_residence" ∉ ["state"; "residence_state"; "month"])
      /\ candidate ["state"; "residence_state"; "month"]
           "state_of_residence" "state"
      /\ candidate ["state"; "residence_state"; "month"]
           "state_of_residence" "residence_state"
      /\ "state" <> "residence_state"
      /\ Dict.get
           (_match_required_fields elements
              ["state"; "residence_state"; "month"]).1
           "state_of_residence" = None
      /\ "state_of_residence"
           ∈ (_match_required_fields elements
                ["state"; "residence_state"; "month"]).2)
  /\ ("State" ∈ columns two_state_columns
      /\ "Residence State" ∈ columns two_state_columns
      /\ ("state_of_residence" ∉ normalized_header two_state_columns)
      /\ exists missing matched,
           load_data parse_decimal decimal_repr elements
             (ReadTable two_state_columns)
           = Return (Some (mkDataFrame (normalized_header two_state_columns)
                             (rows two_state_columns)),
                     missing_columns, Missing missing, Some matched)
           /\ "state_of_residence" ∈ missing
           /\ Dict.get matched "state_of_residence" = None).
Proof.
  pose proof (ambiguous_field_missing parse_decimal decimal_repr elements
                iteration_order_elements) as [Hgen Hload].
  split; [exact iteration_order_elements |]. split.
  - assert (H1 : "state_of_residence" ∈ logical_fields) by by_compute.
    assert (H2 : "state_of_residence" ∉ ["state"; "residence_state"; "month"])
      by by_compute.
    assert (H3 : candidate ["state"; "residence_state"; "month"]
                   "state_of_residence" "state")
      by (split; [by_compute | right; by_compute]).
    assert (H4 : candidate ["state"; "residence_state"; "month"]
                   "state_of_residence" "residence_state")
      by (split; [by_compute | right; by_compute]).
    assert (H5 : "state" <> "residence_state") by discriminate.
    repeat (split; [assumption |]).
    exact (Hgen _ _ _ _ H1 H2 H3 H4 H5).
  - assert (H1 : "State" ∈ columns two_state_columns) by by_compute.
    assert (H2 : "Residence State" ∈ columns two_state_columns) by by_compute.
    assert (H3 : "state_of_residence" ∉ normalized_header two_state_columns)
      by by_compute.
    repeat (split; [assumption |]).
    exact (Hload two_state_columns H1 H2 H3).
Defined.

(** ** Read faults and repeated headers: claim C2 *)

Section ReadFaults.

Context {number : Type}.
Variable parse_number : string -> option number.
Variable number_repr : number -> string.
Variable iter : gset string -> list string.

(** The two [except] clauses: a fault of [pd.read_csv] becomes a status and
    no table. *)
Lemma read_faults_are_statuses :
  load_data parse_number number_repr iter ReadFileNotFound
  = Return (None, file_not_found, NoDetail, None)
  /\ forall msg,
       load_data parse_number number_repr iter (ReadException msg)
       = Return (None, read_error, Message msg, None).
Proof. split; reflexivity. Qed.

(** C2 does not hold of the code: a file that is read without fault, and
    in which every logical field is bound, makes [load_data] raise
    [TypeError] when two of its columns normalise to [births]:
    [df["births"]] is then a table, which [pd.to_numeric] rejects, and the
    call is outside the [try] block. *)
Theorem repeated_header_raises (rs : list (list (cell number))) :
  load_data parse_number number_repr iter
    (ReadTable (repeated_births_header rs))
  = Raise TypeError.
Proof. vm_compute. reflexivity. Qed.

End ReadFaults.

(** ** Missing columns: claim C5 *)

Section MissingColumns.

Context {number : Type}.
Variable parse_number : string -> option number.
Variable number_repr : number -> string.
Variable iter : gset string -> list string.

Lemma missing_nonempty_iff (columns : list string) :
  (_match_required_fields iter columns).2 <> []
  <-> exists f, f ∈ logical_fields
        /\ Dict.get (_match_required_fields iter columns).1 f = None.
Proof.
  split.
  - destruct (_match_required_fields iter columns).2 as [| f l] eqn:E;
      [congruence |].
    intros _. exists f. apply missing_spec. rewrite E. apply elem_of_cons. auto.
  - intros (f & Hf) Hnil. apply missing_spec in Hf. rewrite Hnil in Hf.
    inversion Hf.
Qed.

(** C5.  For a table that was read, [load_data] returns the status
    [missing_columns] exactly when one of the six logical fields is unbound
    after resolution; it then returns the table with its normalised header
    and, as detail, the unbound fields in the order of [logical_fields]. *)
Theorem missing_columns_iff (df : DataFrame number) :
  ((exists f, f ∈ logical_fields
      /\ Dict.get (_match_required_fields iter (normalized_header df)).1 f = None)
   <-> exists t d m,
         load_data parse_number number_repr iter (ReadTable df)
         = Return (t, missing_columns, d, m))
  /\ ((exists f, f ∈ logical_fields
         /\ Dict.get (_match_required_fields iter (normalized_header df)).1 f
            = None) ->
      load_data parse_number number_repr iter (ReadTable df)
      = Return (Some (mkDataFrame (normalized_header df) (rows df)),
                missing_columns,
                Missing
                  (List.filter
                     (fun f =>
                        negb (Dict.mem
                                (_match_required_fields iter
                                   (normalized_header df)).1 f))
                     logical_fields),
                Some (_match_required_fields iter (normalized_header df)).1)).
Proof.
  rewrite <- missing_nonempty_iff. cbn [load_data].
  assert (Hfwd : (_match_required_fields iter (normalized_header df)).2 <> [] ->
    bind_table parse_number number_repr iter df
    = Return (Some (mkDataFrame (normalized_header df) (rows df)),
              missing_columns,
              Missing
                (List.filter
                   (fun f =>
                      negb (Dict.mem
                              (_match_required_fields iter
                                 (normalized_header df)).1 f))
                   logical_fields),
              Some (_match_required_fields iter (normalized_header df)).1)).
  { intros Hne. rewrite (bind_table_missing _ _ _ _ Hne). reflexivity. }
  split; [| exact Hfwd]. split.
  - intros Hne. eexists _, _, _. apply (Hfwd Hne).
  - intros (t & d & m & Hret) Hnil.
    destruct (bind_table_bound _ _ _ _ _ Hnil Hret)
      as (? & ? & ? & ? & ? & ? & _ & _ & _ & _ & _ & _ & Hres).
    discriminate Hres.
Qed.

End MissingColumns.

Lemma missing_columns_iff_witness :
  (exists f, f ∈ logical_fields
     /\ Dict.get
          (_match_required_fields elements (normalized_header no_births_column)).1
          f = None)
  /\ load_data parse_decimal decimal_repr elements (ReadTable no_births_column)
     = Return (Some (mkDataFrame
                       ["state"; "residence_state"; "month"; "month_code";
                        "year_code"; "sex"]
                       (rows no_births_column)),
               missing_columns,
               Missing ["state_of_residence"; "births"],
               Some [("month", "month"); ("month_code", "month_code");
                     ("year_code", "year_code"); ("sex_of_infant", "sex")]).
Proof.
  assert (H : exists f, f ∈ logical_fields
     /\ Dict.get
          (_match_required_fields elements (normalized_header no_births_column)).1
          f = None).
  { exists "births". split; [by_compute | vm_compute; reflexivity]. }
  split; [exact H |].
  exact (proj2 (missing_columns_iff parse_decimal decimal_repr elements
                  no_births_column) H).
Defined.

(** ** One-to-one binding: claim C6 *)

(** No canonical key belongs to two logical fields. *)
Lemma match_keys_disjoint :
  Forall
    (fun f =>
       Forall (fun g => f = g \/ match_keys f ∩ match_keys g = ∅) logical_fields)
    logical_fields.
Proof. by_compute. Qed.

Lemma match_keys_owner f g k :
  f ∈ logical_fields -> g ∈ logical_fields ->
  k ∈ match_keys f -> k ∈ match_keys g -> f = g.
Proof.
  intros Hf Hg Hkf Hkg.
  pose proof match_keys_disjoint as H.
  rewrite Forall_forall in H. specialize (H f Hf).
  rewrite Forall_forall in H. destruct (H g Hg) as [? | Hempty]; [assumption |].
  exfalso. apply (not_elem_of_empty (C := gset string) k).
  rewrite <- Hempty. apply elem_of_intersection. auto.
Qed.

Lemma resolve_Some iter (columns : list string) f c :
  iteration_order iter -> resolve iter columns f = Some c ->
  c ∈ columns /\ _canonical_key c ∈ match_keys f.
Proof.
  intros Hiter. unfold resolve, match_keys. case_bool_decide as Hex.
  - intros [= <-]. split; [exact Hex |].
    apply elem_of_union. left. apply elem_of_singleton. reflexivity.
  - destruct (dedupe _) as [| c' [| ? ?]] eqn:E; try discriminate.
    intros [= ->].
    assert (Hin : c ∈ dedupe (collect_candidates iter (canonical_index columns) f))
      by (rewrite E; apply list_elem_of_singleton; reflexivity).
    rewrite dedupe_elem, collect_candidates_spec in Hin.
    rewrite iteration_order_elem in Hin by exact Hiter.
    destruct Hin as [Hc Hk]. split; [exact Hc |].
    rewrite elem_of_union, elem_of_singleton. exact Hk.
Qed.

Lemma matched_Some iter (columns : list string) f c :
  Dict.get (_match_required_fields iter columns).1 f = Some c ->
  f ∈ logical_fields /\ resolve iter columns f = Some c.
Proof.
  rewrite matched_get. destruct (decide (f ∈ logical_fields)); [auto | discriminate].
Qed.

Lemma matched_injective iter (columns : list string) f g c :
  iteration_order iter ->
  Dict.get (_match_required_fields iter columns).1 f = Some c ->
  Dict.get (_match_required_fields iter columns).1 g = Some c ->
  f = g.
Proof.
  intros Hiter [Hf Hrf]%matched_Some [Hg Hrg]%matched_Some.
  apply (resolve_Some _ _ _ _ Hiter) in Hrf as [_ Hkf].
  apply (resolve_Some _ _ _ _ Hiter) in Hrg as [_ Hkg].
  exact (match_keys_owner f g _ Hf Hg Hkf Hkg).
Qed.

Lemma matched_keys_NoDup iter (columns : list string) :
  NoDup (Dict.keys (_match_required_fields iter columns).1).
Proof.
  unfold _match_required_fields. cbn [fst].
  assert (H : forall fields matched, NoDup (Dict.keys matched) ->
    NoDup (Dict.keys
      (fold_left (match_field iter columns (canonical_index columns))
         fields matched))).
  { induction fields as [| f fields IH]; intros matched Hnd; simpl; [exact Hnd |].
    apply IH. rewrite match_field_resolve.
    destruct (resolve iter columns f); [| exact Hnd].
    apply dict_keys_set, Hnd. }
  apply H. apply NoDup_nil_2.
Qed.

(** *** The renaming dictionary *)

Lemma rename_fold_absent a : forall (items : list (string * string)) (m : gmap string string),
  a ∉ items.*2 ->
  fold_left (fun m '(logical, actual) => <[ actual := logical ]> m) items m !! a
  = m !! a.
Proof.
  induction items as [| [l0 a0] items IH]; intros m Ha; simpl; [reflexivity |].
  simpl in Ha. apply not_elem_of_cons in Ha as [Hne Ha].
  rewrite (IH _ Ha). apply lookup_insert_ne. congruence.
Qed.

Lemma rename_fold_present l a : forall (items : list (string * string)) (m : gmap string string),
  NoDup items.*2 -> (l, a) ∈ items ->
  fold_left (fun m '(logical, actual) => <[ actual := logical ]> m) items m !! a
  = Some l.
Proof.
  induction items as [| [l0 a0] items IH]; intros m Hnd Hin; simpl.
  - inversion Hin.
  - simpl in Hnd. apply NoDup_cons in Hnd as [Ha0 Hnd].
    apply elem_of_cons in Hin as [[= -> ->] | Hin].
    + rewrite (rename_fold_absent _ _ _ Ha0). apply lookup_insert_eq.
    + apply (IH _ Hnd Hin).
Qed.

Lemma rename_fold_Some l a : forall (items : list (string * string)) (m : gmap string string),
  fold_left (fun m '(logical, actual) => <[ actual := logical ]> m) items m !! a
  = Some l ->
  m !! a = Some l \/ (l, a) ∈ items.
Proof.
  induction items as [| [l0 a0] items IH]; intros m H; simpl in *; [auto |].
  destruct (IH _ H) as [Hm | Hin].
  - rewrite lookup_insert in Hm. case_decide as Heq.
    + inversion Hm; subst. right. apply elem_of_cons. auto.
    + auto.
  - right. apply elem_of_cons. auto.
Qed.

(** A column is renamed to a field exactly when the field is bound to it. *)
Lemma rename_to_logical_lookup iter (columns : list string) c f :
  iteration_order iter ->
  rename_to_logical (_match_required_fields iter columns).1 !! c = Some f
  <-> Dict.get (_match_required_fields iter columns).1 f = Some c.
Proof.
  intros Hiter. unfold rename_to_logical.
  pose proof (matched_keys_NoDup iter columns) as Hkeys.
  set (matched := (_match_required_fields iter columns).1) in *.
  split.
  - intros H. apply rename_fold_Some in H as [H | H];
      [rewrite lookup_empty in H; discriminate |].
    apply dict_get_item; assumption.
  - intros H. apply rename_fold_present; [| apply dict_item_get, H].
    unfold Dict.items.
    apply NoDup_fmap_2_strong; [| eapply NoDup_fmap_1; exact Hkeys].
    intros [f1 c1] [f2 c2] H1 H2. simpl. intros <-.
    f_equal. apply (matched_injective iter columns f1 f2 c1 Hiter);
      apply dict_get_item; assumption.
Qed.

Lemma aliased_table_loads :
  load_data parse_decimal decimal_repr elements (ReadTable aliased_table)
  = Return (Some aliased_table_loaded, ok, NoDetail, Some aliased_table_matched).
Proof. vm_compute. reflexivity. Defined.

Section OneToOne.

Context {number : Type}.
Variable parse_number : string -> option number.
Variable number_repr : number -> string.
Variable iter : gset string -> list string.
Hypothesis iter_ok : iteration_order iter.

(** A returned status [ok] means that no field was missing, and gives the
    returned table. *)
Lemma load_ok_inv (df df' : DataFrame number) d m :
  load_data parse_number number_repr iter (ReadTable df)
  = Return (Some df', ok, d, m) ->
  (_match_required_fields iter (normalized_header df)).2 = []
  /\ exists ib ist imo ise imc iyc,
      positions "births" (renamed_header iter df) = [ib]
      /\ positions "state_of_residence" (renamed_header iter df) = [ist]
      /\ positions "month" (renamed_header iter df) = [imo]
      /\ positions "sex_of_infant" (renamed_header iter df) = [ise]
      /\ positions "month_code" (renamed_header iter df) = [imc]
      /\ positions "year_code" (renamed_header iter df) = [iyc]
      /\ df' = mkDataFrame (renamed_header iter df)
                 (coerced_rows parse_number number_repr ib ist imo ise imc iyc
                    (rows df))
      /\ d = NoDetail
      /\ m = Some (_match_required_fields iter (normalized_header df)).1.
Proof.
  cbn [load_data]. intros Hret.
  destruct (decide ((_match_required_fields iter (normalized_header df)).2 = []))
    as [Hnil | Hne].
  - split; [exact Hnil |].
    destruct (bind_table_bound _ _ _ _ _ Hnil Hret)
      as (ib & ist & imo & ise & imc & iyc & H1 & H2 & H3 & H4 & H5 & H6 & Hres).
    exists ib, ist, imo, ise, imc, iyc. inversion Hres. auto 10.
  - rewrite (bind_table_missing _ _ _ _ Hne) in Hret. discriminate Hret.
Qed.

(** The renamed header at the position of a bound column. *)
Lemma renamed_header_bound (df : DataFrame number) f c :
  Dict.get (_match_required_fields iter (normalized_header df)).1 f = Some c ->
  occurrences c (normalized_header df) <= occurrences f (renamed_header iter df).
Proof.
  intros Hget. unfold renamed_header. apply occurrences_map_le.
  apply (rename_to_logical_lookup _ _ _ _ iter_ok) in Hget.
  rewrite Hget. reflexivity.
Qed.

(** C6.  When [load_data] returns [ok], each of the six logical field names
    labels exactly one column of the returned table; every field is bound to
    a column of the normalised header; no two fields are bound to the same
    column; and the header is renamed position by position: a column bound
    to a field takes the field's name and every other column keeps its
    name. *)
Theorem binding_one_to_one (df df' : DataFrame number) d m :
  load_data parse_number number_repr iter (ReadTable df)
  = Return (Some df', ok, d, m) ->
  m = Some (_match_required_fields iter (normalized_header df)).1
  /\ (forall f, f ∈ logical_fields -> occurrences f (columns df') = 1)
  /\ (forall f, f ∈ logical_fields ->
        exists c,
          Dict.get (_match_required_fields iter (normalized_header df)).1 f
          = Some c
          /\ c ∈ normalized_header df)
  /\ (forall f g c,
        Dict.get (_match_required_fields iter (normalized_header df)).1 f
        = Some c ->
        Dict.get (_match_required_fields iter (normalized_header df)).1 g
        = Some c ->
        f = g)
  /\ (forall f c,
        Dict.get (_match_required_fields iter (normalized_header df)).1 f
        = Some c ->
        occurrences c (normalized_header df) = 1)
  /\ (forall i c,
        normalized_header df !! i = Some c ->
        (forall f,
           Dict.get (_match_required_fields iter (normalized_header df)).1 f
           = Some c ->
           columns df' !! i = Some f)
        /\ ((forall f,
               Dict.get (_match_required_fields iter (normalized_header df)).1 f
               <> Some c) ->
            columns df' !! i = Some c)).
Proof.
  intros Hret.
  destruct (load_ok_inv _ _ _ _ Hret)
    as (Hnil & ib & ist & imo & ise & imc & iyc
        & Hb & Hst & Hmo & Hse & Hmc & Hyc & -> & _ & ->).
  cbn [columns].
  assert (Hone : forall f, f ∈ logical_fields ->
            occurrences f (renamed_header iter df) = 1).
  { intros f Hf. rewrite <- positions_length.
    unfold logical_fields in Hf.
    repeat (apply elem_of_cons in Hf as [-> | Hf]); try (inversion Hf; fail).
    - rewrite Hst. reflexivity.
    - rewrite Hmo. reflexivity.
    - rewrite Hmc. reflexivity.
    - rewrite Hyc. reflexivity.
    - rewrite Hse. reflexivity.
    - rewrite Hb. reflexivity. }
  split; [reflexivity |]. split; [exact Hone |].
  split; [| split; [| split]].
  - intros f Hf.
    destruct (Dict.get (_match_required_fields iter (normalized_header df)).1 f)
      as [c |] eqn:Hget.
    + exists c. split; [reflexivity |].
      apply matched_Some in Hget as [_ Hres].
      apply (resolve_Some _ _ _ _ iter_ok Hres).
    + exfalso.
      assert (Hmiss : f ∈ (_match_required_fields iter (normalized_header df)).2)
        by (apply missing_spec; auto).
      rewrite Hnil in Hmiss. inversion Hmiss.
  - intros f g c. apply matched_injective, iter_ok.
  - intros f c Hget.
    pose proof (renamed_header_bound df f c Hget) as Hle.
    pose proof (matched_Some _ _ _ _ Hget) as [Hf Hres].
    apply (resolve_Some _ _ _ _ iter_ok) in Hres as [Hc _].
    apply occurrences_pos in Hc. rewrite (Hone f Hf) in Hle. lia.
  - intros i c Hi. unfold renamed_header. rewrite list_lookup_fmap, Hi.
    cbn [fmap option_fmap option_map]. split.
    + intros f Hget. apply (rename_to_logical_lookup _ _ _ _ iter_ok) in Hget.
      rewrite Hget. reflexivity.
    + intros Hnone.
      destruct (rename_to_logical _ !! c) as [f |] eqn:Hren; [| reflexivity].
      apply (rename_to_logical_lookup _ _ _ _ iter_ok) in Hren.
      destruct (Hnone f Hren).
Qed.

End OneToOne.

Lemma binding_one_to_one_witness :
  iteration_order elements
  /\ load_data parse_decimal decimal_repr elements (ReadTable aliased_table)
     = Return (Some aliased_table_loaded, ok, NoDetail,
               Some aliased_table_matched)
  /\ (forall f, f ∈ logical_fields ->
        occurrences f (columns aliased_table_loaded) = 1)
  /\ (forall f g c,
        Dict.get
          (_match_required_fields elements (normalized_header aliased_table)).1 f
        = Some c ->
        Dict.get
          (_match_required_fields elements (normalized_header aliased_table)).1 g
        = Some c ->
        f = g).
Proof.
  split; [exact iteration_order_elements |].
  split; [exact aliased_table_loads |].
  pose proof (binding_one_to_one parse_decimal decimal_repr elements
                iteration_order_elements aliased_table aliased_table_loaded
                NoDetail (Some aliased_table_matched) aliased_table_loads)
    as (_ & Hocc & _ & Hinj & _ & _).
  split; [exact Hocc | exact Hinj].
Defined.

(** ** Rows *)

Lemma filter_map_swap {A B} (p : B -> bool) (f : A -> B) (l : list A) :
  List.filter p (List.map f l) = List.map f (List.filter (fun x => p (f x)) l).
Proof.
  induction l as [| x l IH]; simpl; [reflexivity |].
  destruct (p (f x)); simpl; rewrite IH; reflexivity.
Qed.

Lemma filter_length_split {A} (p : A -> bool) (l : list A) :
  length (List.filter p l)
  = length l - length (List.filter (fun x => negb (p x)) l).
Proof.
  assert (H : length (List.filter p l)
              + length (List.filter (fun x => negb (p x)) l) = length l).
  { induction l as [| x l IH]; simpl; [reflexivity |].
    destruct (p x); simpl; lia. }
  lia.
Qed.

Lemma positions_singleton label (cols : list string) i :
  positions label cols = [i] -> cols !! i = Some label.
Proof.
  intros H. apply positions_spec. rewrite H. apply list_elem_of_singleton.
  reflexivity.
Qed.

Section Rows.

Context {number : Type}.
Variable parse_number : string -> option number.
Variable number_repr : number -> string.

Lemma coerced_rows_alt ib ist imo ise imc iyc (rs : list (list (cell number))) :
  coerced_rows parse_number number_repr ib ist imo ise imc iyc rs
  = List.map (coerced_row parse_number number_repr ib ist imo ise imc iyc)
      (List.filter (fun r => negb (fails_coercion parse_number (r !!! ib))) rs).
Proof.
  unfold coerced_rows, coerced_row, fails_coercion.
  rewrite filter_map_swap, map_map. f_equal.
  apply filter_ext. intros r. rewrite notna_numeric_at, negb_involutive.
  reflexivity.
Qed.

Lemma numeric_at_length i (r : list (cell number)) :
  length (numeric_at parse_number i r) = length r.
Proof. apply length_insert. Qed.

Lemma text_at_length i (r : list (cell number)) :
  length (text_at number_repr i r) = length r.
Proof. apply length_insert. Qed.

Lemma numeric_at_ne i j (r : list (cell number)) :
  i <> j -> numeric_at parse_number i r !!! j = r !!! j.
Proof. intros H. apply list_lookup_total_insert_ne, H. Qed.

Lemma text_at_ne i j (r : list (cell number)) :
  i <> j -> text_at number_repr i r !!! j = r !!! j.
Proof. intros H. apply list_lookup_total_insert_ne, H. Qed.

(** Also for a position past the end of the row: the cell is then missing
    before and after. *)
Lemma numeric_at_eq i (r : list (cell number)) :
  numeric_at parse_number i r !!! i = to_numeric_cell parse_number (r !!! i).
Proof.
  unfold numeric_at. destruct (decide (i < length r)) as [Hlt | Hge].
  - apply list_lookup_total_insert_eq, Hlt.
  - rewrite list_insert_ge by lia.
    rewrite list_lookup_total_alt, lookup_ge_None_2 by lia. reflexivity.
Qed.

Lemma text_at_eq i (r : list (cell number)) :
  i < length r ->
  text_at number_repr i r !!! i
  = Txt (Str.strip (str_of_cell number_repr (r !!! i))).
Proof. intros H. apply list_lookup_total_insert_eq, H. Qed.

Lemma coerced_row_length ib ist imo ise imc iyc (r : list (cell number)) :
  length (coerced_row parse_number number_repr ib ist imo ise imc iyc r) = length r.
Proof.
  unfold coerced_row.
  rewrite !numeric_at_length, !text_at_length, numeric_at_length. reflexivity.
Qed.

Lemma positions_distinct (cols : list string) ib ist imo ise imc iyc :
  positions "births" cols = [ib] ->
  positions "state_of_residence" cols = [ist] ->
  positions "month" cols = [imo] ->
  positions "sex_of_infant" cols = [ise] ->
  positions "month_code" cols = [imc] ->
  positions "year_code" cols = [iyc] ->
  distinct_positions ib ist imo ise imc iyc.
Proof.
  intros Hb%positions_singleton Hst%positions_singleton Hmo%positions_singleton
    Hse%positions_singleton Hmc%positions_singleton Hyc%positions_singleton.
  unfold distinct_positions.
  repeat (apply NoDup_cons; split;
          [rewrite ?elem_of_cons, elem_of_nil;
           intros H; repeat destruct H as [-> | H]; try congruence; exact H |]).
  apply NoDup_nil_2.
Qed.

Lemma coerced_row_cells ib ist imo ise imc iyc (r : list (cell number)) :
  distinct_positions ib ist imo ise imc iyc ->
  let r' := coerced_row parse_number number_repr ib ist imo ise imc iyc r in
  r' !!! ib = to_numeric_cell parse_number (r !!! ib)
  /\ r' !!! imc = to_numeric_cell parse_number (r !!! imc)
  /\ r' !!! iyc = to_numeric_cell parse_number (r !!! iyc)
  /\ (ist < length r ->
      r' !!! ist = Txt (Str.strip (str_of_cell number_repr (r !!! ist))))
  /\ (imo < length r ->
      r' !!! imo = Txt (Str.strip (str_of_cell number_repr (r !!! imo))))
  /\ (ise < length r ->
      r' !!! ise = Txt (Str.strip (str_of_cell number_repr (r !!! ise)))).
Proof.
  unfold distinct_positions. intros Hnd.
  repeat match goal with
         | H : NoDup (_ :: _) |- _ =>
             apply NoDup_cons in H as [? H];
             repeat match goal with
                    | N : _ ∉ _ :: _ |- _ => apply not_elem_of_cons in N as [? N]
                    end
         end.
  cbv zeta. unfold coerced_row.
  repeat split; try intros Hlt;
    repeat first
      [ rewrite numeric_at_eq
      | rewrite text_at_eq
          by (rewrite ?text_at_length, ?numeric_at_length; exact Hlt)
      | rewrite numeric_at_ne by congruence
      | rewrite text_at_ne by congruence ];
    reflexivity.
Qed.

End Rows.

(** ** Row-drop law: claim C4 *)

Section Coercions.

Context {number : Type}.
Variable parse_number : string -> option number.
Variable number_repr : number -> string.
Variable iter : gset string -> list string.
Hypothesis iter_ok : iteration_order iter.

Lemma renamed_position (df : DataFrame number) f i :
  f ∈ logical_fields ->
  renamed_header iter df !! i = Some f -> bound_at iter df f i.
Proof.
  intros Hf Hlook. unfold renamed_header in Hlook. unfold bound_at.
  set (ren := rename_to_logical _) in Hlook. rewrite list_lookup_fmap in Hlook.
  destruct (normalized_header df !! i) as [c |] eqn:Hc; [| discriminate].
  cbn [fmap option_fmap option_map] in Hlook. injection Hlook as Hren.
  assert (Hh : exists h, columns df !! i = Some h /\ c = _normalize_col_name h).
  { unfold normalized_header in Hc. rewrite list_lookup_fmap in Hc.
    destruct (columns df !! i) as [h |]; [| discriminate].
    injection Hc as <-. exists h. auto. }
  destruct Hh as (h & Hh & ->). exists h. split; [exact Hh |].
  destruct (ren !! _normalize_col_name h) as [g |] eqn:Hg;
    unfold default, from_option, id in Hren.
  - subst g. apply (rename_to_logical_lookup _ _ _ _ iter_ok), Hg.
  - rewrite Hren.
    assert (Hin : f ∈ normalized_header df).
    { rewrite <- Hren. apply list_elem_of_lookup. eauto. }
    apply (exact_name_get iter _ _ Hf Hin).
Qed.

(** C4.  When [load_data] returns [ok], the returned rows are, in order,
    the rows of the file whose value in the column bound to [births] passes
    numeric coercion: their number is the number of rows of the file less
    the number of rows whose births value fails coercion.  A kept row keeps
    its place whatever its month and year codes are; these two cells hold
    the coerced value, which is missing when coercion fails. *)
Theorem row_drop_law (df df' : DataFrame number) d m :
  load_data parse_number number_repr iter (ReadTable df)
  = Return (Some df', ok, d, m) ->
  exists ib imc iyc,
    bound_at iter df "births" ib /\ bound_at iter df "month_code" imc
    /\ bound_at iter df "year_code" iyc
    /\ length (rows df')
       = length (rows df)
         - length (List.filter
                     (fun r => fails_coercion parse_number (r !!! ib))
                     (rows df))
    /\ Forall2
         (fun r r' =>
            r' !!! ib = to_numeric_cell parse_number (r !!! ib)
            /\ r' !!! imc = to_numeric_cell parse_number (r !!! imc)
            /\ r' !!! iyc = to_numeric_cell parse_number (r !!! iyc))
         (List.filter
            (fun r => negb (fails_coercion parse_number (r !!! ib)))
            (rows df))
         (rows df').
Proof.
  intros Hret.
  destruct (load_ok_inv _ _ _ _ _ _ _ Hret)
    as (Hnil & ib & ist & imo & ise & imc & iyc
        & Hb & Hst & Hmo & Hse & Hmc & Hyc & -> & _ & _).
  pose proof (positions_distinct _ _ _ _ _ _ _ Hb Hst Hmo Hse Hmc Hyc) as Hnd.
  exists ib, imc, iyc. cbn [rows].
  split; [| split; [| split; [| split]]].
  - apply renamed_position; [by_compute | apply positions_singleton, Hb].
  - apply renamed_position; [by_compute | apply positions_singleton, Hmc].
  - apply renamed_position; [by_compute | apply positions_singleton, Hyc].
  - rewrite coerced_rows_alt, length_map, filter_length_split.
    f_equal. f_equal. apply filter_ext. intros r. apply negb_involutive.
  - rewrite coerced_rows_alt.
    induction (List.filter _ (rows df)) as [| r rs IH]; simpl; constructor;
      [| exact IH].
    destruct (coerced_row_cells parse_number number_repr _ _ _ _ _ _ r Hnd)
      as (H1 & H2 & H3 & _).
    auto.
Qed.

End Coercions.

Lemma aliased_table_rectangular : rectangular aliased_table.
Proof. repeat constructor. Defined.

Lemma row_drop_law_witness :
  iteration_order elements
  /\ load_data parse_decimal decimal_repr elements (ReadTable aliased_table)
     = Return (Some aliased_table_loaded, ok, NoDetail,
               Some aliased_table_matched)
  /\ exists ib imc iyc,
       bound_at elements aliased_table "births" ib
       /\ bound_at elements aliased_table "month_code" imc
       /\ bound_at elements aliased_table "year_code" iyc
       /\ length (rows aliased_table_loaded)
          = length (rows aliased_table)
            - length (List.filter
                        (fun r => fails_coercion parse_decimal (r !!! ib))
                        (rows aliased_table))
       /\ Forall2
            (fun r r' =>
               r' !!! ib = to_numeric_cell parse_decimal (r !!! ib)
               /\ r' !!! imc = to_numeric_cell parse_decimal (r !!! imc)
               /\ r' !!! iyc = to_numeric_cell parse_decimal (r !!! iyc))
            (List.filter
               (fun r => negb (fails_coercion parse_decimal (r !!! ib)))
               (rows aliased_table))
            (rows aliased_table_loaded).
Proof.
  split; [exact iteration_order_elements |].
  split; [exact aliased_table_loads |].
  exact (row_drop_law parse_decimal decimal_repr elements
           iteration_order_elements aliased_table aliased_table_loaded
           NoDetail (Some aliased_table_matched) aliased_table_loads).
Defined.

(** ** When a status is returned *)

Section Totality.

Context {number : Type}.
Variable parse_number : string -> option number.
Variable number_repr : number -> string.
Variable iter : gset string -> list string.
Hypothesis iter_ok : iteration_order iter.

Lemma coerce_numeric_unique col (df : DataFrame number) i :
  positions col (columns df) = [i] ->
  coerce_numeric parse_number col df
  = Return (mkDataFrame (columns df)
              (List.map (numeric_at parse_number i) (rows df))).
Proof.
  intros Hpos. unfold coerce_numeric, getitem, setitem. rewrite Hpos. cbn.
  rewrite !map_map, zip_with_map_self. reflexivity.
Qed.

Lemma coerce_text_unique col (df : DataFrame number) i :
  positions col (columns df) = [i] ->
  coerce_text number_repr df col
  = Return (mkDataFrame (columns df)
              (List.map (text_at number_repr i) (rows df))).
Proof.
  intros Hpos. unfold coerce_text, getitem, setitem. rewrite Hpos. cbn.
  rewrite !map_map, zip_with_map_self. reflexivity.
Qed.

Lemma dropna_unique col (df : DataFrame number) i :
  positions col (columns df) = [i] ->
  dropna df col
  = Return (mkDataFrame (columns df)
              (List.filter (fun r => notna (r !!! i)) (rows df))).
Proof.
  intros Hpos. unfold dropna. rewrite Hpos. do 2 f_equal.
  apply filter_ext. intros r. simpl. apply andb_true_r.
Qed.

(** With no field missing and no logical name on two columns, all six
    coercions go through. *)
Lemma bind_table_ok (df : DataFrame number) :
  (_match_required_fields iter (normalized_header df)).2 = [] ->
  (forall f, f ∈ logical_fields -> occurrences f (renamed_header iter df) <= 1) ->
  exists df',
    bind_table parse_number number_repr iter df
    = Return (Some df', ok, NoDetail,
              Some (_match_required_fields iter (normalized_header df)).1).
Proof.
  intros Hnil Hocc.
  assert (Hpos : forall f, f ∈ logical_fields ->
            exists i, positions f (renamed_header iter df) = [i]).
  { intros f Hf. apply positions_one.
    destruct (Dict.get (_match_required_fields iter (normalized_header df)).1 f)
      as [c |] eqn:Hget.
    - pose proof (renamed_header_bound iter iter_ok df f c Hget) as Hle.
      apply matched_Some in Hget as [_ Hres].
      apply (resolve_Some _ _ _ _ iter_ok) in Hres as [Hc _].
      apply occurrences_pos in Hc. specialize (Hocc f Hf). lia.
    - exfalso.
      assert (Hmiss : f ∈ (_match_required_fields iter (normalized_header df)).2)
        by (apply missing_spec; auto).
      rewrite Hnil in Hmiss. inversion Hmiss. }
  destruct (Hpos "births") as [ib Hb]; [by_compute |].
  destruct (Hpos "state_of_residence") as [ist Hst]; [by_compute |].
  destruct (Hpos "month") as [imo Hmo]; [by_compute |].
  destruct (Hpos "sex_of_infant") as [ise Hse]; [by_compute |].
  destruct (Hpos "month_code") as [imc Hmc]; [by_compute |].
  destruct (Hpos "year_code") as [iyc Hyc]; [by_compute |].
  clear Hpos Hocc. unfold renamed_header, normalized_header in *.
  unfold bind_table. cbn [columns rows].
  destruct (_match_required_fields iter _) as [matched missing].
  cbn [fst snd] in *. subst missing. unfold rename. cbn [columns rows].
  set (header := List.map _ (List.map _ _)) in *.
  rewrite (coerce_numeric_unique _ _ ib) by exact Hb. cbn [mbind outcome_bind].
  rewrite (dropna_unique _ _ ib) by exact Hb. cbn [mbind outcome_bind].
  cbn [coerce_texts].
  rewrite (coerce_text_unique _ _ ist) by exact Hst. cbn [mbind outcome_bind].
  rewrite (coerce_text_unique _ _ imo) by exact Hmo. cbn [mbind outcome_bind].
  rewrite (coerce_text_unique _ _ ise) by exact Hse. cbn [mbind outcome_bind].
  rewrite (coerce_numeric_unique _ _ imc) by exact Hmc. cbn [mbind outcome_bind].
  rewrite (coerce_numeric_unique _ _ iyc) by exact Hyc. cbn [mbind outcome_bind].
  eexists. reflexivity.
Qed.

(** Renaming keeps different columns different. *)
Lemma renamed_header_NoDup (df : DataFrame number) :
  NoDup (normalized_header df) -> NoDup (renamed_header iter df).
Proof.
  intros Hnd. unfold renamed_header.
  apply NoDup_fmap_2_strong; [| exact Hnd].
  intros c1 c2 H1 H2.
  set (matched := (_match_required_fields iter (normalized_header df)).1).
  destruct (rename_to_logical matched !! c1) as [f1 |] eqn:E1;
    destruct (rename_to_logical matched !! c2) as [f2 |] eqn:E2;
    unfold default, from_option, id; intros Heq.
  - subst f2. apply (rename_to_logical_lookup _ _ _ _ iter_ok) in E1, E2.
    fold matched in E1, E2. congruence.
  - subst c2. apply (rename_to_logical_lookup _ _ _ _ iter_ok) in E1.
    pose proof (matched_Some _ _ _ _ E1) as [Hf _].
    pose proof (exact_name_get iter _ _ Hf H2) as Hex. congruence.
  - subst c1. apply (rename_to_logical_lookup _ _ _ _ iter_ok) in E2.
    pose proof (matched_Some _ _ _ _ E2) as [Hf _].
    pose proof (exact_name_get iter _ _ Hf H1) as Hex. congruence.
  - exact Heq.
Qed.

(** What holds in place of C2: a fault of the read becomes a status, and a
    table whose normalised column names are pairwise different gives the
    status [ok] or [missing_columns]. *)
Lemma load_returns_status (read : read_csv_result number) :
  match read with
  | ReadTable df => NoDup (normalized_header df)
  | _ => True
  end ->
  exists t st d m,
    load_data parse_number number_repr iter read = Return (t, st, d, m)
    /\ match read with
       | ReadTable _ => st = ok \/ st = missing_columns
       | ReadFileNotFound => st = file_not_found /\ t = None /\ d = NoDetail
       | ReadException msg => st = read_error /\ t = None /\ d = Message msg
       end.
Proof.
  destruct read as [df | | msg]; intros Hnd; cbn [load_data].
  - destruct (decide ((_match_required_fields iter (normalized_header df)).2 = []))
      as [Hnil | Hne].
    + destruct (bind_table_ok df Hnil) as [df' Hok].
      { intros f _. apply occurrences_le_1, renamed_header_NoDup, Hnd. }
      eexists _, _, _, _. split; [exact Hok | auto].
    + eexists _, _, _, _. split; [apply bind_table_missing, Hne | auto].
  - eexists _, _, _, _. split; [reflexivity | auto].
  - eexists _, _, _, _. split; [reflexivity | auto].
Qed.

End Totality.

(** ** Scenarios of the specification *)

(** Scenario 1: the six fields are bound by their exact names. *)
Example scenario_exact_names :
  _match_required_fields elements
    (List.map _normalize_col_name
       ["State of Residence"; "Month"; "Month Code"; "Year Code";
        "Sex of Infant"; "Births"])
  = ([ ("state_of_residence", "state_of_residence"); ("month", "month");
       ("month_code", "month_code"); ("year_code", "year_code");
       ("sex_of_infant", "sex_of_infant"); ("births", "births") ],
     []).
Proof. vm_compute. reflexivity. Qed.

(** Scenario 2: aliases. *)
Example scenario_aliases :
  _match_required_fields elements (normalized_header aliased_table)
  = (aliased_table_matched, []).
Proof. vm_compute. reflexivity. Qed.

(** Scenario 5: the file does not exist. *)
Example scenario_file_not_found :
  load_data parse_decimal decimal_repr elements ReadFileNotFound
  = Return (None, file_not_found, NoDetail, None).
Proof. reflexivity. Qed.

(** The normaliser on names of different styles. *)
Example normalize_spaces :
  _normalize_col_name "  State   Of Residence " = "state_of_residence".
Proof. vm_compute. reflexivity. Qed.

Example canonical_key_mixed :
  _canonical_key "STATE-of_Residence" = "stateofresidence".
Proof. vm_compute. reflexivity. Qed.

(** * Further properties *)

(** ** Name normaliser *)

Lemma lower_isspace c : Char.isspace (Char.lower c) = Char.isspace c.
Proof. all_chars c. Qed.

Lemma lower_lower c : Char.lower (Char.lower c) = Char.lower c.
Proof. all_chars c. Qed.

Lemma all_map (p : ascii -> bool) (f : ascii -> ascii) s :
  (forall c, p (f c) = true) -> Str.all p (Str.map f s) = true.
Proof.
  intros H. induction s as [| c s IH]; simpl; [reflexivity |].
  rewrite H, IH. reflexivity.
Qed.

Lemma all_map_keep (p : ascii -> bool) (f : ascii -> ascii) s :
  (forall c, p c = true -> p (f c) = true) ->
  Str.all p s = true -> Str.all p (Str.map f s) = true.
Proof.
  intros H. induction s as [| c s IH]; simpl; [reflexivity |].
  intros [Hc Hs]%andb_prop. rewrite (H c Hc), (IH Hs). reflexivity.
Qed.

Lemma map_fixed (p : ascii -> bool) (f : ascii -> ascii) s :
  (forall c, p c = true -> f c = c) ->
  Str.all p s = true -> Str.map f s = s.
Proof.
  intros H. induction s as [| c s IH]; simpl; [reflexivity |].
  intros [Hc Hs]%andb_prop. rewrite (H c Hc), (IH Hs). reflexivity.
Qed.

(** Every character that a pass of [replace("__", "_")] leaves was there
    before. *)
Lemma all_replace_dunder_upto (p : ascii -> bool) n : forall s,
  String.length s <= n ->
  Str.all p s = true -> Str.all p (Str.replace_dunder s) = true.
Proof.
  induction n as [| n IH]; intros s Hn.
  - destruct s; [reflexivity | simpl in Hn; lia].
  - destruct s as [| c [| d s]]; try (intros H; exact H).
    change (Str.replace_dunder (String c (String d s))) with
      (if Char.is_underscore c && Char.is_underscore d
       then String Char.underscore (Str.replace_dunder s)
       else String c (Str.replace_dunder (String d s))).
    simpl in Hn.
    change (Str.all p (String c (String d s)))
      with (p c && (p d && Str.all p s)).
    intros [Hc [Hd Hs]%andb_prop]%andb_prop.
    destruct (Char.is_underscore c && Char.is_underscore d) eqn:Hu.
    + apply underscore_pair in Hu as [-> ->].
      change (p Char.underscore && Str.all p (Str.replace_dunder s) = true).
      rewrite Hc. apply IH; [lia | exact Hs].
    + change (p c && Str.all p (Str.replace_dunder (String d s)) = true).
      rewrite Hc. apply IH; [simpl; lia |].
      change (p d && Str.all p s = true). rewrite Hd. exact Hs.
Qed.

Lemma all_collapse_loop (p : ascii -> bool) fuel : forall s,
  Str.all p s = true -> Str.all p (collapse_loop fuel s) = true.
Proof.
  induction fuel as [| k IH]; intros s Hs; simpl; [exact Hs |].
  destruct (Str.contains_dunder s); [| exact Hs].
  apply IH. apply (all_replace_dunder_upto p (String.length s)); [lia | exact Hs].
Qed.

Lemma collapse_loop_fixed fuel s :
  Str.contains_dunder s = false -> collapse_loop fuel s = s.
Proof. intros H. destruct fuel; simpl; [reflexivity | rewrite H; reflexivity]. Qed.

(** *** Stripping *)

Lemma rstrip_cons_edge c : forall s,
  Char.isspace (last_char c s) = false ->
  Str.rstrip (String c s) = String c s.
Proof.
  intros s. revert c. induction s as [| d s IH]; intros c Hlast.
  - simpl in *. rewrite Hlast. reflexivity.
  - change (Str.rstrip (String c (String d s))) with
      (match Str.rstrip (String d s) with
       | EmptyString =>
           if Char.isspace c then EmptyString else String c EmptyString
       | r => String c r
       end).
    rewrite (IH d Hlast). reflexivity.
Qed.

Lemma edge_free_strip s : edge_free s = true -> Str.strip s = s.
Proof.
  destruct s as [| c s]; [reflexivity |]. unfold edge_free, Str.strip.
  intros [Hc Hl]%andb_prop. apply negb_true_iff in Hc, Hl.
  cbn [Str.lstrip]. rewrite Hc. apply rstrip_cons_edge, Hl.
Qed.

Lemma rstrip_last s :
  match Str.rstrip s with
  | EmptyString => True
  | String c r => Char.isspace (last_char c r) = false
  end.
Proof.
  induction s as [| c s IH]; simpl; [exact I |].
  destruct (Str.rstrip s) as [| e r].
  - destruct (Char.isspace c) eqn:Hc; [exact I | exact Hc].
  - exact IH.
Qed.

Lemma rstrip_head c s :
  Char.isspace c = false -> exists r, Str.rstrip (String c s) = String c r.
Proof.
  intros Hc. simpl. destruct (Str.rstrip s) as [| e r]; [rewrite Hc |]; eauto.
Qed.

Lemma lstrip_head s :
  match Str.lstrip s with
  | EmptyString => True
  | String c _ => Char.isspace c = false
  end.
Proof.
  induction s as [| c s IH]; simpl; [exact I |].
  destruct (Char.isspace c) eqn:Hc; [exact IH | exact Hc].
Qed.

Lemma strip_edge_free s : edge_free (Str.strip s) = true.
Proof.
  unfold Str.strip. pose proof (lstrip_head s) as Hh.
  destruct (Str.lstrip s) as [| c t]; [reflexivity |].
  destruct (rstrip_head c t Hh) as [r Hr].
  pose proof (rstrip_last (String c t)) as Hl. rewrite Hr in Hl |- *.
  unfold edge_free. rewrite Hh, Hl. reflexivity.
Qed.

Lemma last_char_map (f : ascii -> ascii) c s :
  last_char (f c) (Str.map f s) = f (last_char c s).
Proof. revert c. induction s as [| d s IH]; intros c; simpl; auto. Qed.

Lemma edge_free_map (f : ascii -> ascii) s :
  (forall c, Char.isspace c = false -> Char.isspace (f c) = false) ->
  edge_free s = true -> edge_free (Str.map f s) = true.
Proof.
  intros Hf. destruct s as [| c s]; [reflexivity |]. unfold edge_free.
  cbn [Str.map]. rewrite last_char_map.
  intros [Hc Hl]%andb_prop. apply negb_true_iff in Hc, Hl.
  rewrite (Hf _ Hc), (Hf _ Hl). reflexivity.
Qed.

(** A pass of [replace("__", "_")] keeps the first and the last
    character. *)
Lemma replace_dunder_edges_upto n : forall c s,
  String.length s <= n ->
  exists r, Str.replace_dunder (String c s) = String c r
            /\ last_char c r = last_char c s.
Proof.
  induction n as [| n IH]; intros c s Hn.
  - destruct s; [| simpl in Hn; lia]. exists EmptyString. auto.
  - destruct s as [| d s]; [exists EmptyString; auto |].
    change (Str.replace_dunder (String c (String d s))) with
      (if Char.is_underscore c && Char.is_underscore d
       then String Char.underscore (Str.replace_dunder s)
       else String c (Str.replace_dunder (String d s))).
    simpl in Hn.
    destruct (Char.is_underscore c && Char.is_underscore d) eqn:Hu.
    + apply underscore_pair in Hu as [-> ->].
      destruct s as [| e s].
      * exists EmptyString. auto.
      * destruct (IH e s) as (r & Hr & Hl); [simpl in Hn; lia |].
        rewrite Hr. exists (String e r). auto.
    + destruct (IH d s) as (r & Hr & Hl); [lia |].
      rewrite Hr. exists (String d r). auto.
Qed.

Lemma edge_free_replace_dunder s :
  edge_free s = true -> edge_free (Str.replace_dunder s) = true.
Proof.
  destruct s as [| c s]; [reflexivity |].
  destruct (replace_dunder_edges_upto (String.length s) c s) as (r & Hr & Hl);
    [lia |].
  rewrite Hr. unfold edge_free. rewrite Hl. auto.
Qed.

Lemma edge_free_collapse_loop fuel : forall s,
  edge_free s = true -> edge_free (collapse_loop fuel s) = true.
Proof.
  induction fuel as [| k IH]; intros s Hs; simpl; [exact Hs |].
  destruct (Str.contains_dunder s); [| exact Hs].
  apply IH, edge_free_replace_dunder, Hs.
Qed.

Lemma replace_space_isspace c :
  Char.isspace c = false ->
  Char.isspace (if Char.is_space c then Char.underscore else c) = false.
Proof. intros H. destruct (Char.is_space c); [reflexivity | exact H]. Qed.

Lemma normalize_edge_free raw : edge_free (_normalize_col_name raw) = true.
Proof.
  unfold _normalize_col_name. apply edge_free_collapse_loop.
  apply edge_free_map; [apply replace_space_isspace |].
  apply edge_free_map; [intros c Hc; rewrite lower_isspace; exact Hc |].
  apply strip_edge_free.
Qed.

Lemma normalize_lower_fixed raw :
  Str.all lower_fixed (_normalize_col_name raw) = true.
Proof.
  unfold _normalize_col_name. apply all_collapse_loop.
  apply all_map_keep.
  - intros c Hc. destruct (Char.is_space c); [reflexivity | exact Hc].
  - apply all_map. intros c. unfold lower_fixed.
    apply bool_decide_eq_true. apply lower_lower.
Qed.

Lemma normalize_no_space raw :
  Str.all (fun c => negb (Char.is_space c)) (_normalize_col_name raw) = true.
Proof.
  unfold _normalize_col_name. apply all_collapse_loop.
  apply all_map. intros c.
  destruct (Char.is_space c) eqn:Hc; [reflexivity | rewrite Hc; reflexivity].
Qed.

Lemma normalized_fixed s :
  edge_free s = true -> Str.all lower_fixed s = true ->
  Str.all (fun c => negb (Char.is_space c)) s = true ->
  Str.contains_dunder s = false ->
  _normalize_col_name s = s.
Proof.
  intros He Hl Hs Hd. unfold _normalize_col_name.
  rewrite (edge_free_strip s He).
  assert (Hlow : Str.lower s = s).
  { apply (map_fixed lower_fixed); [| exact Hl].
    intros c Hc. apply bool_decide_eq_true in Hc. exact Hc. }
  rewrite Hlow.
  assert (Hsp : Str.replace_space s = s).
  { apply (map_fixed (fun c => negb (Char.is_space c))); [| exact Hs].
    intros c Hc. apply negb_true_iff in Hc. rewrite Hc. reflexivity. }
  rewrite Hsp. apply collapse_loop_fixed, Hd.
Qed.

(** X1.  Normalising a normalised name changes nothing. *)
Theorem normalize_idempotent (raw : string) :
  _normalize_col_name (_normalize_col_name raw) = _normalize_col_name raw.
Proof.
  apply normalized_fixed.
  - apply normalize_edge_free.
  - apply normalize_lower_fixed.
  - apply normalize_no_space.
  - apply normalize_loop_exits.
Qed.

(** X2.  A normalised name is as [_normalize_col_name] promises: it has no
    leading or trailing whitespace, no upper-case letter, no space and no
    run of two underscores. *)
Theorem normalize_shape (raw : string) :
  Str.strip (_normalize_col_name raw) = _normalize_col_name raw
  /\ Str.lower (_normalize_col_name raw) = _normalize_col_name raw
  /\ Str.all (fun c => negb (Char.is_space c)) (_normalize_col_name raw) = true
  /\ Str.contains_dunder (_normalize_col_name raw) = false.
Proof.
  split; [apply edge_free_strip, normalize_edge_free |].
  split.
  { apply (map_fixed lower_fixed); [| apply normalize_lower_fixed].
    intros c Hc. apply bool_decide_eq_true in Hc. exact Hc. }
  split; [apply normalize_no_space | apply normalize_loop_exits].
Qed.

Lemma all_filter_keep (p q : ascii -> bool) s :
  Str.all p s = true -> Str.all p (Str.filter q s) = true.
Proof.
  induction s as [| c s IH]; simpl; [reflexivity |].
  intros [Hc Hs]%andb_prop.
  destruct (q c); simpl; [rewrite Hc |]; auto.
Qed.

Lemma filter_all (p : ascii -> bool) s :
  Str.all p s = true -> Str.filter p s = s.
Proof.
  induction s as [| c s IH]; simpl; [reflexivity |].
  intros [Hc Hs]%andb_prop. rewrite Hc, (IH Hs). reflexivity.
Qed.

(** X3.  The canonical key is the raw name lower-cased and stripped of
    every character that is not alphanumeric: surrounding whitespace,
    spaces and underscores play no part.  Hence the key of a normalised
    name is the key of the raw name, and a key is its own key. *)
Theorem canonical_key_laws (raw : string) :
  _canonical_key raw = Str.filter Char.isalnum (Str.lower raw)
  /\ _canonical_key (_normalize_col_name raw) = _canonical_key raw
  /\ _canonical_key (_canonical_key raw) = _canonical_key raw.
Proof.
  split; [apply canonical_key_filter |]. split.
  - unfold _canonical_key. cbv zeta.
    rewrite (normalized_fixed _ (normalize_edge_free raw)
               (normalize_lower_fixed raw) (normalize_no_space raw)
               (normalize_loop_exits raw)).
    reflexivity.
  - rewrite (canonical_key_filter (_canonical_key raw)).
    assert (Hlow : Str.lower (_canonical_key raw) = _canonical_key raw).
    { apply (map_fixed lower_fixed).
      - intros c Hc. apply bool_decide_eq_true in Hc. exact Hc.
      - unfold _canonical_key. cbv zeta.
        apply all_filter_keep, normalize_lower_fixed. }
    rewrite Hlow. apply filter_all. unfold _canonical_key. cbv zeta.
    apply all_filter.
Qed.

(** ** Alias resolver *)

Lemma NoDup_all_equal (l : list string) c :
  NoDup l -> c ∈ l -> (forall x, x ∈ l -> x = c) -> l = [c].
Proof.
  intros Hnd Hc Hall. destruct l as [| x [| y l]].
  - inversion Hc.
  - rewrite (Hall x); [reflexivity | apply elem_of_cons; auto].
  - exfalso. apply NoDup_cons in Hnd as [Hx _]. apply Hx.
    rewrite (Hall x), <- (Hall y); apply elem_of_cons; auto.
    right. apply elem_of_cons. auto.
Qed.

Lemma candidate_collected iter (columns : list string) f c :
  iteration_order iter ->
  c ∈ dedupe (collect_candidates iter (canonical_index columns) f)
  <-> candidate columns f c.
Proof.
  intros Hiter. unfold candidate.
  rewrite dedupe_elem, collect_candidates_spec.
  rewrite iteration_order_elem by exact Hiter. reflexivity.
Qed.

(** X4.  A logical field is bound to a column exactly in two cases: the
    column is the field's own name, or the field's own name is not a column
    and the column is the only candidate for the field. *)
Theorem binding_characterised iter (columns : list string) (field c : string) :
  iteration_order iter -> field ∈ logical_fields ->
  Dict.get (_match_required_fields iter columns).1 field = Some c
  <-> (field ∈ columns /\ c = field)
      \/ ((field ∉ columns) /\ candidate columns field c
          /\ forall c', candidate columns field c' -> c' = c).
Proof.
  intros Hiter Hf. rewrite matched_get.
  destruct (decide (field ∈ logical_fields)); [| contradiction].
  unfold resolve. case_bool_decide as Hex.
  - split.
    + intros [= <-]. auto.
    + intros [[_ ->] | [Hn _]]; [reflexivity | contradiction].
  - pose proof (dedupe_NoDup
                  (collect_candidates iter (canonical_index columns) field))
      as Hnd.
    pose proof (fun x => candidate_collected iter columns field x Hiter) as Hcand.
    split.
    + intros Hone. right. split; [exact Hex |].
      destruct (dedupe _) as [| x [| y l]]; try discriminate.
      injection Hone as ->. split.
      * apply Hcand, list_elem_of_singleton. reflexivity.
      * intros c' Hc'. apply Hcand, list_elem_of_singleton in Hc'. exact Hc'.
    + intros [[Hin _] | (_ & Hc & Hall)]; [contradiction |].
      rewrite (NoDup_all_equal _ c Hnd); [reflexivity | apply Hcand, Hc |].
      intros x Hx. apply Hall, Hcand, Hx.
Qed.

Lemma binding_characterised_witness :
  iteration_order elements
  /\ "sex_of_infant" ∈ logical_fields
  /\ Dict.get
       (_match_required_fields elements ["state"; "gender"; "gender"]).1
       "sex_of_infant" = Some "gender"
  /\ (("sex_of_infant" ∈ ["state"; "gender"; "gender"]
       /\ "gender" = "sex_of_infant")
      \/ (("sex_of_infant" ∉ ["state"; "gender"; "gender"])
          /\ candidate ["state"; "gender"; "gender"] "sex_of_infant" "gender"
          /\ forall c',
               candidate ["state"; "gender"; "gender"] "sex_of_infant" c' ->
               c' = "gender")).
Proof.
  assert (Hf : "sex_of_infant" ∈ logical_fields) by by_compute.
  assert (Hget : Dict.get
       (_match_required_fields elements ["state"; "gender"; "gender"]).1
       "sex_of_infant" = Some "gender") by (vm_compute; reflexivity).
  split; [exact iteration_order_elements |]. split; [exact Hf |].
  split; [exact Hget |].
  exact (proj1 (binding_characterised elements ["state"; "gender"; "gender"]
                  "sex_of_infant" "gender" iteration_order_elements Hf) Hget).
Defined.

(** X5.  Whatever the columns are, a binding maps a logical field to one of
    the given columns whose canonical key is the field's own or one of its
    aliases, and no column is the binding of two fields. *)
Theorem binding_sound_and_injective iter (columns : list string) :
  iteration_order iter ->
  (forall f c,
      Dict.get (_match_required_fields iter columns).1 f = Some c ->
      f ∈ logical_fields /\ c ∈ columns /\ _canonical_key c ∈ match_keys f)
  /\ (forall f g c,
        Dict.get (_match_required_fields iter columns).1 f = Some c ->
        Dict.get (_match_required_fields iter columns).1 g = Some c ->
        f = g).
Proof.
  intros Hiter. split.
  - intros f c Hget. apply matched_Some in Hget as [Hf Hres].
    split; [exact Hf |]. apply (resolve_Some _ _ _ _ Hiter Hres).
  - intros f g c. apply matched_injective, Hiter.
Qed.

Lemma binding_sound_and_injective_witness :
  iteration_order elements
  /\ (forall f g c,
        Dict.get
          (_match_required_fields elements
             ["sex"; "state"; "births"; "live_births"]).1 f = Some c ->
        Dict.get
          (_match_required_fields elements
             ["sex"; "state"; "births"; "live_births"]).1 g = Some c ->
        f = g).
Proof.
  split; [exact iteration_order_elements |].
  exact (proj2 (binding_sound_and_injective elements
                  ["sex"; "state"; "births"; "live_births"]
                  iteration_order_elements)).
Defined.

(** *** The order of [matched] and [missing] *)

Lemma dict_keys_set_fresh k v d :
  k ∉ Dict.keys d -> Dict.keys (Dict.set k v d) = Dict.keys d ++ [k].
Proof.
  unfold Dict.keys. induction d as [| [k0 v0] d IH]; [reflexivity |].
  cbn [Dict.set fmap list_fmap fst]. intros [Hne Hk]%not_elem_of_cons.
  destruct (decide (k0 = k)); [congruence |].
  cbn [fmap list_fmap fst app]. f_equal. apply IH, Hk.
Qed.

Lemma match_fields_keys iter (columns : list string) : forall fields matched,
  NoDup fields -> (forall f, f ∈ fields -> f ∉ Dict.keys matched) ->
  Dict.keys
    (fold_left (match_field iter columns (canonical_index columns))
       fields matched)
  = Dict.keys matched ++ List.filter (is_bound iter columns) fields.
Proof.
  induction fields as [| f fields IH]; intros matched Hnd Hfresh; simpl.
  - rewrite app_nil_r. reflexivity.
  - apply NoDup_cons in Hnd as [Hf Hnd].
    assert (Hf_fresh : f ∉ Dict.keys matched)
      by (apply Hfresh, elem_of_cons; auto).
    rewrite match_field_resolve. unfold is_bound at 1.
    destruct (resolve iter columns f) as [c |].
    + rewrite IH; [| exact Hnd |].
      * rewrite (dict_keys_set_fresh _ _ _ Hf_fresh), <- app_assoc. reflexivity.
      * intros g Hg. rewrite (dict_keys_set_fresh _ _ _ Hf_fresh).
        rewrite elem_of_app, list_elem_of_singleton. intros [Hk | ->].
        -- apply (Hfresh g); [apply elem_of_cons; auto | exact Hk].
        -- contradiction.
    + apply IH; [exact Hnd |]. intros g Hg. apply Hfresh, elem_of_cons. auto.
Qed.

Lemma filter_complement_perm {A} (p : A -> bool) (l : list A) :
  List.filter p l ++ List.filter (fun x => negb (p x)) l ≡ₚ l.
Proof.
  induction l as [| x l IH]; simpl; [reflexivity |].
  destruct (p x); simpl.
  - rewrite IH. reflexivity.
  - rewrite <- Permutation_middle, IH. reflexivity.
Qed.

Lemma mem_is_bound iter (columns : list string) f :
  f ∈ logical_fields ->
  Dict.mem (_match_required_fields iter columns).1 f = is_bound iter columns f.
Proof.
  intros Hf. unfold Dict.mem, is_bound. rewrite matched_get.
  destruct (decide (f ∈ logical_fields)); [reflexivity | contradiction].
Qed.

Lemma matched_keys_in_order iter (columns : list string) :
  Dict.keys (_match_required_fields iter columns).1
  = List.filter (Dict.mem (_match_required_fields iter columns).1)
      logical_fields.
Proof.
  transitivity (List.filter (is_bound iter columns) logical_fields).
  - unfold _match_required_fields at 1. cbn [fst].
    rewrite match_fields_keys; [reflexivity | apply logical_fields_NoDup |].
    intros f _ H. inversion H.
  - apply filter_ext_in. intros f Hf. symmetry. apply mem_is_bound.
    apply list_elem_of_In, Hf.
Qed.

(** X6.  [matched] and [missing] split the six logical fields: the keys of
    [matched] are the bound fields and [missing] the unbound ones, both in
    the order of [logical_fields], and every field is in exactly one of
    them. *)
Theorem matched_and_missing_partition iter (columns : list string) :
  Dict.keys (_match_required_fields iter columns).1
  = List.filter (Dict.mem (_match_required_fields iter columns).1)
      logical_fields
  /\ (_match_required_fields iter columns).2
     = List.filter
         (fun f => negb (Dict.mem (_match_required_fields iter columns).1 f))
         logical_fields
  /\ Dict.keys (_match_required_fields iter columns).1
     ++ (_match_required_fields iter columns).2 ≡ₚ logical_fields
  /\ length (Dict.keys (_match_required_fields iter columns).1)
     + length (_match_required_fields iter columns).2 = 6.
Proof.
  assert (Hperm : Dict.keys (_match_required_fields iter columns).1
     ++ (_match_required_fields iter columns).2 ≡ₚ logical_fields).
  { rewrite matched_keys_in_order.
    change ((_match_required_fields iter columns).2)
      with (List.filter
              (fun f => negb (Dict.mem (_match_required_fields iter columns).1 f))
              logical_fields).
    apply filter_complement_perm. }
  split; [apply matched_keys_in_order |]. split; [reflexivity |].
  split; [exact Hperm |].
  apply Permutation_length in Hperm. rewrite length_app in Hperm. exact Hperm.
Qed.

(** *** Order and repetition of the columns *)

Lemma resolve_same_columns iter (cols1 cols2 : list string) f :
  (forall c, c ∈ cols1 <-> c ∈ cols2) ->
  resolve iter cols1 f = resolve iter cols2 f.
Proof.
  intros Hsame. unfold resolve.
  rewrite (bool_decide_ext (f ∈ cols1) (f ∈ cols2)) by apply Hsame.
  destruct (bool_decide (f ∈ cols2)); [reflexivity |].
  apply one_candidate_perm.
  apply NoDup_Permutation; [apply dedupe_NoDup | apply dedupe_NoDup |].
  intros c. rewrite !dedupe_elem, !collect_candidates_spec, Hsame. reflexivity.
Qed.

(** X7.  The resolver looks at the column names as a set: two column lists
    with the same names, in any order and with any repetition, give the
    same [(matched, missing)]. *)
Theorem resolver_ignores_order_and_repeats iter (cols1 cols2 : list string) :
  (forall c, c ∈ cols1 <-> c ∈ cols2) ->
  _match_required_fields iter cols1 = _match_required_fields iter cols2.
Proof.
  intros Hsame. unfold _match_required_fields.
  assert (Hfold : forall fields matched,
    fold_left (match_field iter cols1 (canonical_index cols1)) fields matched
    = fold_left (match_field iter cols2 (canonical_index cols2)) fields matched).
  { induction fields as [| f fields IH]; intros matched; simpl; [reflexivity |].
    rewrite !match_field_resolve, (resolve_same_columns iter cols1 cols2 f Hsame).
    apply IH. }
  rewrite Hfold. reflexivity.
Qed.

Lemma resolver_ignores_order_and_repeats_witness :
  (forall c, c ∈ ["state"; "month"; "birth_count"]
             <-> c ∈ ["birth_count"; "state"; "state"; "month"])
  /\ _match_required_fields elements ["state"; "month"; "birth_count"]
     = _match_required_fields elements
         ["birth_count"; "state"; "state"; "month"].
Proof.
  assert (H : forall c, c ∈ ["state"; "month"; "birth_count"]
                        <-> c ∈ ["birth_count"; "state"; "state"; "month"]).
  { intros c. rewrite !elem_of_cons, !elem_of_nil. tauto. }
  split; [exact H |].
  exact (resolver_ignores_order_and_repeats elements _ _ H).
Defined.

(** *** Removal of repeated candidates, in first-seen order *)

Lemma filter_twice {A} (p q : A -> bool) (l : list A) :
  List.filter p (List.filter q l) = List.filter (fun x => p x && q x) l.
Proof.
  induction l as [| x l IH]; simpl; [reflexivity |].
  destruct (q x); simpl; [destruct (p x); simpl; rewrite IH; reflexivity |].
  rewrite andb_false_r. exact IH.
Qed.

Lemma dedupe_fold_from n : forall (l d : list string) (seen : gset string),
  length l <= n -> (forall x, x ∈ seen <-> x ∈ d) ->
  (fold_left dedupe_step l (d, seen)).1
  = d ++ dedupe (List.filter (fun x => bool_decide (x ∉ d)) l).
Proof.
  induction n as [| n IH]; intros l d seen Hn Hseen.
  - destruct l; [| simpl in Hn; lia]. simpl. rewrite app_nil_r. reflexivity.
  - destruct l as [| c l]; [simpl; rewrite app_nil_r; reflexivity |].
    simpl in Hn. cbn [fold_left dedupe_step List.filter].
    destruct (decide (c ∈ seen)) as [Hc | Hc].
    + rewrite bool_decide_eq_false_2 by (intros H; apply H, Hseen, Hc).
      apply IH; [lia | exact Hseen].
    + rewrite bool_decide_eq_true_2 by (intros H; apply Hc, Hseen, H).
      rewrite (IH l (d ++ [c]) (seen ∪ {[ c ]})); [| lia |].
      * rewrite <- app_assoc. f_equal. unfold dedupe at 2.
        cbn [fold_left dedupe_step].
        destruct (decide (c ∈ (∅ : gset string))) as [He | _];
          [apply not_elem_of_empty in He; destruct He |].
        rewrite (IH _ ([] ++ [c]) (∅ ∪ {[ c ]})).
        -- cbn [app]. do 2 f_equal. rewrite filter_twice.
           apply filter_ext. intros x.
           destruct (decide (x ∈ d)) as [Hd | Hd].
           ++ rewrite (bool_decide_eq_false_2 (x ∉ d))
                by (intros H; apply H, Hd).
              rewrite andb_false_r. apply bool_decide_eq_false_2.
              intros H. apply H, elem_of_app. auto.
           ++ rewrite (bool_decide_eq_true_2 (x ∉ d)) by exact Hd.
              rewrite andb_true_r. apply bool_decide_ext.
              rewrite elem_of_app. tauto.
        -- rewrite (filter_length_split (fun x => bool_decide (x ∉ d)) l). lia.
        -- intros x. cbn [app]. rewrite elem_of_union, elem_of_singleton,
             list_elem_of_singleton.
           split; [intros [H | H]; [apply not_elem_of_empty in H; destruct H | exact H] | auto].
      * intros x. rewrite elem_of_union, elem_of_singleton, elem_of_app,
          list_elem_of_singleton, Hseen. tauto.
Qed.

(** X8.  The de-duplication loop keeps the first occurrence of every name
    and the order of these first occurrences; its result has no repeated
    name and the same names as its input. *)
Theorem dedupe_first_seen :
  dedupe [] = []
  /\ (forall x l,
        dedupe (x :: l)
        = x :: dedupe (List.filter (fun y => bool_decide (y <> x)) l))
  /\ (forall l, NoDup (dedupe l))
  /\ (forall l x, x ∈ dedupe l <-> x ∈ l).
Proof.
  split; [reflexivity |]. split; [| split; [apply dedupe_NoDup | apply dedupe_elem]].
  intros x l. unfold dedupe at 1. cbn [fold_left dedupe_step].
  destruct (decide (x ∈ (∅ : gset string))) as [He | _];
    [apply not_elem_of_empty in He; destruct He |].
  rewrite (dedupe_fold_from (length l) l ([] ++ [x]) (∅ ∪ {[ x ]}));
    [| lia |].
  - cbn [app]. do 2 f_equal. apply filter_ext. intros y.
    apply bool_decide_ext. rewrite list_elem_of_singleton. reflexivity.
  - intros y. cbn [app].
    rewrite elem_of_union, elem_of_singleton, list_elem_of_singleton.
    split; [intros [H | H]; [apply not_elem_of_empty in H; destruct H | exact H] | auto].
Qed.

(** *** The index of canonical keys *)

Lemma canonical_index_fold_list k : forall cols (m : gmap string (list string)),
  default [] (fold_left index_col cols m !! k)
  = default [] (m !! k)
    ++ List.filter (fun c => bool_decide (_canonical_key c = k)) cols.
Proof.
  induction cols as [| col cols IH]; intros m; simpl.
  - rewrite app_nil_r. reflexivity.
  - rewrite IH. unfold index_col at 1. rewrite lookup_insert.
    case_bool_decide as Hk.
    + rewrite decide_True by exact Hk. subst k. simpl.
      rewrite <- app_assoc. reflexivity.
    + rewrite decide_False by exact Hk. reflexivity.
Qed.

Lemma canonical_index_fold_None k : forall cols (m : gmap string (list string)),
  fold_left index_col cols m !! k = None
  <-> m !! k = None /\ forall c, c ∈ cols -> _canonical_key c <> k.
Proof.
  induction cols as [| col cols IH]; intros m; simpl.
  - split; [intros H; split; [exact H | intros c Hc; inversion Hc] | tauto].
  - rewrite IH. unfold index_col at 1. rewrite lookup_insert.
    destruct (decide (_canonical_key col = k)) as [Hk | Hk].
    + split; [intros [H _]; discriminate |].
      intros [_ H]. exfalso. apply (H col); [apply elem_of_cons; auto | exact Hk].
    + split.
      * intros [Hm H]. split; [exact Hm |].
        intros c [-> | Hc]%elem_of_cons; auto.
      * intros [Hm H]. split; [exact Hm |].
        intros c Hc. apply H, elem_of_cons. auto.
Qed.

(** X9.  The index built in lines 59-62 maps a canonical key to the columns
    that have this key, in the order of the column list and with their
    repetitions; a key that no column has is absent from the index. *)
Theorem canonical_index_groups (cols : list string) (k : string) :
  default [] (canonical_index cols !! k)
  = List.filter (fun c => bool_decide (_canonical_key c = k)) cols
  /\ (canonical_index cols !! k = None
      <-> forall c, c ∈ cols -> _canonical_key c <> k)
  /\ canonical_index cols !! k <> Some [].
Proof.
  unfold canonical_index.
  pose proof (canonical_index_fold_list k cols ∅) as Hlist.
  pose proof (canonical_index_fold_None k cols ∅) as Hnone.
  rewrite lookup_empty in Hlist, Hnone. simpl in Hlist.
  split; [exact Hlist |]. split; [rewrite Hnone; tauto |].
  intros Hempty. rewrite Hempty in Hlist. simpl in Hlist.
  assert (Hsome : fold_left index_col cols ∅ !! k <> None) by congruence.
  apply Hsome, Hnone. split; [reflexivity |].
  intros c Hc Hk.
  assert (Hin : In c (List.filter (fun c => bool_decide (_canonical_key c = k)) cols)).
  { apply filter_In. split; [apply list_elem_of_In, Hc |].
    apply bool_decide_eq_true, Hk. }
  rewrite <- Hlist in Hin. destruct Hin.
Qed.

(** X10.  When no column has a canonical key that a logical field accepts
    (an empty column list is the extreme case), nothing is bound and all six
    fields are reported missing, in the order of [logical_fields]. *)
Theorem nothing_matches_all_missing iter (columns : list string) :
  iteration_order iter ->
  (forall f c, f ∈ logical_fields -> c ∈ columns ->
               _canonical_key c ∉ match_keys f) ->
  _match_required_fields iter columns = (Dict.empty, logical_fields).
Proof.
  intros Hiter Hnone.
  assert (Hres : forall f, f ∈ logical_fields -> resolve iter columns f = None).
  { intros f Hf. destruct (resolve iter columns f) as [c |] eqn:E; [| reflexivity].
    apply (resolve_Some _ _ _ _ Hiter) in E as [Hc Hk].
    destruct (Hnone f c Hf Hc Hk). }
  unfold _match_required_fields.
  assert (Hfold : forall fields,
    (forall f, f ∈ fields -> f ∈ logical_fields) ->
    fold_left (match_field iter columns (canonical_index columns)) fields
      Dict.empty = Dict.empty).
  { induction fields as [| f fields IH]; intros Hsub; simpl; [reflexivity |].
    rewrite match_field_resolve, Hres by (apply Hsub, elem_of_cons; auto).
    apply IH. intros g Hg. apply Hsub, elem_of_cons. auto. }
  rewrite Hfold by auto. reflexivity.
Qed.

Lemma nothing_matches_all_missing_witness :
  iteration_order elements
  /\ (forall f c, f ∈ logical_fields -> c ∈ ["notes"; "record id"; "---"] ->
                  _canonical_key c ∉ match_keys f)
  /\ _match_required_fields elements ["notes"; "record id"; "---"]
     = (Dict.empty, logical_fields)
  /\ _match_required_fields elements [] = (Dict.empty, logical_fields).
Proof.
  assert (H : forall f c, f ∈ logical_fields ->
                c ∈ ["notes"; "record id"; "---"] ->
                _canonical_key c ∉ match_keys f).
  { intros f c Hf Hc. unfold logical_fields in Hf.
    repeat (apply elem_of_cons in Hf as [-> | Hf]); try (inversion Hf; fail);
      repeat (apply elem_of_cons in Hc as [-> | Hc]); try (inversion Hc; fail);
      by_compute. }
  split; [exact iteration_order_elements |]. split; [exact H |]. split.
  - exact (nothing_matches_all_missing elements _ iteration_order_elements H).
  - apply (nothing_matches_all_missing elements [] iteration_order_elements).
    intros f c _ Hc. inversion Hc.
Defined.

(** ** Loader: which outcome *)

Lemma occurrences_map_back (g : string -> string) c f (cols : list string) :
  (forall x, x ∈ cols -> g x = f -> x = c) ->
  occurrences f (List.map g cols) <= occurrences c cols.
Proof.
  unfold occurrences. induction cols as [| x cols IH]; intros H; simpl; [lia |].
  assert (IH' : length
                  (List.filter (fun c0 => bool_decide (c0 = f)) (List.map g cols))
                <= length (List.filter (fun c0 => bool_decide (c0 = c)) cols)).
  { apply IH. intros y Hy. apply H, elem_of_cons. auto. }
  case_bool_decide as Hg; simpl.
  - rewrite bool_decide_eq_true_2
      by (apply H; [apply elem_of_cons; auto | exact Hg]).
    simpl. lia.
  - destruct (bool_decide (x = c)); simpl; lia.
Qed.

Section Outcomes.

Context {number : Type}.
Variable parse_number : string -> option number.
Variable number_repr : number -> string.
Variable iter : gset string -> list string.
Hypothesis iter_ok : iteration_order iter.

(** After renaming, a field's name labels the columns that carried the name
    the field is bound to, and no other. *)
Lemma renamed_occurrences (df : DataFrame number) f c :
  Dict.get (_match_required_fields iter (normalized_header df)).1 f = Some c ->
  occurrences f (renamed_header iter df) = occurrences c (normalized_header df).
Proof.
  intros Hget.
  pose proof (renamed_header_bound iter iter_ok df f c Hget) as Hle.
  enough (occurrences f (renamed_header iter df)
          <= occurrences c (normalized_header df)) by lia.
  unfold renamed_header. apply occurrences_map_back.
  intros x Hx.
  destruct (rename_to_logical _ !! x) as [g |] eqn:Hren;
    unfold default, from_option, id.
  - intros ->. apply (rename_to_logical_lookup _ _ _ _ iter_ok) in Hren.
    congruence.
  - intros ->. pose proof (matched_Some _ _ _ _ Hget) as [Hf _].
    pose proof (exact_name_get iter _ _ Hf Hx) as Hex. congruence.
Qed.

Lemma all_bound_iff (columns : list string) :
  (_match_required_fields iter columns).2 = []
  <-> forall f, f ∈ logical_fields ->
        exists c, Dict.get (_match_required_fields iter columns).1 f = Some c.
Proof.
  split.
  - intros Hnil f Hf.
    destruct (Dict.get (_match_required_fields iter columns).1 f) as [c |] eqn:E;
      [eauto |].
    assert (Hm : f ∈ (_match_required_fields iter columns).2)
      by (apply missing_spec; auto).
    rewrite Hnil in Hm. inversion Hm.
  - intros Hall.
    destruct (_match_required_fields iter columns).2 as [| f l] eqn:E;
      [reflexivity |].
    assert (Hm : f ∈ (_match_required_fields iter columns).2)
      by (rewrite E; apply elem_of_cons; auto).
    apply missing_spec in Hm as [Hf Hnone].
    destruct (Hall f Hf) as [c Hc]. congruence.
Qed.

(** X11.  For a table that was read, [load_data] returns [ok] exactly when
    every logical field is bound and the column name each field is bound to
    labels one column only; [matched] then has the six fields as its keys,
    in the order of [logical_fields]. *)
Theorem load_ok_iff (df : DataFrame number) :
  ((exists df' d m,
       load_data parse_number number_repr iter (ReadTable df)
       = Return (Some df', ok, d, m))
   <-> forall f, f ∈ logical_fields ->
         exists c,
           Dict.get (_match_required_fields iter (normalized_header df)).1 f
           = Some c
           /\ occurrences c (normalized_header df) = 1)
  /\ (forall t d m,
        load_data parse_number number_repr iter (ReadTable df)
        = Return (t, ok, d, m) ->
        Dict.keys (_match_required_fields iter (normalized_header df)).1
        = logical_fields).
Proof.
  split; [split |].
  - intros (df' & d & m & Hret) f Hf.
    destruct (load_ok_inv _ _ _ _ _ _ _ Hret)
      as (Hnil & ib & ist & imo & ise & imc & iyc
          & Hb & Hst & Hmo & Hse & Hmc & Hyc & _).
    destruct (proj1 (all_bound_iff _) Hnil f Hf) as [c Hc].
    exists c. split; [exact Hc |].
    rewrite <- (renamed_occurrences df f c Hc), <- positions_length.
    unfold logical_fields in Hf.
    repeat (apply elem_of_cons in Hf as [-> | Hf]); try (inversion Hf; fail).
    + rewrite Hst. reflexivity.
    + rewrite Hmo. reflexivity.
    + rewrite Hmc. reflexivity.
    + rewrite Hyc. reflexivity.
    + rewrite Hse. reflexivity.
    + rewrite Hb. reflexivity.
  - intros Hall.
    assert (Hnil : (_match_required_fields iter (normalized_header df)).2 = []).
    { apply all_bound_iff. intros f Hf. destruct (Hall f Hf) as (c & Hc & _).
      eauto. }
    destruct (bind_table_ok parse_number number_repr iter iter_ok df Hnil)
      as [df' Hok].
    { intros f Hf. destruct (Hall f Hf) as (c & Hc & Hone).
      rewrite (renamed_occurrences df f c Hc). lia. }
    exists df', NoDetail, (Some (_match_required_fields iter (normalized_header df)).1).
    exact Hok.
  - intros t d m Hret. cbn [load_data] in Hret.
    assert (Hnil : (_match_required_fields iter (normalized_header df)).2 = []).
    { destruct (decide ((_match_required_fields iter (normalized_header df)).2 = []))
        as [H | H]; [exact H |].
      rewrite (bind_table_missing _ _ _ _ H) in Hret. discriminate Hret. }
    rewrite matched_keys_in_order.
    transitivity (List.filter (fun _ : string => true) logical_fields);
      [| reflexivity].
    apply filter_ext_in. intros f Hf%list_elem_of_In.
    destruct (proj1 (all_bound_iff _) Hnil f Hf) as [c Hc].
    unfold Dict.mem. rewrite Hc. reflexivity.
Qed.

End Outcomes.

Section Raising.

Context {number : Type}.
Variable parse_number : string -> option number.
Variable number_repr : number -> string.
Variable iter : gset string -> list string.
Hypothesis iter_ok : iteration_order iter.

Lemma coerce_numeric_Raise col (df : DataFrame number) e :
  coerce_numeric parse_number col df = Raise e ->
  (positions col (columns df) = [] /\ e = KeyError)
  \/ (2 <= length (positions col (columns df)) /\ e = TypeError).
Proof.
  unfold coerce_numeric, getitem.
  destruct (positions col (columns df)) as [| i [| j ps]]; cbn.
  - intros [= <-]. auto.
  - discriminate.
  - intros [= <-]. right. split; [lia | reflexivity].
Qed.

Lemma coerce_text_Raise col (df : DataFrame number) e :
  coerce_text number_repr df col = Raise e ->
  (positions col (columns df) = [] /\ e = KeyError)
  \/ (2 <= length (positions col (columns df)) /\ e = AttributeError).
Proof.
  unfold coerce_text, getitem.
  destruct (positions col (columns df)) as [| i [| j ps]]; cbn.
  - intros [= <-]. auto.
  - discriminate.
  - intros [= <-]. right. split; [lia | reflexivity].
Qed.

Lemma dropna_Raise col (df : DataFrame number) e :
  dropna df col = Raise e -> positions col (columns df) = [] /\ e = KeyError.
Proof.
  unfold dropna. destruct (positions col (columns df)); [| discriminate].
  intros [= <-]. auto.
Qed.

Lemma bind_table_Raise (df : DataFrame number) e :
  (_match_required_fields iter (normalized_header df)).2 = [] ->
  bind_table parse_number number_repr iter df = Raise e ->
  exists f, f ∈ logical_fields /\ raised_by iter df f e.
Proof.
  unfold raised_by, bind_table, renamed_header, normalized_header.
  cbn [columns rows].
  destruct (_match_required_fields iter _) as [matched missing]. cbn [fst snd].
  intros ->. unfold rename. cbn [columns rows].
  set (header := List.map _ (List.map _ _)).
  assert (Hin : forall f, bool_decide (f ∈ logical_fields) = true ->
                  f ∈ logical_fields)
    by (intros f; apply bool_decide_eq_true).
  destruct (coerce_numeric parse_number "births" _) as [df1 | e1] eqn:E1; cbn.
  2: { intros [= <-]. apply coerce_numeric_Raise in E1. cbn [columns] in E1.
       exists "births". split; [apply Hin; reflexivity | tauto]. }
  apply coerce_numeric_Return in E1 as (ib & Hib & ->). cbn [columns rows] in *.
  destruct (dropna _ "births") as [df2 | e2] eqn:E2; cbn.
  2: { intros [= <-]. apply dropna_Raise in E2. cbn [columns] in E2.
       exists "births". split; [apply Hin; reflexivity | tauto]. }
  eapply dropna_Return in E2; [| exact Hib]. subst df2. cbn [columns rows] in *.
  destruct (coerce_text number_repr _ "state_of_residence") as [df3 | e3] eqn:E3;
    cbn.
  2: { intros [= <-]. apply coerce_text_Raise in E3. cbn [columns] in E3.
       exists "state_of_residence". split; [apply Hin; reflexivity | tauto]. }
  apply coerce_text_Return in E3 as (ist & Hist & ->). cbn [columns rows] in *.
  destruct (coerce_text number_repr _ "month") as [df4 | e4] eqn:E4; cbn.
  2: { intros [= <-]. apply coerce_text_Raise in E4. cbn [columns] in E4.
       exists "month". split; [apply Hin; reflexivity | tauto]. }
  apply coerce_text_Return in E4 as (imo & Himo & ->). cbn [columns rows] in *.
  destruct (coerce_text number_repr _ "sex_of_infant") as [df5 | e5] eqn:E5; cbn.
  2: { intros [= <-]. apply coerce_text_Raise in E5. cbn [columns] in E5.
       exists "sex_of_infant". split; [apply Hin; reflexivity | tauto]. }
  apply coerce_text_Return in E5 as (ise & Hise & ->). cbn [columns rows] in *.
  destruct (coerce_numeric parse_number "month_code" _) as [df6 | e6] eqn:E6; cbn.
  2: { intros [= <-]. apply coerce_numeric_Raise in E6. cbn [columns] in E6.
       exists "month_code". split; [apply Hin; reflexivity | tauto]. }
  apply coerce_numeric_Return in E6 as (imc & Himc & ->). cbn [columns rows] in *.
  destruct (coerce_numeric parse_number "year_code" _) as [df7 | e7] eqn:E7; cbn.
  2: { intros [= <-]. apply coerce_numeric_Raise in E7. cbn [columns] in E7.
       exists "year_code". split; [apply Hin; reflexivity | tauto]. }
  discriminate.
Qed.

(** X12.  For a table that was read, [load_data] raises an exception
    exactly when every logical field is bound and the column name some field
    is bound to labels two or more columns; the exception is then
    [TypeError] or [AttributeError], never [KeyError]. *)
Theorem load_raises_iff (df : DataFrame number) :
  ((exists e,
       load_data parse_number number_repr iter (ReadTable df) = Raise e)
   <-> (forall f, f ∈ logical_fields ->
          exists c,
            Dict.get (_match_required_fields iter (normalized_header df)).1 f
            = Some c)
       /\ exists f c,
            Dict.get (_match_required_fields iter (normalized_header df)).1 f
            = Some c
            /\ 2 <= occurrences c (normalized_header df))
  /\ (forall e,
        load_data parse_number number_repr iter (ReadTable df) = Raise e ->
        e = TypeError \/ e = AttributeError).
Proof.
  cbn [load_data].
  assert (Hraise : forall e,
    bind_table parse_number number_repr iter df = Raise e ->
    (_match_required_fields iter (normalized_header df)).2 = []
    /\ (e = TypeError \/ e = AttributeError)
    /\ exists f c,
         Dict.get (_match_required_fields iter (normalized_header df)).1 f
         = Some c
         /\ 2 <= occurrences c (normalized_header df)).
  { intros e He.
    destruct (decide ((_match_required_fields iter (normalized_header df)).2 = []))
      as [Hnil | Hne];
      [| rewrite (bind_table_missing _ _ _ _ Hne) in He; discriminate He].
    split; [exact Hnil |].
    destruct (bind_table_Raise df e Hnil He) as (f & Hf & Hby).
    destruct (proj1 (all_bound_iff iter _) Hnil f Hf) as [c Hc].
    pose proof (renamed_occurrences iter iter_ok df f c Hc) as Hocc.
    pose proof (matched_Some _ _ _ _ Hc) as [_ Hres].
    apply (resolve_Some _ _ _ _ iter_ok) in Hres as [Hin _].
    apply occurrences_pos in Hin.
    rewrite <- positions_length in Hocc.
    destruct Hby as [[Hnone _] | [Htwo Hkind]].
    - rewrite Hnone in Hocc. simpl in Hocc. lia.
    - split; [exact Hkind |]. exists f, c. split; [exact Hc | lia]. }
  split; [split |].
  - intros [e He]. destruct (Hraise e He) as (Hnil & _ & Htwo).
    split; [apply all_bound_iff, Hnil | exact Htwo].
  - intros [Hall (f & c & Hc & Htwo)].
    destruct (bind_table parse_number number_repr iter df) as [res | e] eqn:E;
      [| eauto].
    exfalso.
    assert (Hnil : (_match_required_fields iter (normalized_header df)).2 = [])
      by (apply all_bound_iff, Hall).
    destruct (bind_table_bound _ _ _ _ _ Hnil E)
      as (ib & ist & imo & ise & imc & iyc
          & Hb & Hst & Hmo & Hse & Hmc & Hyc & _).
    pose proof (matched_Some _ _ _ _ Hc) as [Hf _].
    pose proof (renamed_occurrences iter iter_ok df f c Hc) as Hocc.
    rewrite <- positions_length in Hocc.
    unfold logical_fields in Hf.
    repeat (apply elem_of_cons in Hf as [-> | Hf]); try (inversion Hf; fail);
      [rewrite Hst in Hocc | rewrite Hmo in Hocc | rewrite Hmc in Hocc
       | rewrite Hyc in Hocc | rewrite Hse in Hocc | rewrite Hb in Hocc];
      simpl in Hocc; lia.
  - intros e He. apply (Hraise e He).
Qed.

End Raising.

Lemma load_ok_iff_witness :
  iteration_order elements
  /\ Dict.keys
       (_match_required_fields elements (normalized_header aliased_table)).1
     = logical_fields.
Proof.
  split; [exact iteration_order_elements |].
  exact (proj2 (load_ok_iff parse_decimal decimal_repr elements
                  iteration_order_elements aliased_table)
           _ _ _ aliased_table_loads).
Defined.

Lemma load_raises_iff_witness :
  iteration_order elements
  /\ forall e,
       load_data parse_decimal decimal_repr elements
         (ReadTable (repeated_births_header []))
       = Raise e ->
       e = TypeError \/ e = AttributeError.
Proof.
  split; [exact iteration_order_elements |].
  exact (proj2 (load_raises_iff parse_decimal decimal_repr elements
                  iteration_order_elements (repeated_births_header []))).
Defined.

(** ** Loader: the returned table *)

Section Returned.

Context {number : Type}.
Variable parse_number : string -> option number.
Variable number_repr : number -> string.
Variable iter : gset string -> list string.
Hypothesis iter_ok : iteration_order iter.

Lemma numeric_at_lookup_ne i j (r : list (cell number)) :
  i <> j -> numeric_at parse_number i r !! j = r !! j.
Proof. intros H. apply list_lookup_insert_ne, H. Qed.

Lemma text_at_lookup_ne i j (r : list (cell number)) :
  i <> j -> text_at number_repr i r !! j = r !! j.
Proof. intros H. apply list_lookup_insert_ne, H. Qed.

Lemma coerced_row_other ib ist imo ise imc iyc j (r : list (cell number)) :
  j ∉ [ib; ist; imo; ise; imc; iyc] ->
  coerced_row parse_number number_repr ib ist imo ise imc iyc r !! j = r !! j.
Proof.
  intros Hj. unfold coerced_row.
  repeat (apply not_elem_of_cons in Hj as [? Hj]).
  rewrite !numeric_at_lookup_ne, !text_at_lookup_ne, numeric_at_lookup_ne
    by congruence.
  reflexivity.
Qed.

(** X13.  When [load_data] returns [ok], the table keeps its shape: it has
    as many columns as the file, every kept row keeps its length, and every
    cell under a column whose final name is not a logical field is exactly
    the cell of the file; a rectangular table stays rectangular. *)
Theorem other_cells_untouched (df df' : DataFrame number) d m :
  load_data parse_number number_repr iter (ReadTable df)
  = Return (Some df', ok, d, m) ->
  length (columns df') = length (columns df)
  /\ (exists ib,
        bound_at iter df "births" ib
        /\ Forall2
             (fun r r' =>
                length r' = length r
                /\ forall j,
                     (forall f, f ∈ logical_fields ->
                                columns df' !! j <> Some f) ->
                     r' !! j = r !! j)
             (List.filter
                (fun r => negb (fails_coercion parse_number (r !!! ib)))
                (rows df))
             (rows df'))
  /\ (rectangular df -> rectangular df').
Proof.
  intros Hret.
  destruct (load_ok_inv _ _ _ _ _ _ _ Hret)
    as (Hnil & ib & ist & imo & ise & imc & iyc
        & Hb & Hst & Hmo & Hse & Hmc & Hyc & -> & _ & _).
  cbn [columns rows].
  assert (Hwidth : length (renamed_header iter df) = length (columns df))
    by (unfold renamed_header, normalized_header; rewrite !length_map; reflexivity).
  rewrite coerced_rows_alt.
  split; [exact Hwidth |]. split.
  - exists ib.
    split; [apply (renamed_position iter iter_ok);
            [by_compute | apply positions_singleton, Hb] |].
    induction (List.filter _ (rows df)) as [| r rs IH]; simpl; constructor;
      [| exact IH].
    split; [apply coerced_row_length |].
    intros j Hj. apply coerced_row_other.
    apply positions_singleton in Hb, Hst, Hmo, Hse, Hmc, Hyc.
    rewrite !not_elem_of_cons. repeat split; try apply not_elem_of_nil;
      intros ->; eapply Hj; try eassumption; by_compute.
  - unfold rectangular. cbn [columns rows]. rewrite !Forall_forall.
    intros Hrect r' Hr'. rewrite Hwidth.
    apply list_elem_of_In, in_map_iff in Hr' as (r & <- & Hr).
    rewrite coerced_row_length. apply Hrect.
    apply filter_In in Hr as [Hr _]. apply list_elem_of_In, Hr.
Qed.

End Returned.

Lemma other_cells_untouched_witness :
  iteration_order elements
  /\ load_data parse_decimal decimal_repr elements (ReadTable aliased_table)
     = Return (Some aliased_table_loaded, ok, NoDetail,
               Some aliased_table_matched)
  /\ length (columns aliased_table_loaded) = length (columns aliased_table)
  /\ (rectangular aliased_table -> rectangular aliased_table_loaded).
Proof.
  split; [exact iteration_order_elements |].
  split; [exact aliased_table_loads |].
  pose proof (other_cells_untouched parse_decimal decimal_repr elements
                iteration_order_elements aliased_table aliased_table_loaded
                NoDetail (Some aliased_table_matched) aliased_table_loads)
    as (H1 & _ & H3).
  split; [exact H1 | exact H3].
Defined.

Lemma strip_strip s : Str.strip (Str.strip s) = Str.strip s.
Proof. apply edge_free_strip, strip_edge_free. Qed.

Section Typed.

Context {number : Type}.
Variable parse_number : string -> option number.
Variable number_repr : number -> string.
Variable iter : gset string -> list string.

Lemma to_numeric_cell_not_text (c : cell number) s :
  to_numeric_cell parse_number c <> Txt s.
Proof.
  destruct c as [| t | n]; simpl; try discriminate.
  destruct (parse_number t); discriminate.
Qed.

Lemma to_numeric_cell_present (c : cell number) :
  notna (to_numeric_cell parse_number c) = true ->
  exists n, to_numeric_cell parse_number c = Num n.
Proof.
  destruct (to_numeric_cell parse_number c) as [| t | n] eqn:E;
    [discriminate | | eauto].
  destruct (to_numeric_cell_not_text c t E).
Qed.

End Typed.

(** ** Filters of the page *)

Section PageFacts.

Context {number : Type}.
Variable parse_number : string -> option number.
Variable number_repr : number -> string.
Variable iter : gset string -> list string.

Lemma filter_unless_all_unique label selected (df : DataFrame number) i :
  positions label (columns df) = [i] ->
  filter_unless_all label selected df
  = Some (mkDataFrame (columns df)
            (List.filter (fun r => selected_by selected (r !!! i)) (rows df))).
Proof.
  intros Hpos. unfold filter_unless_all, selected_by, filter_isin.
  destruct (bool_decide ("All" ∈ selected)); simpl.
  - destruct df as [cols rs]. cbn [columns rows]. clear Hpos. f_equal. f_equal.
    symmetry. induction rs as [| r rs IH]; simpl; [reflexivity |].
    rewrite IH. reflexivity.
  - rewrite Hpos. reflexivity.
Qed.

(** X15.  On a table in which [month], [sex_of_infant] and
    [state_of_residence] each label one column, the three filters keep, in
    order, exactly the rows that pass all three selections, where a
    selection lets a row pass when it contains "All" or contains the row's
    text; the columns are unchanged. *)
Theorem filters_characterised (df : DataFrame number)
    (months genders states : list string) (imo ise ist : nat) :
  positions "month" (columns df) = [imo] ->
  positions "sex_of_infant" (columns df) = [ise] ->
  positions "state_of_residence" (columns df) = [ist] ->
  apply_filters df months genders states
  = Some (mkDataFrame (columns df)
            (List.filter
               (fun r =>
                  selected_by months (r !!! imo)
                  && selected_by genders (r !!! ise)
                  && selected_by states (r !!! ist))
               (rows df))).
Proof.
  intros Hmo Hse Hst. unfold apply_filters.
  rewrite (filter_unless_all_unique _ _ _ imo Hmo). cbn [mbind option_bind].
  rewrite (filter_unless_all_unique _ _ _ ise) by exact Hse.
  cbn [mbind option_bind columns rows].
  rewrite (filter_unless_all_unique _ _ _ ist) by exact Hst.
  cbn [mbind option_bind columns rows].
  rewrite !filter_twice. do 2 f_equal. apply filter_ext. intros r.
  destruct (selected_by months _), (selected_by genders _),
    (selected_by states _); reflexivity.
Qed.

(** A selection that contains "All" does not filter, also when it
    contains other values: with "All" in all three selections the table is
    left as it is, whatever its columns are. *)
Theorem all_selected_keeps_table (df : DataFrame number)
    (months genders states : list string) :
  "All" ∈ months -> "All" ∈ genders -> "All" ∈ states ->
  apply_filters df months genders states = Some df.
Proof.
  intros Hm Hg Hs. unfold apply_filters, filter_unless_all.
  rewrite !bool_decide_eq_true_2 by assumption. reflexivity.
Qed.

(** X17.  A selection without "All" keeps only rows whose text is one of
    the selected values: an empty selection leaves no row, and a row with a
    missing value or a number in the filtered column is dropped. *)
Theorem selection_without_all (df filtered : DataFrame number)
    (selected : list string) (label : string) :
  "All" ∉ selected ->
  filter_unless_all label selected df = Some filtered ->
  exists i,
    positions label (columns df) = [i]
    /\ columns filtered = columns df
    /\ (forall r, r ∈ rows filtered <->
                  r ∈ rows df /\ exists s, r !!! i = Txt s /\ s ∈ selected)
    /\ (selected = [] -> rows filtered = []).
Proof.
  intros Hall. unfold filter_unless_all, filter_isin.
  rewrite bool_decide_eq_false_2 by exact Hall.
  destruct (positions label (columns df)) as [| i [| j ps]]; try discriminate.
  intros [= <-]. exists i. cbn [columns rows].
  split; [reflexivity |]. split; [reflexivity |].
  assert (Hrow : forall r, r ∈ List.filter (fun r => isin_cell selected (r !!! i)) (rows df)
                 <-> r ∈ rows df /\ exists s, r !!! i = Txt s /\ s ∈ selected).
  { intros r. rewrite list_elem_of_In, filter_In, <- list_elem_of_In.
    unfold isin_cell. destruct (r !!! i) as [| s | n].
    - split; [intros [_ H]; discriminate | intros [_ (s & H & _)]; discriminate].
    - rewrite bool_decide_eq_true. split.
      + intros [Hr Hs]. eauto.
      + intros [Hr (s' & [= <-] & Hs)]. auto.
    - split; [intros [_ H]; discriminate | intros [_ (s & H & _)]; discriminate]. }
  split; [exact Hrow |].
  intros ->.
  destruct (List.filter _ (rows df)) as [| r rs] eqn:E; [reflexivity |].
  assert (Hr : r ∈ r :: rs) by (apply elem_of_cons; auto).
  apply Hrow in Hr as [_ (s & _ & Hs)]. inversion Hs.
Qed.

End PageFacts.

(** ** The [while] loop of the normaliser computes a single pass *)

Lemma squeeze_cons c d s :
  squeeze_underscores (String c (String d s))
  = if Char.is_underscore c && Char.is_underscore d
    then squeeze_underscores (String d s)
    else String c (squeeze_underscores (String d s)).
Proof. reflexivity. Qed.

Lemma replace_dunder_cons c d s :
  Str.replace_dunder (String c (String d s))
  = if Char.is_underscore c && Char.is_underscore d
    then String Char.underscore (Str.replace_dunder s)
    else String c (Str.replace_dunder (String d s)).
Proof. reflexivity. Qed.

Lemma replace_dunder_head c s :
  exists r, Str.replace_dunder (String c s) = String c r.
Proof.
  destruct (replace_dunder_edges_upto (String.length s) c s) as (r & Hr & _);
    [lia | eauto].
Qed.

Lemma squeeze_replace_dunder_upto n : forall s,
  String.length s <= n ->
  squeeze_underscores (Str.replace_dunder s) = squeeze_underscores s.
Proof.
  induction n as [| n IH]; intros s Hn.
  - destruct s; [reflexivity | simpl in Hn; lia].
  - destruct s as [| c [| d s]]; try reflexivity.
    simpl in Hn. rewrite replace_dunder_cons, squeeze_cons.
    destruct (Char.is_underscore c && Char.is_underscore d) eqn:Hu.
    + apply underscore_pair in Hu as [-> ->].
      destruct s as [| e s]; [reflexivity |].
      destruct (replace_dunder_head e s) as [r Hr].
      pose proof (IH (String e s)) as IHs. rewrite Hr in IHs |- *.
      rewrite !squeeze_cons, IHs by (simpl in *; lia). reflexivity.
    + destruct (replace_dunder_head d s) as [r Hr].
      pose proof (IH (String d s)) as IHs. rewrite Hr in IHs |- *.
      rewrite squeeze_cons, Hu, IHs by (simpl; lia). reflexivity.
Qed.

Lemma squeeze_no_dunder_upto n : forall s,
  String.length s <= n ->
  Str.contains_dunder s = false -> squeeze_underscores s = s.
Proof.
  induction n as [| n IH]; intros s Hn.
  - destruct s; [reflexivity | simpl in Hn; lia].
  - destruct s as [| c [| d s]]; try reflexivity.
    simpl in Hn. rewrite squeeze_cons.
    change (Str.contains_dunder (String c (String d s)))
      with ((Char.is_underscore c && Char.is_underscore d)
            || Str.contains_dunder (String d s)).
    intros [Hu Hc]%orb_false_elim. rewrite Hu, IH by (simpl; auto; lia).
    reflexivity.
Qed.

Lemma squeeze_collapse_loop fuel : forall s,
  squeeze_underscores (collapse_loop fuel s) = squeeze_underscores s.
Proof.
  induction fuel as [| k IH]; intros s; simpl; [reflexivity |].
  destruct (Str.contains_dunder s); [| reflexivity].
  rewrite IH. apply (squeeze_replace_dunder_upto (String.length s)). lia.
Qed.

(** X18.  The normalised name is the trimmed, lower-cased name with spaces
    turned into underscores and every run of underscores reduced to a single
    one: the repeated [replace("__", "_")] of the [while] loop comes to one
    pass of run compression. *)
Theorem normalize_is_squeeze (raw : string) :
  _normalize_col_name raw
  = squeeze_underscores (Str.replace_space (Str.lower (Str.strip raw))).
Proof.
  rewrite <- (squeeze_collapse_loop
                (String.length (Str.replace_space (Str.lower (Str.strip raw))))).
  fold (_normalize_col_name raw). symmetry.
  apply (squeeze_no_dunder_upto (String.length (_normalize_col_name raw)));
    [lia | apply normalize_loop_exits].
Qed.

(** ** Instances of the page properties *)

Lemma filters_characterised_witness :
  positions "month" (columns aliased_table_loaded) = [1]
  /\ positions "sex_of_infant" (columns aliased_table_loaded) = [4]
  /\ positions "state_of_residence" (columns aliased_table_loaded) = [0]
  /\ apply_filters aliased_table_loaded ["January"] ["All"; "Male"]
       ["Ohio"; "Utah"]
     = Some (mkDataFrame (columns aliased_table_loaded)
               (List.filter
                  (fun r =>
                     selected_by ["January"] (r !!! 1)
                     && selected_by ["All"; "Male"] (r !!! 4)
                     && selected_by ["Ohio"; "Utah"] (r !!! 0))
                  (rows aliased_table_loaded))).
Proof.
  assert (H1 : positions "month" (columns aliased_table_loaded) = [1])
    by reflexivity.
  assert (H2 : positions "sex_of_infant" (columns aliased_table_loaded) = [4])
    by reflexivity.
  assert (H3 : positions "state_of_residence" (columns aliased_table_loaded)
               = [0]) by reflexivity.
  repeat (split; [assumption |]).
  exact (filters_characterised aliased_table_loaded _ _ _ 1 4 0 H1 H2 H3).
Defined.

Lemma all_selected_keeps_table_witness :
  "All" ∈ ["All"] /\ "All" ∈ ["Male"; "All"] /\ "All" ∈ ["All"; "Ohio"]
  /\ apply_filters two_state_columns ["All"] ["Male"; "All"] ["All"; "Ohio"]
     = Some two_state_columns.
Proof.
  assert (H1 : "All" ∈ ["All"]) by by_compute.
  assert (H2 : "All" ∈ ["Male"; "All"]) by by_compute.
  assert (H3 : "All" ∈ ["All"; "Ohio"]) by by_compute.
  repeat (split; [assumption |]).
  exact (all_selected_keeps_table two_state_columns _ _ _ H1 H2 H3).
Defined.

Lemma selection_without_all_witness :
  ("All" ∉ ["Female"])
  /\ filter_unless_all "sex_of_infant" ["Female"] aliased_table_loaded
     = Some (mkDataFrame (columns aliased_table_loaded)
               [[Txt "Ohio"; Txt "January"; Num 1%N; Num 2025%N;
                 Txt "Female"; Num 5000%N]])
  /\ exists i,
       positions "sex_of_infant" (columns aliased_table_loaded) = [i]
       /\ forall r,
            r ∈ [[Txt "Ohio"; Txt "January"; Num 1%N; Num 2025%N;
                  Txt "Female"; Num 5000%N]]
            <-> r ∈ rows aliased_table_loaded
                /\ exists s, r !!! i = Txt s /\ s ∈ ["Female"].
Proof.
  assert (H1 : "All" ∉ ["Female"]) by by_compute.
  assert (H2 : filter_unless_all "sex_of_infant" ["Female"]
                 aliased_table_loaded
               = Some (mkDataFrame (columns aliased_table_loaded)
                         [[Txt "Ohio"; Txt "January"; Num 1%N; Num 2025%N;
                           Txt "Female"; Num 5000%N]]))
    by (vm_compute; reflexivity).
  split; [exact H1 |]. split; [exact H2 |].
  destruct (selection_without_all aliased_table_loaded _ ["Female"]
              "sex_of_infant" H1 H2) as (i & Hi & _ & Hrows & _).
  exists i. split; [exact Hi | exact Hrows].
Defined.

(** A file with columns beyond the six fields, none of them repeated. *)
Lemma load_returns_status_witness :
  iteration_order elements
  /\ NoDup (normalized_header aliased_table)
  /\ exists t st d m,
       load_data parse_decimal decimal_repr elements (ReadTable aliased_table)
       = Return (t, st, d, m)
       /\ (st = ok \/ st = missing_columns).
Proof.
  assert (H : NoDup (normalized_header aliased_table)) by by_compute.
  split; [exact iteration_order_elements |]. split; [exact H |].
  exact (load_returns_status parse_decimal decimal_repr elements
           iteration_order_elements (ReadTable aliased_table) H).
Defined.

(** * Case folding, pandas versions and the end of the page *)

(** ** Case that is not character by character *)


(** ** The loader under either behaviour of [astype(str)] *)

Section AnyVersion.

Context {number : Type}.
Variable legacy : bool.
Variable parse_number : string -> option number.
Variable number_repr : number -> string.
Variable iter : gset string -> list string.

Lemma strip_astype_str_cell (c : cell number) :
  strip_cell (astype_str_cell legacy number_repr c)
  = text_cell legacy number_repr c.
Proof. destruct c as [| s | n]; [destruct legacy |..]; reflexivity. Qed.

Lemma coerce_text_with_Return col (df df' : DataFrame number) :
  coerce_text_with legacy number_repr df col = Return df' ->
  exists i, positions col (columns df) = [i]
    /\ df' = mkDataFrame (columns df)
               (List.map (text_at_with legacy number_repr i) (rows df)).
Proof.
  unfold coerce_text_with, getitem, setitem.
  destruct (positions col (columns df)) as [| i [| j ps]];
    cbn; try discriminate.
  intros [= <-]. exists i. split; [reflexivity |].
  f_equal. rewrite !map_map, zip_with_map_self. apply map_ext. intros r.
  unfold text_at_with. rewrite strip_astype_str_cell. reflexivity.
Qed.

(** The rows after lines 112-119, given the positions of the six bound
    columns. *)
Lemma bind_table_with_bound (df : DataFrame number) res :
  (_match_required_fields iter (normalized_header df)).2 = [] ->
  bind_table_with legacy parse_number number_repr iter df = Return res ->
  exists ib ist imo ise imc iyc,
    positions "births" (renamed_header iter df) = [ib]
    /\ positions "state_of_residence" (renamed_header iter df) = [ist]
    /\ positions "month" (renamed_header iter df) = [imo]
    /\ positions "sex_of_infant" (renamed_header iter df) = [ise]
    /\ positions "month_code" (renamed_header iter df) = [imc]
    /\ positions "year_code" (renamed_header iter df) = [iyc]
    /\ res = (Some (mkDataFrame (renamed_header iter df)
                      (List.map
                         (coerced_row_with legacy parse_number number_repr
                            ib ist imo ise imc iyc)
                         (List.filter
                            (fun r =>
                               negb (fails_coercion parse_number (r !!! ib)))
                            (rows df)))),
              ok, NoDetail,
              Some (_match_required_fields iter (normalized_header df)).1).
Proof.
  unfold bind_table_with, renamed_header, normalized_header. cbn [columns rows].
  destruct (_match_required_fields iter _) as [matched missing]. cbn [fst snd].
  intros ->. unfold rename. cbn [columns rows].
  set (header := List.map _ (List.map _ _)).
  destruct (coerce_numeric parse_number "births" _) as [df1 |] eqn:E1;
    cbn; [| discriminate].
  apply coerce_numeric_Return in E1 as (ib & Hib & ->). cbn [columns rows] in *.
  destruct (dropna _ "births") as [df2 |] eqn:E2; cbn; [| discriminate].
  eapply dropna_Return in E2; [| exact Hib]. subst df2. cbn [columns rows] in *.
  destruct (coerce_text_with legacy number_repr _ "state_of_residence")
    as [df3 |] eqn:E3; cbn; [| discriminate].
  apply coerce_text_with_Return in E3 as (ist & Hist & ->).
  cbn [columns rows] in *.
  destruct (coerce_text_with legacy number_repr _ "month") as [df4 |] eqn:E4;
    cbn; [| discriminate].
  apply coerce_text_with_Return in E4 as (imo & Himo & ->).
  cbn [columns rows] in *.
  destruct (coerce_text_with legacy number_repr _ "sex_of_infant")
    as [df5 |] eqn:E5; cbn; [| discriminate].
  apply coerce_text_with_Return in E5 as (ise & Hise & ->).
  cbn [columns rows] in *.
  destruct (coerce_numeric parse_number "month_code" _) as [df6 |] eqn:E6;
    cbn; [| discriminate].
  apply coerce_numeric_Return in E6 as (imc & Himc & ->). cbn [columns rows] in *.
  destruct (coerce_numeric parse_number "year_code" _) as [df7 |] eqn:E7;
    cbn; [| discriminate].
  apply coerce_numeric_Return in E7 as (iyc & Hiyc & ->). cbn [columns rows] in *.
  intros [= <-]. exists ib, ist, imo, ise, imc, iyc.
  repeat (split; [assumption |]).
  do 4 f_equal. rewrite !map_map, filter_map_swap, map_map.
  unfold coerced_row_with, fails_coercion.
  rewrite (filter_ext
             (fun r : list (cell number) =>
                notna (numeric_at parse_number ib r !!! ib))
             (fun r =>
                negb (negb (notna (to_numeric_cell parse_number (r !!! ib))))));
    [reflexivity |].
  intros r. rewrite (notna_numeric_at parse_number), negb_involutive.
  reflexivity.
Qed.

Lemma bind_table_with_missing (df : DataFrame number) :
  (_match_required_fields iter (normalized_header df)).2 <> [] ->
  bind_table_with legacy parse_number number_repr iter df
  = Return (Some (mkDataFrame (normalized_header df) (rows df)),
            missing_columns,
            Missing (_match_required_fields iter (normalized_header df)).2,
            Some (_match_required_fields iter (normalized_header df)).1).
Proof.
  unfold bind_table_with, normalized_header. cbn [columns rows].
  destruct (_match_required_fields iter _) as [matched missing]. cbn [fst snd].
  destruct missing; [congruence | reflexivity].
Qed.

Lemma load_with_ok_inv (df df' : DataFrame number) d m :
  load_data_with legacy parse_number number_repr iter (ReadTable df)
  = Return (Some df', ok, d, m) ->
  exists ib ist imo ise imc iyc,
    positions "births" (renamed_header iter df) = [ib]
    /\ positions "state_of_residence" (renamed_header iter df) = [ist]
    /\ positions "month" (renamed_header iter df) = [imo]
    /\ positions "sex_of_infant" (renamed_header iter df) = [ise]
    /\ positions "month_code" (renamed_header iter df) = [imc]
    /\ positions "year_code" (renamed_header iter df) = [iyc]
    /\ df' = mkDataFrame (renamed_header iter df)
               (List.map
                  (coerced_row_with legacy parse_number number_repr
                     ib ist imo ise imc iyc)
                  (List.filter
                     (fun r => negb (fails_coercion parse_number (r !!! ib)))
                     (rows df))).
Proof.
  cbn [load_data_with]. intros Hret.
  destruct (decide ((_match_required_fields iter (normalized_header df)).2 = []))
    as [Hnil | Hne].
  - destruct (bind_table_with_bound _ _ Hnil Hret)
      as (ib & ist & imo & ise & imc & iyc & H1 & H2 & H3 & H4 & H5 & H6 & Hres).
    exists ib, ist, imo, ise, imc, iyc. inversion Hres. auto 10.
  - rewrite (bind_table_with_missing _ Hne) in Hret. discriminate Hret.
Qed.

Lemma text_at_with_length i (r : list (cell number)) :
  length (text_at_with legacy number_repr i r) = length r.
Proof. apply length_insert. Qed.

Lemma text_at_with_ne i j (r : list (cell number)) :
  i <> j -> text_at_with legacy number_repr i r !!! j = r !!! j.
Proof. intros H. apply list_lookup_total_insert_ne, H. Qed.

Lemma text_at_with_eq i (r : list (cell number)) :
  i < length r ->
  text_at_with legacy number_repr i r !!! i
  = text_cell legacy number_repr (r !!! i).
Proof. intros H. apply list_lookup_total_insert_eq, H. Qed.

Lemma coerced_row_with_length ib ist imo ise imc iyc (r : list (cell number)) :
  length (coerced_row_with legacy parse_number number_repr
            ib ist imo ise imc iyc r) = length r.
Proof.
  unfold coerced_row_with.
  rewrite !numeric_at_length, !text_at_with_length, numeric_at_length.
  reflexivity.
Qed.

Lemma coerced_row_with_cells ib ist imo ise imc iyc (r : list (cell number)) :
  distinct_positions ib ist imo ise imc iyc ->
  let r' := coerced_row_with legacy parse_number number_repr
              ib ist imo ise imc iyc r in
  r' !!! ib = to_numeric_cell parse_number (r !!! ib)
  /\ r' !!! imc = to_numeric_cell parse_number (r !!! imc)
  /\ r' !!! iyc = to_numeric_cell parse_number (r !!! iyc)
  /\ (ist < length r -> r' !!! ist = text_cell legacy number_repr (r !!! ist))
  /\ (imo < length r -> r' !!! imo = text_cell legacy number_repr (r !!! imo))
  /\ (ise < length r -> r' !!! ise = text_cell legacy number_repr (r !!! ise)).
Proof.
  unfold distinct_positions. intros Hnd.
  repeat match goal with
         | H : NoDup (_ :: _) |- _ =>
             apply NoDup_cons in H as [? H];
             repeat match goal with
                    | N : _ ∉ _ :: _ |- _ => apply not_elem_of_cons in N as [? N]
                    end
         end.
  cbv zeta. unfold coerced_row_with.
  repeat split; try intros Hlt;
    repeat first
      [ rewrite numeric_at_eq
      | rewrite text_at_with_eq
          by (rewrite ?text_at_with_length, ?numeric_at_length; exact Hlt)
      | rewrite numeric_at_ne by congruence
      | rewrite text_at_with_ne by congruence ];
    reflexivity.
Qed.

End AnyVersion.

(** [load_data] is the loader with the behaviour before pandas 3.0. *)
Lemma load_data_with_legacy {number} (parse_number : string -> option number)
    (number_repr : number -> string) (iter : gset string -> list string)
    (read : read_csv_result number) :
  load_data_with true parse_number number_repr iter read
  = load_data parse_number number_repr iter read.
Proof.
  assert (Htext : forall (df : DataFrame number) col,
    coerce_text_with true number_repr df col = coerce_text number_repr df col).
  { intros df col. unfold coerce_text_with, coerce_text.
    destruct (getitem df col) as [[values | ps] | e]; try reflexivity.
    cbn. rewrite (map_ext (astype_str_cell true number_repr)
                    (fun c => Txt (str_of_cell number_repr c)));
      [reflexivity |].
    intros [| s | n]; reflexivity. }
  assert (Htexts : forall cols (df : DataFrame number),
    coerce_texts_with true number_repr cols df
    = coerce_texts number_repr cols df).
  { induction cols as [| col cols IH]; intros df; [reflexivity |].
    cbn [coerce_texts_with coerce_texts]. rewrite Htext.
    destruct (coerce_text number_repr df col) as [df1 | e]; cbn;
      [apply IH | reflexivity]. }
  destruct read as [df | | msg]; try reflexivity.
  cbn [load_data_with load_data]. unfold bind_table_with, bind_table.
  destruct (_match_required_fields iter _) as [matched [| f missing]];
    [| reflexivity].
  destruct (coerce_numeric parse_number "births" _) as [df1 | e];
    cbn [mbind outcome_bind]; [| reflexivity].
  destruct (dropna df1 "births") as [df2 | e]; cbn [mbind outcome_bind];
    [| reflexivity].
  rewrite Htexts. reflexivity.
Qed.

(** ** Text columns and the version of pandas: claim C10 *)

(** C10, as stated, fails with pandas 3: the table of scenario 2 is
    returned with [ok], and the row whose month and sex were missing in the
    file still has missing values there. *)
Lemma missing_text_stays_missing_pandas3 :
  load_data_with false parse_decimal decimal_repr elements
    (ReadTable aliased_table)
  = Return (Some aliased_table_loaded_pandas3, ok, NoDetail,
            Some aliased_table_matched)
  /\ positions "month" (columns aliased_table_loaded_pandas3) = [1]
  /\ positions "sex_of_infant" (columns aliased_table_loaded_pandas3) = [4]
  /\ exists r',
       rows aliased_table_loaded_pandas3 !! 1 = Some r'
       /\ r' !! 1 = Some NaN /\ r' !! 4 = Some NaN.
Proof.
  split; [vm_compute; reflexivity |].
  split; [reflexivity |]. split; [reflexivity |].
  eexists. split; [reflexivity |]. split; reflexivity.
Qed.

Section TextColumns.

Context {number : Type}.
Variable legacy : bool.
Variable parse_number : string -> option number.
Variable number_repr : number -> string.
Variable iter : gset string -> list string.
Hypothesis iter_ok : iteration_order iter.

(** C10, amended.  When the loader returns [ok] for a rectangular table,
    every cell of the three text columns of a returned row is determined by
    the cell of the file: text and numbers become their stripped text; a
    missing value becomes the text [nan] with the [astype(str)] of pandas
    before 3.0 and stays missing with that of pandas 3. *)
Theorem text_columns_by_pandas_version (df df' : DataFrame number) d m :
  rectangular df ->
  load_data_with legacy parse_number number_repr iter (ReadTable df)
  = Return (Some df', ok, d, m) ->
  exists ib ist imo ise,
    bound_at iter df "births" ib
    /\ bound_at iter df "state_of_residence" ist /\ bound_at iter df "month" imo
    /\ bound_at iter df "sex_of_infant" ise
    /\ positions "state_of_residence" (columns df') = [ist]
    /\ positions "month" (columns df') = [imo]
    /\ positions "sex_of_infant" (columns df') = [ise]
    /\ Forall2
         (fun r r' =>
            forall i, i ∈ [ist; imo; ise] ->
              r' !! i = Some (text_cell legacy number_repr (r !!! i))
              /\ (r !!! i = NaN ->
                  r' !! i = Some (if legacy then Txt "nan" else NaN))
              /\ (r !!! i <> NaN -> exists s, r' !! i = Some (Txt s)))
         (List.filter
            (fun r => negb (fails_coercion parse_number (r !!! ib)))
            (rows df))
         (rows df').
Proof.
  intros Hrect Hret.
  destruct (load_with_ok_inv _ _ _ _ _ _ _ _ Hret)
    as (ib & ist & imo & ise & imc & iyc
        & Hb & Hst & Hmo & Hse & Hmc & Hyc & ->).
  pose proof (positions_distinct _ _ _ _ _ _ _ Hb Hst Hmo Hse Hmc Hyc) as Hnd.
  exists ib, ist, imo, ise. cbn [rows columns].
  split; [apply (renamed_position iter iter_ok);
          [by_compute | apply positions_singleton, Hb] |].
  split; [apply (renamed_position iter iter_ok);
          [by_compute | apply positions_singleton, Hst] |].
  split; [apply (renamed_position iter iter_ok);
          [by_compute | apply positions_singleton, Hmo] |].
  split; [apply (renamed_position iter iter_ok);
          [by_compute | apply positions_singleton, Hse] |].
  do 3 (split; [assumption |]).
  assert (Hwidth : length (renamed_header iter df) = length (columns df))
    by (unfold renamed_header, normalized_header; rewrite !length_map; reflexivity).
  assert (Hlt : forall i, i ∈ [ist; imo; ise] -> i < length (columns df)).
  { intros i Hi. rewrite <- Hwidth.
    repeat (apply elem_of_cons in Hi as [-> | Hi]); try (inversion Hi; fail);
      eapply lookup_lt_Some, positions_singleton; eassumption. }
  assert (Hsub : Forall (fun r => length r = length (columns df))
                   (List.filter
                      (fun r => negb (fails_coercion parse_number (r !!! ib)))
                      (rows df))).
  { apply Forall_forall. intros r Hr.
    apply list_elem_of_In, filter_In in Hr as [Hr _]. apply list_elem_of_In in Hr.
    unfold rectangular in Hrect. rewrite Forall_forall in Hrect. auto. }
  clear Hret.
  induction Hsub as [| r rs Hr _ IH]; simpl; constructor; [| exact IH].
  intros i Hi.
  assert (Hcell : coerced_row_with legacy parse_number number_repr
                    ib ist imo ise imc iyc r !! i
                  = Some (text_cell legacy number_repr (r !!! i))).
  { destruct (coerced_row_with_cells legacy parse_number number_repr
                _ _ _ _ _ _ r Hnd) as (_ & _ & _ & H1 & H2 & H3).
    pose proof (Hlt i Hi) as Hi_lt.
    rewrite (list_lookup_lookup_total_lt _ i)
      by (rewrite coerced_row_with_length, Hr; exact Hi_lt).
    f_equal.
    repeat (apply elem_of_cons in Hi as [-> | Hi]); try (inversion Hi; fail);
      [apply H1 | apply H2 | apply H3]; rewrite Hr; exact Hi_lt. }
  split; [exact Hcell |]. split.
  - intros Hna. rewrite Hcell, Hna. reflexivity.
  - intros Hpresent. rewrite Hcell.
    destruct (r !!! i) as [| s | n]; [congruence | |]; simpl; eauto.
Qed.

End TextColumns.

Lemma text_columns_by_pandas_version_witness :
  iteration_order elements
  /\ rectangular aliased_table
  /\ load_data_with false parse_decimal decimal_repr elements
       (ReadTable aliased_table)
     = Return (Some aliased_table_loaded_pandas3, ok, NoDetail,
               Some aliased_table_matched)
  /\ exists ib ist imo ise,
       bound_at elements aliased_table "births" ib
       /\ bound_at elements aliased_table "state_of_residence" ist
       /\ bound_at elements aliased_table "month" imo
       /\ bound_at elements aliased_table "sex_of_infant" ise
       /\ positions "state_of_residence" (columns aliased_table_loaded_pandas3)
          = [ist]
       /\ positions "month" (columns aliased_table_loaded_pandas3) = [imo]
       /\ positions "sex_of_infant" (columns aliased_table_loaded_pandas3)
          = [ise]
       /\ Forall2
            (fun r r' =>
               forall i, i ∈ [ist; imo; ise] ->
                 r' !! i = Some (text_cell false decimal_repr (r !!! i))
                 /\ (r !!! i = NaN -> r' !! i = Some NaN)
                 /\ (r !!! i <> NaN -> exists s, r' !! i = Some (Txt s)))
            (List.filter
               (fun r => negb (fails_coercion parse_decimal (r !!! ib)))
               (rows aliased_table))
            (rows aliased_table_loaded_pandas3).
Proof.
  assert (Hload : load_data_with false parse_decimal decimal_repr elements
       (ReadTable aliased_table)
     = Return (Some aliased_table_loaded_pandas3, ok, NoDetail,
               Some aliased_table_matched)) by (vm_compute; reflexivity).
  split; [exact iteration_order_elements |].
  split; [exact aliased_table_rectangular |].
  split; [exact Hload |].
  exact (text_columns_by_pandas_version false parse_decimal decimal_repr
           elements iteration_order_elements aliased_table
           aliased_table_loaded_pandas3 NoDetail (Some aliased_table_matched)
           aliased_table_rectangular Hload).
Defined.

(** ** What the returned cells are, under either version of pandas *)

Section ReturnedCells.

Context {number : Type}.
Variable legacy : bool.
Variable parse_number : string -> option number.
Variable number_repr : number -> string.
Variable iter : gset string -> list string.

Lemma text_cell_typed (c : cell number) :
  (exists s, text_cell legacy number_repr c = Txt s /\ Str.strip s = s)
  \/ (legacy = false /\ text_cell legacy number_repr c = NaN).
Proof.
  destruct c as [| s | n]; simpl.
  - destruct legacy; [left | right; split; reflexivity].
    eexists. split; reflexivity.
  - left. eexists. split; [reflexivity | apply strip_strip].
  - left. eexists. split; [reflexivity | apply strip_strip].
Qed.

(** X14.  When the loader returns [ok] for a rectangular table, every
    returned row has a number under [births]; under [state_of_residence],
    [month] and [sex_of_infant] it has text without leading or trailing
    whitespace or, with the [astype(str)] of pandas 3 only, a missing
    value; and under [month_code] and [year_code] it has a number or a
    missing value, never text. *)
Theorem returned_cells_typed (df df' : DataFrame number) d m :
  rectangular df ->
  load_data_with legacy parse_number number_repr iter (ReadTable df)
  = Return (Some df', ok, d, m) ->
  exists ib ist imo ise imc iyc,
    positions "births" (columns df') = [ib]
    /\ positions "state_of_residence" (columns df') = [ist]
    /\ positions "month" (columns df') = [imo]
    /\ positions "sex_of_infant" (columns df') = [ise]
    /\ positions "month_code" (columns df') = [imc]
    /\ positions "year_code" (columns df') = [iyc]
    /\ Forall
         (fun r' =>
            (exists n, r' !! ib = Some (Num n))
            /\ (forall i, i ∈ [ist; imo; ise] ->
                  (exists s, r' !! i = Some (Txt s) /\ Str.strip s = s)
                  \/ (legacy = false /\ r' !! i = Some NaN))
            /\ (forall i s, i ∈ [imc; iyc] -> r' !! i <> Some (Txt s)))
         (rows df').
Proof.
  intros Hrect Hret.
  destruct (load_with_ok_inv _ _ _ _ _ _ _ _ Hret)
    as (ib & ist & imo & ise & imc & iyc
        & Hb & Hst & Hmo & Hse & Hmc & Hyc & ->).
  clear Hret.
  pose proof (positions_distinct _ _ _ _ _ _ _ Hb Hst Hmo Hse Hmc Hyc) as Hnd.
  exists ib, ist, imo, ise, imc, iyc. cbn [columns rows].
  do 6 (split; [assumption |]).
  assert (Hwidth : length (renamed_header iter df) = length (columns df))
    by (unfold renamed_header, normalized_header; rewrite !length_map; reflexivity).
  assert (Hlt : forall f i, positions f (renamed_header iter df) = [i] ->
                  i < length (columns df)).
  { intros f i Hi. rewrite <- Hwidth.
    eapply lookup_lt_Some, positions_singleton, Hi. }
  rewrite Forall_forall. intros r' Hr'.
  apply list_elem_of_In, in_map_iff in Hr' as (r & <- & Hr).
  apply filter_In in Hr as [Hr Hkeep]. apply list_elem_of_In in Hr.
  assert (Hlen : length r = length (columns df)).
  { unfold rectangular in Hrect. rewrite Forall_forall in Hrect. auto. }
  destruct (coerced_row_with_cells legacy parse_number number_repr
              _ _ _ _ _ _ r Hnd) as (H1 & H2 & H3 & H4 & H5 & H6).
  assert (Hlook : forall i, i < length (columns df) ->
    coerced_row_with legacy parse_number number_repr
      ib ist imo ise imc iyc r !! i
    = Some (coerced_row_with legacy parse_number number_repr
              ib ist imo ise imc iyc r !!! i)).
  { intros i Hi. apply list_lookup_lookup_total_lt.
    rewrite coerced_row_with_length, Hlen. exact Hi. }
  assert (Htext : forall i c,
    i < length (columns df) ->
    coerced_row_with legacy parse_number number_repr
      ib ist imo ise imc iyc r !!! i = text_cell legacy number_repr c ->
    (exists s, coerced_row_with legacy parse_number number_repr
                 ib ist imo ise imc iyc r !! i = Some (Txt s)
               /\ Str.strip s = s)
    \/ (legacy = false
        /\ coerced_row_with legacy parse_number number_repr
             ib ist imo ise imc iyc r !! i = Some NaN)).
  { intros i c Hi Hc. rewrite (Hlook i Hi), Hc.
    destruct (text_cell_typed c) as [(s & -> & Hs) | [Hl ->]];
      [left; eauto | right; auto]. }
  split; [| split].
  - unfold fails_coercion in Hkeep. rewrite negb_involutive in Hkeep.
    destruct (to_numeric_cell_present _ _ Hkeep) as [n Hn].
    exists n. rewrite (Hlook ib (Hlt _ _ Hb)), H1, Hn. reflexivity.
  - intros i Hi.
    repeat (apply elem_of_cons in Hi as [-> | Hi]); try (inversion Hi; fail).
    + apply (Htext ist (r !!! ist) (Hlt _ _ Hst)), H4.
      rewrite Hlen. apply (Hlt _ _ Hst).
    + apply (Htext imo (r !!! imo) (Hlt _ _ Hmo)), H5.
      rewrite Hlen. apply (Hlt _ _ Hmo).
    + apply (Htext ise (r !!! ise) (Hlt _ _ Hse)), H6.
      rewrite Hlen. apply (Hlt _ _ Hse).
  - intros i s Hi.
    repeat (apply elem_of_cons in Hi as [-> | Hi]); try (inversion Hi; fail).
    + rewrite (Hlook imc (Hlt _ _ Hmc)), H2. intros [= H].
      exact (to_numeric_cell_not_text _ _ _ H).
    + rewrite (Hlook iyc (Hlt _ _ Hyc)), H3. intros [= H].
      exact (to_numeric_cell_not_text _ _ _ H).
Qed.

(** ** The page after the filters, on a loaded table *)

(** X16.  On a table the loader returned with [ok], the filters never
    fail, whatever the selections are; they keep the header and only remove
    rows.  When no row is left the page stops at the warning, and
    otherwise the columns it shows are the six logical fields in
    declaration order. *)
Theorem filters_after_load (df df' : DataFrame number) d m
    (months genders states : list string) :
  load_data_with legacy parse_number number_repr iter (ReadTable df)
  = Return (Some df', ok, d, m) ->
  exists filtered,
    apply_filters df' months genders states = Some filtered
    /\ columns filtered = columns df'
    /\ (forall r, r ∈ rows filtered -> r ∈ rows df')
    /\ length (rows filtered) <= length (rows df')
    /\ page_after_filters df' months genders states
       = Some (match rows filtered with
               | [] => NoDataPage filtered
               | _ :: _ => TablePage filtered logical_fields
               end).
Proof.
  intros Hret.
  destruct (load_with_ok_inv _ _ _ _ _ _ _ _ Hret)
    as (ib & ist & imo & ise & imc & iyc
        & Hb & Hst & Hmo & Hse & Hmc & Hyc & Hdf).
  assert (Hcols : columns df' = renamed_header iter df) by (rewrite Hdf; reflexivity).
  rewrite <- Hcols in Hb, Hst, Hmo, Hse, Hmc, Hyc. clear Hdf Hcols Hret.
  assert (Hfilters :
    apply_filters df' months genders states
    = Some (mkDataFrame (columns df')
              (List.filter (fun r => selected_by states (r !!! ist))
                 (List.filter (fun r => selected_by genders (r !!! ise))
                    (List.filter (fun r => selected_by months (r !!! imo))
                       (rows df')))))).
  { unfold apply_filters.
    rewrite (filter_unless_all_unique _ _ _ imo Hmo). cbn [mbind option_bind].
    rewrite (filter_unless_all_unique _ _ _ ise) by exact Hse.
    cbn [mbind option_bind columns rows].
    rewrite (filter_unless_all_unique _ _ _ ist) by exact Hst.
    reflexivity. }
  eexists. split; [exact Hfilters |].
  cbn [columns rows]. split; [reflexivity |]. split; [| split].
  - intros r Hr. apply list_elem_of_In in Hr.
    do 3 apply filter_In, proj1 in Hr. apply list_elem_of_In, Hr.
  - rewrite !filter_twice, filter_length_split. lia.
  - unfold page_after_filters. rewrite Hfilters. cbn [mbind option_bind].
    assert (Hshown : forall rs : list (list (cell number)),
              display_cols (mkDataFrame (columns df') rs) = logical_fields).
    { intros rs. unfold display_cols. cbn [columns].
      transitivity (List.filter (fun _ : string => true) logical_fields);
        [| reflexivity].
      apply filter_ext_in. intros f Hf%list_elem_of_In.
      apply bool_decide_eq_true.
      assert (Hsome : exists i, positions f (columns df') = [i]).
      { unfold logical_fields in Hf.
        repeat (apply elem_of_cons in Hf as [-> | Hf]); try (inversion Hf; fail);
          eauto. }
      destruct Hsome as [i Hi]. apply positions_singleton in Hi.
      apply list_elem_of_lookup. eauto. }
    assert (Hheader : columns df' <> []).
    { intros Hnil. rewrite Hnil in Hb. discriminate Hb. }
    rewrite Hshown. unfold is_empty. cbn [columns rows].
    destruct (List.filter _ (List.filter _ (List.filter _ (rows df'))))
      as [| r rs]; [reflexivity |].
    destruct (columns df') as [| c cs]; [congruence | reflexivity].
Qed.

End ReturnedCells.

Lemma returned_cells_typed_witness :
  rectangular aliased_table
  /\ load_data_with false parse_decimal decimal_repr elements
       (ReadTable aliased_table)
     = Return (Some aliased_table_loaded_pandas3, ok, NoDetail,
               Some aliased_table_matched)
  /\ exists ib ist imo ise imc iyc,
       positions "births" (columns aliased_table_loaded_pandas3) = [ib]
       /\ positions "state_of_residence" (columns aliased_table_loaded_pandas3)
          = [ist]
       /\ positions "month" (columns aliased_table_loaded_pandas3) = [imo]
       /\ positions "sex_of_infant" (columns aliased_table_loaded_pandas3)
          = [ise]
       /\ positions "month_code" (columns aliased_table_loaded_pandas3) = [imc]
       /\ positions "year_code" (columns aliased_table_loaded_pandas3) = [iyc]
       /\ Forall
            (fun r' =>
               (exists n, r' !! ib = Some (Num n))
               /\ (forall i, i ∈ [ist; imo; ise] ->
                     (exists s, r' !! i = Some (Txt s) /\ Str.strip s = s)
                     \/ (false = false /\ r' !! i = Some NaN))
               /\ (forall i s, i ∈ [imc; iyc] -> r' !! i <> Some (Txt s)))
            (rows aliased_table_loaded_pandas3).
Proof.
  assert (Hload : load_data_with false parse_decimal decimal_repr elements
       (ReadTable aliased_table)
     = Return (Some aliased_table_loaded_pandas3, ok, NoDetail,
               Some aliased_table_matched)) by (vm_compute; reflexivity).
  split; [exact aliased_table_rectangular |].
  split; [exact Hload |].
  exact (returned_cells_typed false parse_decimal decimal_repr elements
           aliased_table aliased_table_loaded_pandas3 NoDetail
           (Some aliased_table_matched)
           aliased_table_rectangular Hload).
Defined.

Lemma filters_after_load_witness :
  load_data_with true parse_decimal decimal_repr elements
    (ReadTable aliased_table)
  = Return (Some aliased_table_loaded, ok, NoDetail, Some aliased_table_matched)
  /\ page_after_filters aliased_table_loaded ["January"] ["All"] ["All"]
     = Some (TablePage
               (mkDataFrame (columns aliased_table_loaded)
                  [[Txt "Ohio"; Txt "January"; Num 1%N; Num 2025%N;
                    Txt "Female"; Num 5000%N]])
               logical_fields)
  /\ exists filtered,
       apply_filters aliased_table_loaded ["January"] ["All"] ["All"]
       = Some filtered
       /\ columns filtered = columns aliased_table_loaded
       /\ (forall r, r ∈ rows filtered -> r ∈ rows aliased_table_loaded)
       /\ length (rows filtered) <= length (rows aliased_table_loaded)
       /\ page_after_filters aliased_table_loaded ["January"] ["All"] ["All"]
          = Some (match rows filtered with
                  | [] => NoDataPage filtered
                  | _ :: _ => TablePage filtered logical_fields
                  end).
Proof.
  assert (Hload : load_data_with true parse_decimal decimal_repr elements
       (ReadTable aliased_table)
     = Return (Some aliased_table_loaded, ok, NoDetail,
               Some aliased_table_matched)) by (vm_compute; reflexivity).
  split; [exact Hload |].
  split; [vm_compute; reflexivity |].
  exact (filters_after_load true parse_decimal decimal_repr elements
           aliased_table aliased_table_loaded NoDetail
           (Some aliased_table_matched) ["January"] ["All"] ["All"] Hload).
Defined.
